(** * Destination adapters of the analytics-events proxy

    A shallow embedding of [src/middleware/snowflake.js] (the warehouse
    adapter), of the S3 adapter and of the logger, with the properties
    of their lifecycle, payload shaping and write strategies.

    Conventions of the embedding.
    - A JavaScript value is a [JSValue]; a plain object is an association
      list in insertion order; only own properties are modelled.
    - Strings are sequences of 8-bit code units (the Latin-1 range).
    - An [async] function is a computation in the monad [M]: it threads
      the module-level variables, the heap of record objects and the
      trace of calls made to the outside, and ends with [Ok] (the promise
      resolves) or [Throw] (it rejects).
    - Logging, [Date.now()] durations and the random back-off sleeps have
      no influence on any value modelled here and are left out. *)

From Stdlib Require Import ZArith Lia Bool Ascii String List.
From stdpp Require Import base list strings gmap.
Import ListNotations.
Local Open Scope string_scope.
Local Open Scope Z_scope.
Set Warnings "-register-all".

(** ** JavaScript values *)

Inductive JSValue : Type :=
| JUndefined
| JNull
| JBool (b : bool)
| JNum (n : Z)
| JStr (s : string)
| JArr (l : list JSValue)
| JObj (o : list (string * JSValue)).

(** A record object: own properties in insertion order. *)
Abbreviation Row := (list (string * JSValue)) (only parsing).

Definition truthy (v : JSValue) : bool :=
  match v with
  | JUndefined | JNull => false
  | JBool b => b
  | JNum n => negb (n =? 0)
  | JStr s => negb (String.eqb s "")
  | JArr _ | JObj _ => true
  end.

(** [o[k]]: the first binding of [k], [undefined] when there is none. *)
Fixpoint obj_get (k : string) (o : Row) : JSValue :=
  match o with
  | [] => JUndefined
  | (k', v) :: r => if String.eqb k k' then v else obj_get k r
  end.

(** [o[k] = v]: overwrite in place, or append a new property. *)
Fixpoint obj_set (k : string) (v : JSValue) (o : Row) : Row :=
  match o with
  | [] => [(k, v)]
  | (k', v') :: r =>
      if String.eqb k k' then (k', v) :: r else (k', v') :: obj_set k v r
  end.

Definition obj_keys (o : Row) : list string := map fst o.

(** ** Strings *)

Definition nl : string := String (ascii_of_nat 10) "".
Definition tab : string := String (ascii_of_nat 9) "".

Fixpoint spaces (n : nat) : string :=
  match n with O => "" | S k => String " " (spaces k) end.

(** [Array.prototype.join]. *)
Fixpoint join (sep : string) (l : list string) : string :=
  match l with
  | [] => ""
  | [x] => x
  | x :: r => x ++ sep ++ join sep r
  end.

(** White space and line terminators of the Latin-1 range, as
    [String.prototype.trim] strips them. *)
Definition is_whitespace (c : ascii) : bool :=
  let n := nat_of_ascii c in
  (Nat.leb 9 n && Nat.leb n 13) || Nat.eqb n 32 || Nat.eqb n 160.

Fixpoint trimStart (s : string) : string :=
  match s with
  | "" => ""
  | String c r => if is_whitespace c then trimStart r else s
  end.

Fixpoint string_rev (s : string) : string :=
  match s with
  | "" => ""
  | String c r => string_rev r ++ String c ""
  end.

Definition trimEnd (s : string) : string :=
  string_rev (trimStart (string_rev s)).

Definition trim (s : string) : string := trimEnd (trimStart s).

Definition lower_char (c : ascii) : ascii :=
  let n := nat_of_ascii c in
  if (Nat.leb 65 n && Nat.leb n 90)
     || (Nat.leb 192 n && Nat.leb n 222 && negb (Nat.eqb n 215))
  then ascii_of_nat (n + 32) else c.

Definition upper_char (c : ascii) : ascii :=
  let n := nat_of_ascii c in
  if (Nat.leb 97 n && Nat.leb n 122)
     || (Nat.leb 224 n && Nat.leb n 254 && negb (Nat.eqb n 247))
  then ascii_of_nat (n - 32) else c.

Fixpoint toLowerCase (s : string) : string :=
  match s with
  | "" => ""
  | String c r => String (lower_char c) (toLowerCase r)
  end.

(** Upper-casing, for the sample runtime only.  The sharp s (223)
    becomes [SS]; the two letters whose capital lies outside Latin-1
    (181, 255) cannot be upper-cased inside these strings and are left
    as they are, which is why [toUpperCase] is a parameter of the
    runtime and not this function. *)
Fixpoint upper_latin1 (s : string) : string :=
  match s with
  | "" => ""
  | String c r =>
      if Nat.eqb (nat_of_ascii c) 223 then String "S" (String "S" (upper_latin1 r))
      else String (upper_char c) (upper_latin1 r)
  end.

(** [hay.includes(needle)]. *)
Fixpoint includes (needle hay : string) : bool :=
  String.prefix needle hay
  || match hay with
     | "" => false
     | String _ r => includes needle r
     end.

Definition digit_char (d : nat) : ascii := ascii_of_nat (48 + d).

Fixpoint pos_digits (fuel : nat) (n : nat) (acc : string) : string :=
  match fuel with
  | O => acc
  | S f =>
      let acc' := String (digit_char (Nat.modulo n 10)) acc in
      if Nat.ltb n 10 then acc' else pos_digits f (Nat.div n 10) acc'
  end.

(** Decimal rendering of an integer, as [Number.prototype.toString]. *)
Definition Z_toString (z : Z) : string :=
  let n := Z.to_nat (Z.abs z) in
  let d := pos_digits (S n) n "" in
  if z <? 0 then String "-" d else d.

(** The text [value.toString()] gives when it returns, for a value
    that is neither [null] nor [undefined]; an array joins its elements
    with a comma, [null] and [undefined] elements giving the empty
    string. *)
Fixpoint toString (v : JSValue) : string :=
  match v with
  | JUndefined => "undefined"
  | JNull => "null"
  | JBool true => "true"
  | JBool false => "false"
  | JNum n => Z_toString n
  | JStr s => s
  | JArr l =>
      (fix go (l : list JSValue) : string :=
         match l with
         | [] => ""
         | x :: r =>
             let sx := match x with
                       | JUndefined | JNull => ""
                       | _ => toString x
                       end in
             match r with
             | [] => sx
             | _ :: _ => sx ++ "," ++ go r
             end
         end) l
  | JObj _ => "[object Object]"
  end.

(** Whether an object has the own property [k]. *)
Definition has_own (k : string) (o : list (string * JSValue)) : bool :=
  existsb (fun kv => String.eqb (fst kv) k) o.

(** A value whose conversion to a string throws.  No value of this
    model is callable, so an object with an own [toString] property has
    no usable conversion ([valueOf], own or inherited, gives no
    primitive), and an array holding such an object throws when it joins
    its elements. *)
Fixpoint unprintable (v : JSValue) : bool :=
  match v with
  | JObj o => has_own "toString" o
  | JArr l =>
      (fix go (l : list JSValue) : bool :=
         match l with
         | [] => false
         | x :: r => unprintable x || go r
         end) l
  | _ => false
  end.

(** [value.toString()], and the conversion of a template literal:
    [None] is a TypeError. *)
Definition toString_call (v : JSValue) : option string :=
  if unprintable v then None else Some (toString v).

(** ** Schemas *)

Record Column : Type := mkColumn { name : string; type : string }.

Abbreviation Schema := (list Column) (only parsing).

Definition is_variant (f : Column) : bool := String.eqb (type f) "VARIANT".

(** ** The JavaScript runtime and the libraries the adapters call

    [JSON.parse], [JSON.stringify], [path.resolve], [path.basename] and
    ak-tools' [isJSONStr] are not code of this repository; neither are
    the schema tables of [snowflake-schemas.js] nor the transform
    [schematizeForWarehouse] of [components/transforms.js], which the
    adapter only calls.  They are parameters of the development.  So are
    two conversions of the language that do not stay inside the values
    modelled here: [String.prototype.toUpperCase], which can lengthen a
    string or leave its alphabet, and the conversion of a string to a
    number, which is a floating-point one; of the latter only the
    comparison with zero is used. *)

Abbreviation Heap := (list Row) (only parsing).
Abbreviation Batch := (list nat) (only parsing).

Record Runtime : Type := mkRuntime {
  JSON_parse : string -> option JSValue;     (* [None]: SyntaxError *)
  JSON_stringify : JSValue -> string;
  isJSONStr : string -> bool;
  path_resolve : string -> string -> string;
  path_basename : string -> string;
  TEMP_DIR : string;
  TODAY : string;
  eventsSchema : Schema;
  usersSchema : Schema;
  groupsSchema : Schema;
  schematizeForWarehouse : Heap -> Batch -> Schema -> Batch * Heap;
  MAX_RETRIES : nat;
  toUpperCase : string -> string;
  toNumber_gt0 : string -> bool              (* [Number(s) > 0] *)
}.

(** ** Payload shaping, value level *)

(** The first four disjuncts of the null test of [formatBindValue], which
    are the whole test of [prepareComplexRows]. *)
Definition null_like (v : JSValue) : bool :=
  match v with
  | JNull | JUndefined => true
  | JStr s => String.eqb s "null" || String.eqb s ""
  | _ => false
  end.

(** [value?.toString()?.trim() === ""]; [None] when [toString] throws. *)
Definition blank (v : JSValue) : option bool :=
  match v with
  | JNull | JUndefined => Some false
  | _ =>
      match toString_call v with
      | Some s => Some (String.eqb (trim s) "")
      | None => None
      end
  end.

(** The whole null test of [formatBindValue]; the last disjunct is
    evaluated only when the first four fail. *)
Definition nullish (v : JSValue) : option bool :=
  if null_like v then Some true else blank v.

Definition null_text_or_null (v : JSValue) : Prop :=
  v = JStr "null" \/ v = JNull.

Section Shaping.
Context (rt : Runtime).

(** [None]: the null test throws a TypeError. *)
Definition formatBindValue (value : JSValue) (ty : string) : option JSValue :=
  match nullish value with
  | None => None
  | Some true => Some JNull
  | Some false =>
      if String.eqb ty "VARIANT" then Some value
      else
        match value with
        | JStr s =>
            if isJSONStr rt s then
              match JSON_parse rt s with
              | Some parsed => Some parsed
              | None => Some value
              end
            else Some value
        | _ => Some value
        end
  end.

(** First loop of [prepareComplexRows]: one variant column. *)
Definition repair_variant (row : Row) (col : Column) : Row :=
  let v := obj_get (name col) row in
  if truthy v then
    match v with
    | JStr s =>
        match JSON_parse rt s with
        | Some parsed => obj_set (name col) parsed row
        | None => row               (* caught and logged *)
        end
    | _ => row
    end
  else row.

(** Second loop of [prepareComplexRows]: one key. *)
Definition nullify_key (row : Row) (key : string) : Row :=
  if null_like (obj_get key row) then obj_set key JNull row else row.

(** The contents of the object [row] when [prepareComplexRows] returns. *)
Definition prepareComplexRows_body (row : Row) (schema : Schema) : Row :=
  let variantCols := filter (fun f => is_variant f) schema in
  let row1 := fold_left repair_variant variantCols row in
  fold_left nullify_key (obj_keys row1) row1.

(** The non-variant branch of [insertData], one record:
    [schema.map(f => formatBindValue(row[f.name], f.type))]. *)
Fixpoint bind_values (schema : Schema) (row : Row) : option (list JSValue) :=
  match schema with
  | [] => Some []
  | f :: rest =>
      match formatBindValue (obj_get (name f) row) (type f) with
      | None => None
      | Some v =>
          match bind_values rest row with
          | Some vs => Some (v :: vs)
          | None => None
          end
      end
  end.

Definition bind_row (schema : Schema) (row : Row) : option JSValue :=
  match bind_values schema row with
  | Some vs => Some (JArr vs)
  | None => None
  end.

(** The same over the records of a batch. *)
Fixpoint bind_rows (schema : Schema) (rows : list Row) : option (list JSValue) :=
  match rows with
  | [] => Some []
  | row :: rest =>
      match bind_row schema row with
      | None => None
      | Some r =>
          match bind_rows schema rest with
          | Some rs => Some (r :: rs)
          | None => None
          end
      end
  end.

End Shaping.

(** ** Statement text *)

Definition select_part (field : Column) : string :=
  "value:" ++ toLowerCase (name field) ++ " AS " ++ name field.

Definition column_mapping (col : Column) : string :=
  "$1:" ++ toLowerCase (name col) ++ " AS " ++ name col.

Definition prepareInsertSQL (schema : Schema) (tableName : string)
  : string * bool :=
  let hasVariant := existsb is_variant schema in
  if hasVariant then
    let selectParts :=
      join ", " (map (fun field =>
                        if is_variant field then select_part field
                        else select_part field) schema) in
    (nl ++ spaces 12 ++ "INSERT INTO " ++ tableName ++
     nl ++ spaces 12 ++ "SELECT " ++ selectParts ++
     nl ++ spaces 12 ++ "FROM TABLE(FLATTEN(PARSE_JSON(?)))" ++
     nl ++ spaces 8, true)
  else
    let columnNames := join ", " (map name schema) in
    let placeholders := join ", " (map (fun _ => "?") schema) in
    ("INSERT INTO " ++ tableName ++ " (" ++ columnNames ++ ") VALUES ("
       ++ placeholders ++ ")", false).

(** The creation statements of the lifecycle manager. *)
Definition createDatabaseQuery (databaseName : string) : string :=
  "CREATE OR REPLACE DATABASE " ++ databaseName.

Definition createSchemaQuery (databaseName schemaName : string) : string :=
  "CREATE SCHEMA " ++ databaseName ++ "." ++ schemaName.

Definition createTableQuery (tableName schema : string) : string :=
  "CREATE OR REPLACE TABLE " ++ tableName ++ " (" ++ schema ++ ")".

Definition createStageQuery (stage : string) : string :=
  "CREATE OR REPLACE STAGE " ++ stage
    ++ " FILE_FORMAT = (TYPE = 'JSON') DIRECTORY = (ENABLE = TRUE)".

Fixpoint tabs (n : nat) : string :=
  match n with O => "" | S k => tab ++ tabs k end.

Definition createPipeQuery (pipe table columnMappings stage : string) : string :=
  nl ++ tabs 4 ++ "CREATE OR REPLACE PIPE " ++ pipe ++ "_" ++ table
     ++ " AUTO_INGEST = FALSE AS" ++
  nl ++ tabs 4 ++ "COPY INTO " ++ table ++
  nl ++ tabs 4 ++ "FROM (" ++
  nl ++ tabs 5 ++ "SELECT " ++ columnMappings ++
  nl ++ tabs 5 ++ "FROM @" ++ stage ++
  nl ++ tabs 4 ++ ")" ++
  nl ++ tabs 4 ++ "FILE_FORMAT = (TYPE = 'JSON')" ++
  nl ++ tabs 4 ++ "ON_ERROR = 'CONTINUE';" ++
  nl ++ tabs 3.

Definition copyCommand (table columnMappings stageName fileName : string) : string :=
  nl ++ tab ++ "  COPY INTO " ++ table ++
  nl ++ tab ++ "  FROM (" ++
  nl ++ tabs 2 ++ "SELECT " ++ columnMappings ++
  nl ++ tabs 2 ++ "FROM " ++ stageName ++ "/" ++ fileName ++
  nl ++ tab ++ "  )" ++
  nl ++ tab ++ "  FILE_FORMAT = (TYPE = 'JSON');" ++
  nl ++ tab.

(** ** Errors, backend replies and the trace of outside calls *)

Record SfData : Type := mkSfData {
  errorCode : JSValue;
  sqlState : JSValue;
  sf_type : JSValue
}.

(** The error object the driver hands to the [complete] callback. *)
Record SfError : Type := mkSfError {
  code : JSValue;
  err_name : string;
  message : string;
  data : option SfData
}.

Inductive Exn : Type :=
| Error (msg : string)            (* [new Error(msg)] *)
| DriverError (err : SfError)     (* the driver's error, rethrown *)
| TypeError (msg : string).       (* raised by the runtime *)

Definition exn_message (e : Exn) : string :=
  match e with
  | Error m => m
  | DriverError err => message err
  | TypeError m => m
  end.

(** What [executeSQL] resolves with: the rows, or (with [neverThrow]) the
    error object. *)
Inductive Reply : Type :=
| Rows (rows : JSValue)
| Failed (err : SfError).

(** The values of [process.env] the adapter reads; the same record type
    holds the module-level [snowflake_*] variables they are copied to. *)
Record Env : Type := mkEnv {
  snowflake_account : option string;
  snowflake_user : option string;
  snowflake_password : option string;
  snowflake_database : option string;
  snowflake_schema : option string;
  snowflake_warehouse : option string;
  snowflake_role : option string;
  snowflake_access_url : option string;
  snowflake_stage : option string;
  snowflake_pipe : option string;
  snowflake_private_key : option string;
  snowflake_region : option string;
  snowflake_provider : option string;
  snowflake_task : option string;
  snowflake_task_schedule : option string
}.

Definition env_unset : Env :=
  mkEnv None None None None None None None None None None None None None
        None None.

(** Truthiness of a variable that is a string or [undefined]. *)
Definition is_set (v : option string) : bool :=
  match v with
  | Some s => negb (String.eqb s "")
  | None => false
  end.

(** A string-or-undefined variable inside a template literal. *)
Definition tpl (v : option string) : string :=
  match v with Some s => s | None => "undefined" end.

Inductive Call : Type :=
| CallConnect (options : Env)
| CallIsValid
| CallExecute (sqlText : string) (binds : option JSValue)
| CallCreateSnowpipeAPI (args : list (option string))
| CallInsertFile (pipeName : string) (files : list string)
| CallWriteFile (path : string) (contents : string)
| CallUnlink (path : string)
| CallUid (len : nat).

(** The outside world: every oracle sees the calls made so far. *)
Record Backend : Type := mkBackend {
  be_connect : list Call -> Env -> bool;
  be_isValid : list Call -> bool;
  be_execute : list Call -> string -> option JSValue -> Reply;
  be_createSnowpipeAPI : list Call -> list (option string) -> bool;
  be_insertFile : list Call -> string -> list string -> option string;
  fs_writeFile : list Call -> string -> string -> option string;
  fs_unlink : list Call -> string -> option string;
  rand_uid : list Call -> nat -> string
}.

Definition is_execute (c : Call) : bool :=
  match c with CallExecute _ _ => true | _ => false end.

(** ** Adapter state *)

Record Flags : Type := mkFlags {
  isConnectionReady : bool;
  isDatasetReady : bool;
  areTablesReady : bool;
  isStageReady : bool;
  isPipeReady : bool;
  isSnowPipeReady : bool
}.

(** The readiness variables start [undefined] and are only ever tested
    for truthiness before they hold a boolean, so [undefined] is [false]
    here. *)
Definition flags_unset : Flags := mkFlags false false false false false false.

Record World : Type := mkWorld {
  process_env : Env;
  vars : Env;               (* the module-level [snowflake_*] variables *)
  connection : bool;        (* [connection] holds a handle *)
  snowpipeAPI : bool;       (* [snowpipeAPI] holds a client *)
  flags : Flags;
  transport : string;
  heap : Heap;              (* the record objects, by address *)
  trace : list Call         (* oldest first *)
}.

Definition fresh_world (env : Env) (h : Heap) : World :=
  mkWorld env env_unset false false flags_unset "none" h [].

Definition set_vars (e : Env) (w : World) : World :=
  mkWorld (process_env w) e (connection w) (snowpipeAPI w) (flags w)
          (transport w) (heap w) (trace w).
Definition set_connection (b : bool) (w : World) : World :=
  mkWorld (process_env w) (vars w) b (snowpipeAPI w) (flags w)
          (transport w) (heap w) (trace w).
Definition set_snowpipeAPI (b : bool) (w : World) : World :=
  mkWorld (process_env w) (vars w) (connection w) b (flags w)
          (transport w) (heap w) (trace w).
Definition set_flags (f : Flags) (w : World) : World :=
  mkWorld (process_env w) (vars w) (connection w) (snowpipeAPI w) f
          (transport w) (heap w) (trace w).
Definition set_transport (t : string) (w : World) : World :=
  mkWorld (process_env w) (vars w) (connection w) (snowpipeAPI w) (flags w)
          t (heap w) (trace w).
Definition set_heap (h : Heap) (w : World) : World :=
  mkWorld (process_env w) (vars w) (connection w) (snowpipeAPI w) (flags w)
          (transport w) h (trace w).
Definition add_call (c : Call) (w : World) : World :=
  mkWorld (process_env w) (vars w) (connection w) (snowpipeAPI w) (flags w)
          (transport w) (heap w) (trace w ++ [c])%list.

(** ** The monad of asynchronous functions *)

Inductive Outcome (A : Type) : Type :=
| Ok (a : A)
| Throw (e : Exn).
Arguments Ok {A} a.
Arguments Throw {A} e.

(** A computation over a state [S] that resolves or rejects. *)
Definition ST (S A : Type) : Type := S -> Outcome A * S.

Section Monad.
Context {S : Type}.

Definition ret {A} (a : A) : ST S A := fun w => (Ok a, w).
Definition throw {A} (e : Exn) : ST S A := fun w => (Throw e, w).
Definition bind {A C} (m : ST S A) (k : A -> ST S C) : ST S C :=
  fun w => match m w with
           | (Ok a, w') => k a w'
           | (Throw e, w') => (Throw e, w')
           end.
Definition try_catch {A} (m : ST S A) (handler : Exn -> ST S A) : ST S A :=
  fun w => match m w with
           | (Ok a, w') => (Ok a, w')
           | (Throw e, w') => handler e w'
           end.
(** [try { m } finally { cleanup }]: an exception of [cleanup] wins. *)
Definition try_finally {A} (m : ST S A) (cleanup : ST S unit) : ST S A :=
  fun w => let (r, w') := m w in
           match cleanup w' with
           | (Ok _, w'') => (r, w'')
           | (Throw e, w'') => (Throw e, w'')
           end.
Definition get : ST S S := fun w => (Ok w, w).
Definition modify (f : S -> S) : ST S unit := fun w => (Ok tt, f w).
End Monad.

(** The warehouse adapter's computations. *)
Definition M (A : Type) : Type := ST World A.

Notation "x <- m ;; k" := (bind m (fun x => k))
  (at level 100, m at next level, right associativity).
Notation "m ;;; k" := (bind m (fun _ => k))
  (at level 100, right associativity).

(** ** Small JavaScript helpers *)

(** [v?.[0]] *)
Definition js_index0 (v : JSValue) : JSValue :=
  match v with
  | JArr (x :: _) => x
  | JStr (String c _) => JStr (String c "")
  | JObj o => obj_get "0" o
  | _ => JUndefined
  end.

(** [v?.[key]] for a row object. *)
Definition js_prop (key : string) (v : JSValue) : JSValue :=
  match v with
  | JObj o => obj_get key o
  | _ => JUndefined
  end.

(** [v > 0], with the conversion of [v] to a number: [undefined] is
    NaN and [null] is zero; a string is converted by the runtime; an
    array is converted through its text; an object without a usable
    [toString] throws (a TypeError, [None]) and any other object is
    NaN. *)
Definition js_gt0 (rt : Runtime) (v : JSValue) : option bool :=
  match v with
  | JUndefined | JNull => Some false
  | JBool b => Some b
  | JNum n => Some (0 <? n)
  | JStr s => Some (toNumber_gt0 rt s)
  | JArr _ =>
      match toString_call v with
      | Some s => Some (toNumber_gt0 rt s)
      | None => None
      end
  | JObj o => if has_own "toString" o then None else Some false
  end.

(** [s.split(sep).shift()]: what precedes the first [sep]. *)
Fixpoint split_shift (sep s : string) : string :=
  if String.prefix sep s then ""
  else match s with
       | "" => ""
       | String c r => String c (split_shift sep r)
       end.

(** The [tableNames] object has the three keys [eventTable],
    [userTable] and [groupTable]; [Object.entries] and [Object.values]
    enumerate them in the order in which the caller wrote them. *)
Inductive TableKey : Type := EventKey | UserKey | GroupKey.

Inductive KeyOrder : Type :=
| EventUserGroup | EventGroupUser
| UserEventGroup | UserGroupEvent
| GroupEventUser | GroupUserEvent.

Definition keys_in_order (o : KeyOrder) : list TableKey :=
  match o with
  | EventUserGroup => [EventKey; UserKey; GroupKey]
  | EventGroupUser => [EventKey; GroupKey; UserKey]
  | UserEventGroup => [UserKey; EventKey; GroupKey]
  | UserGroupEvent => [UserKey; GroupKey; EventKey]
  | GroupEventUser => [GroupKey; EventKey; UserKey]
  | GroupUserEvent => [GroupKey; UserKey; EventKey]
  end.

Record TableNames : Type := mkTableNames {
  eventTable : string;
  userTable : string;
  groupTable : string;
  keyOrder : KeyOrder
}.

Definition key_name (k : TableKey) : string :=
  match k with
  | EventKey => "eventTable"
  | UserKey => "userTable"
  | GroupKey => "groupTable"
  end.

Definition table_named (t : TableNames) (k : TableKey) : string :=
  match k with
  | EventKey => eventTable t
  | UserKey => userTable t
  | GroupKey => groupTable t
  end.

(** [Object.entries(tableNames)] and [Object.values(tableNames)]. *)
Definition entries (t : TableNames) : list (string * string) :=
  map (fun k => (key_name k, table_named t k)) (keys_in_order (keyOrder t)).
Definition values (t : TableNames) : list string := map snd (entries t).

Record InsertResult : Type := mkInsertResult {
  status : string;
  dest : option string;
  insertedRows : Z;
  failedRows : Z;
  errorMessage : option string;
  errors : option Exn;
  method : option string         (* [meta.method] *)
}.

(** ** The warehouse adapter *)

Section Snowflake.
Context (rt : Runtime) (B : Backend).

(** One call to the outside: the oracle answers from the calls so far,
    and the call is appended to the trace. *)
Definition outside {A} (c : Call) (answer : list Call -> A) : M A :=
  fun w => (Ok (answer (trace w)), add_call c w).

Definition getSnowflakeSchema (ty : string) : M Schema :=
  if String.eqb ty "event" || String.eqb ty "track" then ret (eventsSchema rt)
  else if String.eqb ty "user" || String.eqb ty "engage" then ret (usersSchema rt)
  else if String.eqb ty "group" || String.eqb ty "groups" then ret (groupsSchema rt)
  else throw (Error "Invalid Record Type").

(** [code?.toString() === "000625" && name === "OperationFailedError"
    && message.includes('has locked table')] *)
Definition is_table_locked (err : SfError) : bool :=
  match code err with
  | JUndefined | JNull => false
  | c => String.eqb (toString c) "000625"
  end
  && String.eqb (err_name err) "OperationFailedError"
  && includes "has locked table" (message err).

Definition executeSQL (sql : string) (binds : option JSValue)
           (neverThrow : bool) : M Reply :=
  w <- get ;;
  if connection w then
    let binds' := match binds with
                  | Some b => if truthy b then Some b else None
                  | None => None
                  end in
    r <- outside (CallExecute sql binds')
                 (fun t => be_execute B t sql binds') ;;
    match r with
    | Rows rows => ret (Rows rows)
    | Failed err =>
        if neverThrow then ret (Failed err)
        else if is_table_locked err then throw (Error "TableLockedError")
        else throw (DriverError err)
    end
  else throw (TypeError "Cannot read properties of undefined (reading 'execute')").

Definition exec (sql : string) : M Reply := executeSQL sql None false.

Definition createSnowpipeConnection : M bool :=
  w <- get ;;
  let v := vars w in
  let args := ([snowflake_user v; snowflake_private_key v; snowflake_account v]
                 ++ (if is_set (snowflake_region v) then [snowflake_region v] else [])
                 ++ (if is_set (snowflake_provider v) then [snowflake_provider v] else []))%list in
  created <- outside (CallCreateSnowpipeAPI args)
                     (fun t => be_createSnowpipeAPI B t args) ;;
  if created : bool then modify (set_snowpipeAPI true) ;;; ret true
  else ret false.

Definition require_set (v : option string) (what : string) : M unit :=
  if is_set v then ret tt else throw (Error (what ++ " is required")).

Definition createSnowflakeConnection : M bool :=
  w <- get ;;
  let v := vars w in
  require_set (snowflake_account v) "snowflake_account" ;;;
  require_set (snowflake_user v) "snowflake_user" ;;;
  require_set (snowflake_password v) "snowflake_password" ;;;
  require_set (snowflake_database v) "snowflake_database" ;;;
  require_set (snowflake_schema v) "snowflake_schema" ;;;
  require_set (snowflake_warehouse v) "snowflake_warehouse" ;;;
  require_set (snowflake_role v) "snowflake_role" ;;;
  connected <- outside (CallConnect v) (fun t => be_connect B t v) ;;
  if connected : bool then modify (set_connection true) ;;; ret true
  else ret false.

Definition require_array (r : Reply) (msg : string) : M (list JSValue) :=
  match r with
  | Rows (JArr l) => ret l
  | _ => throw (Error msg)
  end.

(** [Object.values(v)[0]]: [None] when [v] is [null] or [undefined]. *)
Definition first_value (v : JSValue) : option JSValue :=
  match v with
  | JUndefined | JNull => None
  | JObj ((_, x) :: _) => Some x
  | JArr (x :: _) => Some x
  | JStr (String c _) => Some (JStr (String c ""))
  | _ => Some JUndefined
  end.

Definition getCurrentUser : M JSValue :=
  try_catch
    (getUser <- exec "SELECT CURRENT_USER()" ;;
     rows <- require_array getUser "Failed to get current user" ;;
     match first_value (js_index0 (JArr rows)) with
     | None => throw (TypeError "Cannot convert undefined or null to object")
     | Some currentUser =>
         match toString_call currentUser with
         | None => throw (TypeError "Cannot convert object to primitive value")
         | Some user =>
             getDetails <- exec ("SHOW USERS LIKE '" ++ user ++ "'") ;;
             details <- require_array getDetails "Failed to get current user details" ;;
             ret (List.last details JUndefined)
         end
     end)
    (fun _ => ret JNull).

(** [checkSchemaResult.some(schema => schema.name === upper)]: [None]
    when an element is [null] or [undefined] (TypeError). *)
Fixpoint some_named (upper : string) (l : list JSValue) : option bool :=
  match l with
  | [] => Some false
  | x :: r =>
      match x with
      | JUndefined | JNull => None
      | _ =>
          match js_prop "name" x with
          | JStr n => if String.eqb n upper then Some true else some_named upper r
          | _ => some_named upper r
          end
      end
  end.

(** [checkResult?.message?.includes(text)] on what the existence check
    resolved with: the driver's error, or the rows.  [None]: [message]
    holds something without an [includes] (a TypeError). *)
Definition message_includes (text : string) (checkResult : Reply) : option bool :=
  match checkResult with
  | Failed err => Some (includes text (message err))
  | Rows (JObj o) =>
      match obj_get "message" o with
      | JUndefined | JNull => Some false
      | JStr s => Some (includes text s)
      | JArr l =>
          Some (existsb (fun x => match x with
                                  | JStr s => String.eqb s text
                                  | _ => false
                                  end) l)
      | _ => None
      end
  | Rows _ => Some false
  end.

Definition verifyOrCreateDatabase : M bool :=
  w <- get ;;
  let databaseName := snowflake_database (vars w) in
  let schemaName := snowflake_schema (vars w) in
  match databaseName with
  | None => throw (TypeError "Cannot read properties of undefined (reading 'toUpperCase')")
  | Some db =>
      let checkDatabaseQuery :=
        "SELECT COUNT(*) AS count FROM " ++ toUpperCase rt db
          ++ ".INFORMATION_SCHEMA.DATABASES WHERE DATABASE_NAME = '"
          ++ toUpperCase rt db ++ "'" in
      checkResult <- executeSQL checkDatabaseQuery None true ;;
      databaseExists <-
        match message_includes
                ("Database '" ++ toUpperCase rt db
                   ++ "' does not exist or not authorized.") checkResult with
        | None => throw (TypeError "checkResult?.message?.includes is not a function")
        | Some true => ret false
        | Some false =>
            match js_gt0 rt (js_prop "COUNT" (match checkResult with
                                             | Rows rows => js_index0 rows
                                             | Failed _ => JUndefined
                                             end)) with
            | None => throw (TypeError "Cannot convert object to primitive value")
            | Some b => ret b
            end
        end ;;
      (if databaseExists : bool then ret tt
       else exec (createDatabaseQuery db) ;;; ret tt) ;;;
      checkSchemaResult <- executeSQL ("SHOW SCHEMAS IN DATABASE " ++ db) None true ;;
      schemas <- require_array checkSchemaResult "Failed to check schema existence" ;;
      schemaExists <-
        match schemas, schemaName with
        | [], _ => ret false
        | _ :: _, None =>
            throw (TypeError "Cannot read properties of undefined (reading 'toUpperCase')")
        | _ :: _, Some sn =>
            match some_named (toUpperCase rt sn) schemas with
            | Some b => ret b
            | None => throw (TypeError "Cannot read properties of null (reading 'name')")
            end
        end ;;
      (if schemaExists : bool then ret tt
       else exec (createSchemaQuery db (tpl schemaName)) ;;; ret tt) ;;;
      exec ("USE SCHEMA " ++ db ++ "." ++ tpl schemaName) ;;;
      ret true
  end.

Definition checkIfTableExists (tableName : string) : M bool :=
  result <- exec ("SHOW TABLES LIKE '" ++ tableName ++ "'") ;;
  match result with
  | Rows (JArr []) => ret false
  | Rows (JArr (_ :: _)) => ret true
  | _ => ret false
  end.

Definition createTable (tableName schema : string) : M Reply :=
  exec (createTableQuery tableName schema).

Definition insertDummyRecord (tableName : string) (dummyRecord : Row) : M bool :=
  let columns := join ", " (obj_keys dummyRecord) in
  let vals := join ", " (map (fun kv => "'" ++ toString (snd kv) ++ "'") dummyRecord) in
  let insertQuery :=
    "INSERT INTO " ++ tableName ++ " (" ++ columns ++ ") VALUES (" ++ vals ++ ")" in
  result <- executeSQL insertQuery None true ;;
  match result with
  | Rows _ => throw (TypeError "Cannot destructure property 'errorCode' of 'data'")
  | Failed err =>
      match data err with
      | None => throw (TypeError "Cannot destructure property 'errorCode' of 'data'")
      | Some d =>
          match code err, errorCode d, sqlState d, sf_type d with
          | JStr c, JStr ec, JStr st, JStr ty =>
              ret (String.eqb c "000904" && String.eqb ec "000904"
                   && String.eqb st "42000" && String.eqb ty "COMPILATION")
          | _, _, _, _ => ret false
          end
      end
  end.

(** First loop of [waitForTableToBeReady]; [n] iterations are left.
    [true]: go on to the write probe; [false]: the function returns
    [false]. *)
Fixpoint wait_exists (tableName : string) (n : nat) : M bool :=
  match n with
  | O => ret true
  | S k =>
      tableFound <- checkIfTableExists tableName ;;
      if tableFound : bool then ret true
      else match k with
           | O => ret false
           | S _ => wait_exists tableName k
           end
  end.

(** Second loop: the dummy insert; any exception counts as a failed
    attempt. *)
Fixpoint wait_writable (tableName : string) (n : nat) : M bool :=
  match n with
  | O => ret false
  | S k =>
      dummyInsert <- try_catch
                       (insertDummyRecord tableName [("dummy_column", JStr "dummy_value")])
                       (fun _ => ret false) ;;
      if dummyInsert : bool then ret true else wait_writable tableName k
  end.

Definition waitForTableToBeReady (tableName : string)
           (retries maxInsertAttempts : nat) : M bool :=
  found <- wait_exists tableName retries ;;
  if found : bool then wait_writable tableName maxInsertAttempts else ret false.

Fixpoint verifyOrCreateTables (tableNames : list (string * string))
  : M (list bool) :=
  match tableNames with
  | [] => ret []
  | (ty, table) :: rest =>
      tableExists <- checkIfTableExists table ;;
      (if tableExists : bool then ret tt
       else
         tableSchema <- getSnowflakeSchema ty ;;
         let sqlSchema := join ", " (map (fun f => name f ++ " " ++ type f) tableSchema) in
         createTable table sqlSchema ;;; ret tt) ;;;
      tableReady <- waitForTableToBeReady table 20 20 ;;
      results <- verifyOrCreateTables rest ;;
      ret (tableReady :: results)
  end.

Definition verifyOrCreateStage : M bool :=
  w <- get ;;
  let stage := tpl (snowflake_stage (vars w)) in
  let role := tpl (snowflake_role (vars w)) in
  result <- exec ("SHOW STAGES LIKE '" ++ stage ++ "'") ;;
  found <- require_array result "Failed to check stage existence" ;;
  match found with
  | [] =>
      exec (createStageQuery stage) ;;;
      exec ("GRANT READ ON STAGE " ++ stage ++ " TO ROLE " ++ role) ;;;
      exec ("GRANT WRITE ON STAGE " ++ stage ++ " TO ROLE " ++ role) ;;;
      ret true
  | _ :: _ => ret true
  end.

Fixpoint verifyOrCreatePipe_loop (allTables : list (string * string)) : M unit :=
  match allTables with
  | [] => ret tt
  | (ty, table) :: rest =>
      w <- get ;;
      let pipe := tpl (snowflake_pipe (vars w)) in
      result <- exec ("SHOW PIPES LIKE '" ++ pipe ++ "_" ++ table ++ "'") ;;
      match result with
      | Rows (JArr (_ :: _)) => ret tt
      | _ =>
          schema <- getSnowflakeSchema (split_shift "Table" ty) ;;
          let columnMappings := join ", " (map column_mapping schema) in
          exec (createPipeQuery pipe table columnMappings
                                (tpl (snowflake_stage (vars w)))) ;;;
          ret tt
      end ;;;
      verifyOrCreatePipe_loop rest
  end.

Definition verifyOrCreatePipe (tableNames : TableNames) : M bool :=
  verifyOrCreatePipe_loop (entries tableNames) ;;; ret true.

Definition set_isConnectionReady (b : bool) (w : World) : World :=
  let f := flags w in
  set_flags (mkFlags b (isDatasetReady f) (areTablesReady f) (isStageReady f)
                     (isPipeReady f) (isSnowPipeReady f)) w.
Definition set_isDatasetReady (b : bool) (w : World) : World :=
  let f := flags w in
  set_flags (mkFlags (isConnectionReady f) b (areTablesReady f) (isStageReady f)
                     (isPipeReady f) (isSnowPipeReady f)) w.
Definition set_areTablesReady (b : bool) (w : World) : World :=
  let f := flags w in
  set_flags (mkFlags (isConnectionReady f) (isDatasetReady f) b (isStageReady f)
                     (isPipeReady f) (isSnowPipeReady f)) w.
Definition set_isStageReady (b : bool) (w : World) : World :=
  let f := flags w in
  set_flags (mkFlags (isConnectionReady f) (isDatasetReady f) (areTablesReady f) b
                     (isPipeReady f) (isSnowPipeReady f)) w.
Definition set_isPipeReady (b : bool) (w : World) : World :=
  let f := flags w in
  set_flags (mkFlags (isConnectionReady f) (isDatasetReady f) (areTablesReady f)
                     (isStageReady f) b (isSnowPipeReady f)) w.
Definition set_isSnowPipeReady (b : bool) (w : World) : World :=
  let f := flags w in
  set_flags (mkFlags (isConnectionReady f) (isDatasetReady f) (areTablesReady f)
                     (isStageReady f) (isPipeReady f) b) w.

(** The blocks of [initializeSnowflake], in the order of the source:
    each runs only while its flag is unset. *)
Definition ensure_connection : M unit :=
  w <- get ;;
  if isConnectionReady (flags w) then ret tt
  else
    connected <- createSnowflakeConnection ;;
    modify (set_isConnectionReady connected) ;;;
    (if connected : bool then ret tt
     else throw (Error "snowflake credentials verification failed.")) ;;;
    valid <- outside CallIsValid (be_isValid B) ;;
    modify (set_isConnectionReady valid) ;;;
    getCurrentUser ;;;
    if valid : bool then ret tt
    else throw (Error "snowflake connection is in an invalid state.").

Definition ensure_dataset : M unit :=
  w <- get ;;
  if isDatasetReady (flags w) then ret tt
  else
    ready <- verifyOrCreateDatabase ;;
    modify (set_isDatasetReady ready) ;;;
    if ready : bool then ret tt
    else throw (Error "Dataset verification or creation failed.").

Definition ensure_tables (tableNames : TableNames) : M unit :=
  w <- get ;;
  if areTablesReady (flags w) then ret tt
  else
    tableCheckResults <-
      verifyOrCreateTables [("track", eventTable tableNames);
                            ("user", userTable tableNames);
                            ("group", groupTable tableNames)] ;;
    let ready := forallb (fun r => r) tableCheckResults in
    modify (set_areTablesReady ready) ;;;
    (if ready then ret tt
     else throw (Error "Table verification or creation failed.")) ;;;
    modify (set_transport "insert").

(** The optional blocks return what they push onto [result]. *)
Definition optional_stage : M (list bool) :=
  w <- get ;;
  if is_set (snowflake_stage (vars w)) && negb (isStageReady (flags w)) then
    stageCheckResults <- verifyOrCreateStage ;;
    modify (set_isStageReady stageCheckResults) ;;;
    modify (set_transport "copy") ;;;
    ret [stageCheckResults]
  else ret [].

Definition optional_pipe (tableNames : TableNames) : M (list bool) :=
  w <- get ;;
  if isPipeReady (flags w) then ret []
  else
    pipeCheckResults <- verifyOrCreatePipe tableNames ;;
    modify (set_isPipeReady pipeCheckResults) ;;;
    modify (set_transport "pipe") ;;;
    ret [pipeCheckResults].

Definition optional_snowpipe : M (list bool) :=
  w <- get ;;
  if isSnowPipeReady (flags w) then ret []
  else
    ready <- createSnowpipeConnection ;;
    modify (set_isSnowPipeReady ready) ;;;
    ret [ready].

Definition initializeSnowflake (tableNames : TableNames) : M (list bool) :=
  (* ({ snowflake_account, ... } = process.env) *)
  modify (fun w => set_vars (process_env w) w) ;;;
  ensure_connection ;;;
  ensure_dataset ;;;
  ensure_tables tableNames ;;;
  w <- get ;;
  let result := [isConnectionReady (flags w); isDatasetReady (flags w);
                 areTablesReady (flags w)] in
  pushedStage <- optional_stage ;;
  w <- get ;;
  pushedPipe <-
    (if is_set (snowflake_pipe (vars w)) then
       pipePart <- optional_pipe tableNames ;;
       snowpipePart <- optional_snowpipe ;;
       ret (pipePart ++ snowpipePart)%list
     else ret []) ;;
  ret (result ++ pushedStage ++ pushedPipe)%list.

(** *** Write strategies *)

Definition deref (h : Heap) (l : nat) : Row := default [] (h !! l).

(** [prepareComplexRows(row, schema)]: the object at address [row] is
    repaired in place and the same reference is returned. *)
Definition prepareComplexRows (row : nat) (schema : Schema) : M nat :=
  w <- get ;;
  modify (set_heap (<[row := prepareComplexRows_body rt (deref (heap w) row) schema]>
                      (heap w))) ;;;
  ret row.

Fixpoint mapM {A C} (f : A -> M C) (l : list A) : M (list C) :=
  match l with
  | [] => ret []
  | x :: r => y <- f x ;; ys <- mapM f r ;; ret (y :: ys)
  end.

(** The bind payload of [insertData].  A value whose [toString] cannot
    be called makes [formatBindValue] raise a TypeError; its message is
    the engine's wording. *)
Definition shape (batch : Batch) (schema : Schema) (hasVariant : bool) : M JSValue :=
  if hasVariant then
    rows <- mapM (fun row => prepareComplexRows row schema) batch ;;
    w <- get ;;
    ret (JArr [JStr (JSON_stringify rt (JArr (map (fun l => JObj (deref (heap w) l)) rows)))])
  else
    w <- get ;;
    match bind_rows rt schema (map (deref (heap w)) batch) with
    | Some rows => ret (JArr rows)
    | None => throw (TypeError "value?.toString is not a function")
    end.

(** [task?.[0]?.['number of rows inserted'] || 0]; the driver reports
    the count as a number. *)
Definition rows_inserted (task : JSValue) : Z :=
  match js_prop "number of rows inserted" (js_index0 task) with
  | JNum n => n
  | _ => 0
  end.

Definition batch_length (batch : Batch) : Z := Z.of_nat (length batch).

Definition insertData (batch : Batch) (table : string) (schema : Schema)
  : M InsertResult :=
  let (insertSQL, hasVariant) := prepareInsertSQL schema table in
  payload <- shape batch schema hasVariant ;;
  try_catch
    (task <- executeSQL insertSQL (Some payload) false ;;
     w <- get ;;
     let inserted := match task with Rows rows => rows_inserted rows | Failed _ => 0 end in
     ret (mkInsertResult "success" (Some "snowflake") inserted
                         (batch_length batch - inserted) None None
                         (Some (transport w))))
    (fun error =>
       ret (mkInsertResult "error" (Some "snowflake") 0 (batch_length batch)
                           (Some (exn_message error)) (Some error) None)).

Definition uid (n : nat) : M string :=
  outside (CallUid n) (fun t => rand_uid B t n).

(** [writeFile] and [unlink] of [fs/promises]. *)
Definition fs_call (c : Call) (answer : list Call -> option string) : M unit :=
  r <- outside c answer ;;
  match r with
  | None => ret tt
  | Some msg => throw (Error msg)
  end.
Definition writeFile (path contents : string) : M unit :=
  fs_call (CallWriteFile path contents) (fun t => fs_writeFile B t path contents).
Definition unlink (path : string) : M unit :=
  fs_call (CallUnlink path) (fun t => fs_unlink B t path).

(** [batch.map(record => JSON.stringify(record)).join('\n')] *)
Definition ndjson (h : Heap) (batch : Batch) : string :=
  join nl (map (fun l => JSON_stringify rt (JObj (deref h l))) batch).

Definition full_success (batch : Batch) (w : World) : InsertResult :=
  mkInsertResult "success" None (batch_length batch) 0 None None
                 (Some (transport w)).

Definition copyIntoData (batch : Batch) (table : string) (schema : Schema)
  : M InsertResult :=
  suffix <- uid 18 ;;
  let FILE_PATH := path_resolve rt (TEMP_DIR rt)
                     (table ++ "_" ++ TODAY rt ++ "_" ++ suffix ++ ".json") in
  let fileName := path_basename rt FILE_PATH in
  w <- get ;;
  writeFile FILE_PATH (ndjson (heap w) batch) ;;;
  let stageName := "@" ++ tpl (snowflake_stage (vars w)) in
  exec ("PUT file://" ++ FILE_PATH ++ " " ++ stageName) ;;;
  let columnMappings := join ", " (map column_mapping schema) in
  try_finally
    (exec (copyCommand table columnMappings stageName fileName) ;;;
     w <- get ;;
     let result := full_success batch w in
     exec ("REMOVE " ++ stageName ++ "/" ++ fileName) ;;;
     ret result)
    (unlink FILE_PATH).

Definition insertFile (pipeName : string) (files : list string) : M unit :=
  w <- get ;;
  if snowpipeAPI w then
    fs_call (CallInsertFile pipeName files) (fun t => be_insertFile B t pipeName files)
  else throw (TypeError "Cannot read properties of undefined (reading 'insertFile')").

Definition insertWithPipe (batch : Batch) (table : string) (schema : Schema)
  : M InsertResult :=
  suffix <- uid 18 ;;
  let FILE_PATH := path_resolve rt (TEMP_DIR rt)
                     (table ++ "_" ++ TODAY rt ++ "_" ++ suffix ++ ".json") in
  let fileName := path_basename rt FILE_PATH ++ ".gz" in
  w <- get ;;
  writeFile FILE_PATH (ndjson (heap w) batch) ;;;
  let stageName := "@" ++ tpl (snowflake_stage (vars w)) in
  exec ("PUT file://" ++ FILE_PATH ++ " " ++ stageName) ;;;
  let pipeName := tpl (snowflake_database (vars w)) ++ "."
                    ++ tpl (snowflake_schema (vars w)) ++ "."
                    ++ tpl (snowflake_pipe (vars w)) ++ "_" ++ table in
  try_finally
    (insertFile pipeName [fileName] ;;;
     w <- get ;;
     ret (full_success batch w))
    (unlink FILE_PATH).

Definition insertWithPut (batch : Batch) (table : string) (schema : Schema)
  : M InsertResult :=
  suffix <- uid 18 ;;
  let FILE_PATH := path_resolve rt (TEMP_DIR rt)
                     (table ++ "_" ++ TODAY rt ++ "_" ++ suffix ++ ".json") in
  w <- get ;;
  writeFile FILE_PATH (ndjson (heap w) batch) ;;;
  let stageName := "@" ++ tpl (snowflake_stage (vars w)) in
  exec ("PUT file://" ++ FILE_PATH ++ " " ++ stageName) ;;;
  w <- get ;;
  let result := full_success batch w in
  unlink FILE_PATH ;;;
  ret result.

(** *** Retry engine *)

Definition Strategy : Type := Batch -> string -> Schema -> M InsertResult.

(** [executeSQL] signals a locked table with this message. *)
Definition is_contention (e : Exn) : bool :=
  String.eqb (exn_message e) "TableLockedError".

Definition terminal_error (batch : Batch) (e : Exn) : InsertResult :=
  mkInsertResult "error" None 0 (batch_length batch)
                 (Some (exn_message e)) (Some e) None.

(** Modelled from the spec: [insertWithRetry] of
    [components/retries.js], which is not among the sources.  The spec
    (Retry Engine): it wraps one strategy invocation; an exception
    classified as recoverable contention is retried, up to the
    configured number of attempts; any other exception, or running out
    of attempts, gives a terminal [error] result with no inserted rows
    and the whole batch failed.  [remaining] counts the attempts left
    after the current one. *)
Fixpoint insertWithRetry_from (remaining : nat) (fn : Strategy)
         (batch : Batch) (table : string) (schema : Schema) : M InsertResult :=
  try_catch (fn batch table schema)
    (fun e =>
       if is_contention e then
         match remaining with
         | S k => insertWithRetry_from k fn batch table schema
         | O => ret (terminal_error batch e)
         end
       else ret (terminal_error batch e)).

Definition insertWithRetry (fn : Strategy) : Strategy :=
  insertWithRetry_from (Nat.pred (MAX_RETRIES rt)) fn.

(** *** The entry point *)

(** The [switch (transport)] of [main]. *)
Definition strategy_of (transport : string) : option Strategy :=
  if String.eqb transport "insert" then Some insertData
  else if String.eqb transport "copy" then Some copyIntoData
  else if String.eqb transport "pipe" then Some insertWithPipe
  else if String.eqb transport "task" then Some insertWithPut
  else None.

Definition main (data : Batch) (ty : string) (tableNames : TableNames)
  : M InsertResult :=
  init <- initializeSnowflake tableNames ;;
  (if forallb (fun i => i) init then ret tt
   else throw (Error "Failed to initialize Snowflake middleware.")) ;;;
  targetTable <-
    (if String.eqb ty "track" then ret (eventTable tableNames)
     else if String.eqb ty "engage" then ret (userTable tableNames)
     else if String.eqb ty "groups" then ret (groupTable tableNames)
     else throw (Error "Invalid Record Type")) ;;
  schema <- getSnowflakeSchema ty ;;
  w <- get ;;
  let (preparedData, h) := schematizeForWarehouse rt (heap w) data schema in
  modify (set_heap h) ;;;
  w <- get ;;
  insertMethod <-
    match strategy_of (transport w) with
    | Some fn => ret fn
    | None => throw (Error "Invalid transport method")
    end ;;
  insertWithRetry insertMethod preparedData targetTable schema.

(** *** Dropping the resources *)

(** One [executeSQL] of a mapper of [dropTables], and the status it
    pushes. *)
Definition drop_statement (sql : string) : M JSValue :=
  r <- exec sql ;;
  match r with
  | Rows rows => ret (js_prop "status" (js_index0 rows))
  | Failed _ => ret JUndefined
  end.

(** The mappers of [dropTables] are started together by
    [Object.values(tableNames).map(async ...)] and each suspends at its
    [await]s.  With a driver that completes statements in the order
    they were issued, the statements go out in rounds: every live
    mapper issues its next statement in turn.  A mapper whose statement
    fails stops there; the first failure is what [Promise.all] rejects
    with, while the other mappers run on. *)
Fixpoint drop_round (mk : string -> string) (live : list string)
         (results : list JSValue) (rejected : option Exn)
  : M (list string * list JSValue * option Exn) :=
  match live with
  | [] => ret ([], results, rejected)
  | table :: rest =>
      r <- try_catch (s <- drop_statement (mk table) ;; ret (inl s))
                     (fun e => ret (inr e)) ;;
      match r with
      | inl s =>
          p <- drop_round mk rest (results ++ [s])%list rejected ;;
          let '(live', results', rejected') := p in
          ret (table :: live', results', rejected')
      | inr e =>
          drop_round mk rest results
                     (match rejected with Some e0 => Some e0 | None => Some e end)
      end
  end.

(** [results.flat()] *)
Definition js_flat (l : list JSValue) : list JSValue :=
  concat (map (fun v => match v with JArr xs => xs | _ => [v] end) l).

Definition dropTables (tableNames : TableNames) : M JSValue :=
  w <- get ;;
  let pipe := tpl (snowflake_pipe (vars w)) in
  let task := tpl (snowflake_task (vars w)) in
  p1 <- drop_round (fun table => "DROP TABLE IF EXISTS " ++ table)
                   (values tableNames) [] None ;;
  let '(live1, results1, rejected1) := p1 in
  p2 <- drop_round (fun table => "DROP PIPE IF EXISTS " ++ pipe ++ "_" ++ table)
                   live1 results1 rejected1 ;;
  let '(live2, results2, rejected2) := p2 in
  p3 <- drop_round (fun table => "DROP TASK IF EXISTS " ++ task ++ "_" ++ table ++ "_task")
                   live2 results2 rejected2 ;;
  let '(_, results3, rejected3) := p3 in
  match rejected3 with
  | Some e => throw e
  | None =>
      w <- get ;;
      s <- drop_statement ("DROP STAGE IF EXISTS " ++ tpl (snowflake_stage (vars w))) ;;
      let results := (results3 ++ [s])%list in
      ret (JObj [("numTablesDropped", JNum (Z.of_nat (length results)));
                 ("tablesDropped", JArr (js_flat results))])
  end.

End Snowflake.

(** ** The S3 adapter *)

Module S3.

Inductive Call : Type :=
| ListObjectsV2 (bucket : option string)
| PutObject (bucket : option string) (key : string) (body : JSValue)
| GetObject (bucket : option string) (key : string)
| DeleteObjects (bucket : option string) (keys : list string)
| Touch (path : string) (contents : JSValue)
| Load (path : string)
| Rm (path : string).

(** A call resolves with a value or rejects with an error whose
    [message] is given. *)
Inductive Answer : Type :=
| Resolved (v : JSValue)
| Rejected (msg : string).

Definition Backend : Type := list Call -> Call -> Answer.

Record Env : Type := mkEnv {
  s3_bucket : option string;
  s3_region : option string;
  s3_access_key_id : option string;
  s3_secret_access_key : option string
}.

Record World : Type := mkWorld {
  process_env : Env;
  vars : Env;
  s3 : bool;                     (* a client has been constructed *)
  isClientReady : JSValue;       (* [undefined], [true] or a message *)
  canWriteToBucket : bool;
  trace : list Call
}.

Definition fresh_world (env : Env) : World :=
  mkWorld env (mkEnv None None None None) false JUndefined false [].

Definition set_vars (e : Env) (w : World) : World :=
  mkWorld (process_env w) e (s3 w) (isClientReady w) (canWriteToBucket w) (trace w).
Definition set_s3 (b : bool) (w : World) : World :=
  mkWorld (process_env w) (vars w) b (isClientReady w) (canWriteToBucket w) (trace w).
Definition set_isClientReady (v : JSValue) (w : World) : World :=
  mkWorld (process_env w) (vars w) (s3 w) v (canWriteToBucket w) (trace w).
Definition set_canWriteToBucket (b : bool) (w : World) : World :=
  mkWorld (process_env w) (vars w) (s3 w) (isClientReady w) b (trace w).
Definition add_call (c : Call) (w : World) : World :=
  mkWorld (process_env w) (vars w) (s3 w) (isClientReady w) (canWriteToBucket w)
          (trace w ++ [c])%list.

Definition M (A : Type) : Type := ST World A.

(** [a !== b] on the values a file load can give; two objects are
    never the same reference. *)
Definition strict_eq (a b : JSValue) : bool :=
  match a, b with
  | JUndefined, JUndefined | JNull, JNull => true
  | JBool x, JBool y => Bool.eqb x y
  | JNum x, JNum y => x =? y
  | JStr x, JStr y => String.eqb x y
  | _, _ => false
  end.

Section Adapter.
Context (rt : Runtime) (B : Backend).

Definition call (c : Call) : M JSValue :=
  fun w => match B (trace w) c with
           | Resolved v => (Ok v, add_call c w)
           | Rejected msg => (Throw (Error msg), add_call c w)
           end.

Definition verifyS3Credentials : M JSValue :=
  modify (set_s3 true) ;;;
  w <- get ;;
  try_catch
    (call (ListObjectsV2 (s3_bucket (vars w))) ;;; ret (JBool true))
    (fun error => ret (JStr (exn_message error))).

Definition verifyReadAndWritePermissions : M bool :=
  let dummyFileName := "dummy.txt" in
  let FILE_PATH := path_resolve rt (TEMP_DIR rt) dummyFileName in
  let FILE_PATH_DOWNLOAD := path_resolve rt (TEMP_DIR rt) "dummy-download.txt" in
  localFileWriteResult <- call (Touch FILE_PATH (JStr "hello!")) ;;
  if truthy localFileWriteResult then
    w <- get ;;
    ok <- try_catch
            (body <- call (Load FILE_PATH) ;;
             call (PutObject (s3_bucket (vars w)) dummyFileName body) ;;;
             (* the answer to the download is the body, read to a string *)
             bodyContents <- call (GetObject (s3_bucket (vars w)) dummyFileName) ;;
             call (Touch FILE_PATH_DOWNLOAD bodyContents) ;;;
             localFileContents <- call (Load FILE_PATH) ;;
             downloadedContents <- call (Load FILE_PATH_DOWNLOAD) ;;
             if strict_eq downloadedContents localFileContents then
               call (DeleteObjects (s3_bucket (vars w)) [dummyFileName]) ;;;
               call (Rm FILE_PATH) ;;;
               call (Rm FILE_PATH_DOWNLOAD) ;;;
               ret true
             else ret false)
            (fun _ => ret false) ;;
    ret ok
  else ret false.

Definition initializeS3 (tableNames : TableNames) : M (list JSValue) :=
  modify (fun w => set_vars (process_env w) w) ;;;
  w <- get ;;
  (if truthy (isClientReady w) then ret tt
   else
     verified <- verifyS3Credentials ;;
     modify (set_isClientReady verified) ;;;
     if truthy verified then ret tt
     else throw (Error "S3 credentials verification failed.")) ;;;
  w <- get ;;
  (if canWriteToBucket w then ret tt
   else
     writable <- verifyReadAndWritePermissions ;;
     modify (set_canWriteToBucket writable) ;;;
     if writable : bool then ret tt
     else throw (Error "Could not verify read/write bucket permissions.")) ;;;
  w <- get ;;
  ret [isClientReady w].

End Adapter.

End S3.

(** ** Creation statements and the backend's catalog

    The three forms a creation statement of the backend's SQL dialect can
    take, and what each does to a catalog that maps a resource name to
    its contents: [IF NOT EXISTS] leaves an existing resource alone,
    [OR REPLACE] drops it and creates an empty one, the plain form fails
    on an existing resource. *)

Inductive CreateForm : Type :=
| CreateIfNotExists
| CreateOrReplace
| CreatePlain.

Fixpoint strip_prefix (p s : string) : option string :=
  match p with
  | "" => Some s
  | String a p' =>
      match s with
      | String b s' => if Ascii.eqb a b then strip_prefix p' s' else None
      | "" => None
      end
  end.

(** What follows the first space. *)
Fixpoint after_space (s : string) : string :=
  match s with
  | "" => ""
  | String c r => if Ascii.eqb c " " then r else after_space r
  end.

(** The form of a statement, read off its text: [CREATE OR REPLACE
    <kind> ...], [CREATE <kind> IF NOT EXISTS ...] or [CREATE <kind>
    ...]; [None] for a statement that creates nothing. *)
Definition create_form (sql : string) : option CreateForm :=
  match strip_prefix "CREATE " (trimStart sql) with
  | None => None
  | Some rest =>
      match strip_prefix "OR REPLACE " rest with
      | Some _ => Some CreateOrReplace
      | None =>
          match strip_prefix "IF NOT EXISTS " (after_space rest) with
          | Some _ => Some CreateIfNotExists
          | None => Some CreatePlain
          end
      end
  end.

Definition call_creates (c : Call) : bool :=
  match c with
  | CallExecute sql _ => match create_form sql with Some _ => true | None => false end
  | _ => false
  end.

(** [None]: the statement fails. *)
Definition run_create (form : CreateForm) (resource : string)
           (catalog : gmap string (list string)) : option (gmap string (list string)) :=
  match form, catalog !! resource with
  | CreateIfNotExists, Some _ => Some catalog
  | CreatePlain, Some _ => None
  | CreateOrReplace, Some _ => Some (<[resource := []]> catalog)
  | _, None => Some (<[resource := []]> catalog)
  end.

(** Create-if-absent: on an existing resource the statement succeeds and
    changes nothing. *)
Definition create_if_absent (form : CreateForm) : Prop :=
  forall resource (catalog : gmap string (list string)),
    is_Some (catalog !! resource) ->
    run_create form resource catalog = Some catalog.

(** ** Reasoning about computations *)

(** [m] relates every state it is run in to the state it leaves. *)
Definition preserves {S A : Type} (R : S -> S -> Prop) (m : ST S A) : Prop :=
  forall w, R w (snd (m w)).

(** What a helper of the lifecycle manager may do to the adapter: it
    leaves the configuration, the readiness flags, the transport and the
    heap alone, never loses a connection, and adds calls satisfying [P]
    to the trace. *)
Definition steps (P : Call -> Prop) (w w' : World) : Prop :=
  process_env w' = process_env w
  /\ vars w' = vars w
  /\ flags w' = flags w
  /\ transport w' = transport w
  /\ heap w' = heap w
  /\ (connection w = true -> connection w' = true)
  /\ (snowpipeAPI w = true -> snowpipeAPI w' = true)
  /\ exists l, trace w' = (trace w ++ l)%list /\ Forall P l.

(** [m] leaves the observation [f] of the state unchanged. *)
Definition keeps {S X : Type} (f : S -> X) (w w' : S) : Prop := f w' = f w.

Definition b2n (b : bool) : nat := if b then 1%nat else 0%nat.

(** How many of the optional checks (stage, pipe, streaming client) a
    call of [initializeSnowflake] made in state [w] performs. *)
Definition optional_checks (w : World) : nat :=
  let env := process_env w in
  (b2n (is_set (snowflake_stage env) && negb (isStageReady (flags w)))
   + (if is_set (snowflake_pipe env)
      then b2n (negb (isPipeReady (flags w))) + b2n (negb (isSnowPipeReady (flags w)))
      else 0))%nat.

Definition all_ready (f : Flags) : bool :=
  isConnectionReady f && isDatasetReady f && areTablesReady f
  && isStageReady f && isPipeReady f && isSnowPipeReady f.

(** What the optional blocks of [initializeSnowflake] look at. *)
Definition optional_view (w : World) : Env * Env * bool * bool * bool :=
  (process_env w, vars w, isStageReady (flags w), isPipeReady (flags w),
   isSnowPipeReady (flags w)).

Definition pipe_view (w : World) : Env * bool * bool :=
  (vars w, isPipeReady (flags w), isSnowPipeReady (flags w)).

Definition snowpipe_view (w : World) : bool := isSnowPipeReady (flags w).

Definition any_call (c : Call) : Prop := True.
Definition creates_nothing (c : Call) : Prop := call_creates c = false.

(** The column projection as the spec words it: the source key is the
    lower-cased column name, the destination keeps the original casing. *)
Definition projection (source : string) (col : Column) : string :=
  source ++ ":" ++ toLowerCase (name col) ++ " AS " ++ name col.

Definition is_upper (c : ascii) : bool :=
  let n := nat_of_ascii c in Nat.leb 65 n && Nat.leb n 90.

Fixpoint no_upper (s : string) : bool :=
  match s with
  | "" => true
  | String c r => negb (is_upper c) && no_upper r
  end.

(** The local write and the upload to the stage go through. *)
Definition upload_succeeds (B : Backend) : Prop :=
  (forall t path contents, fs_writeFile B t path contents = None)
  /\ (forall t sql, String.prefix "PUT " sql = true ->
                    exists rows, be_execute B t sql None = Rows rows).

(** The heap after [batch.map(row => prepareComplexRows(row, schema))]. *)
Definition heap_after (rt : Runtime) (schema : Schema) (batch : Batch) (h : Heap) : Heap :=
  fold_left (fun h l => <[l := prepareComplexRows_body rt (deref h l) schema]> h) batch h.

(** The adapter has been initialised under the current configuration:
    the variables hold the environment and every check the configuration
    asks for has succeeded. *)
Definition initialised (w : World) : Prop :=
  vars w = process_env w
  /\ isConnectionReady (flags w) = true
  /\ isDatasetReady (flags w) = true
  /\ areTablesReady (flags w) = true
  /\ (is_set (snowflake_stage (process_env w)) = true -> isStageReady (flags w) = true)
  /\ (is_set (snowflake_pipe (process_env w)) = true ->
      isPipeReady (flags w) = true /\ isSnowPipeReady (flags w) = true).

Definition recognized (ty : string) : Prop :=
  ty = "track" \/ ty = "engage" \/ ty = "groups".

(** The table and the schema of a record kind. *)
Definition kind_table (ty : string) (t : TableNames) : string :=
  if String.eqb ty "track" then eventTable t
  else if String.eqb ty "engage" then userTable t
  else groupTable t.

Definition kind_schema (rt : Runtime) (ty : string) : Schema :=
  if String.eqb ty "track" then eventsSchema rt
  else if String.eqb ty "engage" then usersSchema rt
  else groupsSchema rt.

(** The bind payload of an empty batch. *)
Definition empty_payload (rt : Runtime) (hasVariant : bool) : JSValue :=
  if hasVariant then JArr [JStr (JSON_stringify rt (JArr []))] else JArr [].

Fixpoint no_dot (s : string) : bool :=
  match s with
  | "" => true
  | String c r => negb (Ascii.eqb c ".") && no_dot r
  end.

(** The backend reports every table it is asked about as present. *)
Definition tables_present (B : Backend) : Prop :=
  forall t sql, String.prefix "SHOW TABLES LIKE" sql = true ->
                exists x l, be_execute B t sql None = Rows (JArr (x :: l)).

Definition is_drop_stage (c : Call) : bool :=
  match c with
  | CallExecute sql _ => String.prefix "DROP STAGE" sql
  | _ => false
  end.

Definition not_drop_stage (c : Call) : Prop := is_drop_stage c = false.

(** The summary object [dropTables] builds from ten statuses. *)
Definition drop_summary (statuses : list JSValue) : JSValue :=
  JObj [("numTablesDropped", JNum (Z.of_nat (length statuses)));
        ("tablesDropped", JArr (js_flat statuses))].

(** The invariant of a returned [InsertResult]. *)
Definition counts_add_up (batch : Batch) (r : InsertResult) : Prop :=
  (status r = "success" \/ status r = "error")
  /\ insertedRows r + failedRows r = batch_length batch.

(** ** A sample runtime, for the worked examples *)

Definition dquote : string := String (ascii_of_nat 34) "".

Fixpoint sample_stringify (v : JSValue) : string :=
  match v with
  | JUndefined | JNull => "null"
  | JBool true => "true"
  | JBool false => "false"
  | JNum n => Z_toString n
  | JStr s => dquote ++ s ++ dquote
  | JArr l => "[" ++ join "," (map sample_stringify l) ++ "]"
  | JObj o =>
      "{" ++ join "," (map (fun kv => dquote ++ fst kv ++ dquote ++ ":"
                                        ++ sample_stringify (snd kv)) o) ++ "}"
  end.

(** A parser for the few texts the examples use. *)
Definition sample_parse (s : string) : option JSValue :=
  if String.eqb s "null" then Some JNull
  else if String.eqb s "{}" then Some (JObj [])
  else if String.eqb s "[]" then Some (JArr [])
  else if String.eqb s "[1]" then Some (JArr [JNum 1])
  else None.

Definition sample_isJSONStr (s : string) : bool :=
  match sample_parse s with
  | Some (JObj _) | Some (JArr _) => true
  | _ => false
  end.

Fixpoint sample_basename_from (s acc : string) : string :=
  match s with
  | "" => acc
  | String c r =>
      if Ascii.eqb c "/" then sample_basename_from r ""
      else sample_basename_from r (acc ++ String c "")
  end.

Definition sample_events : Schema :=
  [mkColumn "EVENT" "VARCHAR"; mkColumn "Properties" "VARIANT"].
Definition sample_users : Schema :=
  [mkColumn "DISTINCT_ID" "VARCHAR"; mkColumn "properties" "VARIANT"].
Definition sample_groups : Schema :=
  [mkColumn "Group_Id" "VARCHAR"; mkColumn "NAME" "VARCHAR"].

(** A string of decimal digits that are not all zero. *)
Fixpoint sample_digits (s : string) (seen : bool) : bool :=
  match s with
  | "" => seen
  | String c r =>
      let n := nat_of_ascii c in
      Nat.leb 48 n && Nat.leb n 57 && sample_digits r (seen || negb (Nat.eqb n 48))
  end.
Definition sample_gt0 (s : string) : bool := sample_digits s false.

Definition sample_rt : Runtime :=
  mkRuntime sample_parse sample_stringify sample_isJSONStr
            (fun dir file => dir ++ "/" ++ file)
            (fun p => sample_basename_from p "")
            "/tmp" "2024-05-01"
            sample_events sample_users sample_groups
            (fun h batch _ => (batch, h))
            5
            upper_latin1
            sample_gt0.

Definition sample_tables : TableNames :=
  mkTableNames "events" "users" "groups" EventUserGroup.

(** A backend on which every resource already exists: the probe insert
    is refused for its unknown column, every other statement succeeds,
    and an insert reports [count] rows. *)
Definition unknown_column : SfError :=
  mkSfError (JStr "000904") "OperationFailedError"
            "SQL compilation error: invalid identifier 'DUMMY_COLUMN'"
            (Some (mkSfData (JStr "000904") (JStr "42000") (JStr "COMPILATION"))).

Definition sample_rows (count : Z) (sql : string) : JSValue :=
  if String.prefix "SELECT COUNT(*)" sql then JArr [JObj [("COUNT", JNum 1)]]
  else if String.prefix "SHOW SCHEMAS" sql then JArr [JObj [("name", JStr "MY_SCHEMA")]]
  else if String.prefix "SHOW " sql then JArr [JObj [("name", JStr "FOUND")]]
  else if String.prefix "INSERT INTO" (trimStart sql)
       then JArr [JObj [("number of rows inserted", JNum count)]]
  else JArr [JObj [("status", JStr "Statement executed successfully.")]].

Definition sample_backend (count : Z) : Backend :=
  mkBackend (fun _ _ => true) (fun _ => true)
            (fun _ sql _ =>
               if String.prefix "INSERT INTO" sql && includes "dummy_column" sql
               then Failed unknown_column
               else Rows (sample_rows count sql))
            (fun _ _ => true) (fun _ _ _ => None)
            (fun _ _ _ => None) (fun _ _ => None)
            (fun _ _ => "k3v9x2m7q1w8e5r4t6").

Definition sample_env (stage pipe : option string) : Env :=
  mkEnv (Some "acct") (Some "svc") (Some "secret") (Some "my_database")
        (Some "my_schema") (Some "MY_WH") (Some "MY_ROLE") None
        stage pipe (Some "key") None None None None.

(** A ready adapter on the insert transport holding three group
    records, one of them with a JSON text and a blank field. *)
Definition sample_ready_world : World :=
  mkWorld (sample_env None None) (sample_env None None) true false
          (mkFlags true true true false false false) "insert"
          [[("Group_Id", JStr "g1"); ("NAME", JStr "first")];
           [("Group_Id", JStr "g2"); ("NAME", JStr "[1]")];
           [("Group_Id", JStr "g3"); ("NAME", JStr "  ")]]
          [].

(** A backend that refuses every statement. *)
Definition access_denied : SfError :=
  mkSfError (JStr "003001") "OperationFailedError"
            "SQL access control error: insufficient privileges" None.

Definition refusing_backend : Backend :=
  mkBackend (fun _ _ => true) (fun _ => true)
            (fun _ _ _ => Failed access_denied)
            (fun _ _ => true) (fun _ _ _ => None)
            (fun _ _ _ => None) (fun _ _ => None)
            (fun _ _ => "k3v9x2m7q1w8e5r4t6").

(** A backend that refuses one statement and accepts the others. *)
Definition picky_backend (refused : string) : Backend :=
  mkBackend (fun _ _ => true) (fun _ => true)
            (fun _ sql _ =>
               if String.eqb sql refused then Failed access_denied
               else Rows (sample_rows 0 sql))
            (fun _ _ => true) (fun _ _ _ => None)
            (fun _ _ _ => None) (fun _ _ => None)
            (fun _ _ => "k3v9x2m7q1w8e5r4t6").

(** An S3 account whose credentials cannot list the bucket but can
    write, read and delete objects in it. *)
Definition s3_no_list : S3.Backend :=
  fun _ c =>
    match c with
    | S3.ListObjectsV2 _ => S3.Rejected "Access Denied"
    | S3.Load _ | S3.GetObject _ _ => S3.Resolved (JStr "hello!")
    | _ => S3.Resolved (JBool true)
    end.

Definition s3_env : S3.Env :=
  S3.mkEnv (Some "my_bucket") (Some "us-east-2") (Some "foo") (Some "bar").

(** ** Further observations of the adapter state *)

(** The seven credentials a connection needs, each under the name of
    its variable, in the order in which they are checked; and the first
    of them that is undefined or empty. *)
Definition required_credentials (v : Env) : list (string * option string) :=
  [("snowflake_account", snowflake_account v);
   ("snowflake_user", snowflake_user v);
   ("snowflake_password", snowflake_password v);
   ("snowflake_database", snowflake_database v);
   ("snowflake_schema", snowflake_schema v);
   ("snowflake_warehouse", snowflake_warehouse v);
   ("snowflake_role", snowflake_role v)].

Definition first_missing (v : Env) : option string :=
  match find (fun p => negb (is_set (snd p))) (required_credentials v) with
  | Some p => Some (fst p)
  | None => None
  end.

(** The transport a configuration selects. *)
Definition configured_transport (env : Env) : string :=
  if is_set (snowflake_pipe env) then "pipe"
  else if is_set (snowflake_stage env) then "copy"
  else "insert".

(** Everything of the state but the trace, the handles and one flag. *)
Definition but_connection (w : World) :=
  (process_env w, vars w, transport w, heap w, isDatasetReady (flags w),
   areTablesReady (flags w), isStageReady (flags w), isPipeReady (flags w),
   isSnowPipeReady (flags w)).
Definition but_dataset (w : World) :=
  (process_env w, vars w, transport w, heap w, isConnectionReady (flags w),
   areTablesReady (flags w), isStageReady (flags w), isPipeReady (flags w),
   isSnowPipeReady (flags w)).
Definition but_tables (w : World) :=
  (process_env w, vars w, heap w, isConnectionReady (flags w),
   isDatasetReady (flags w), isStageReady (flags w), isPipeReady (flags w),
   isSnowPipeReady (flags w)).
Definition but_stage (w : World) :=
  (process_env w, vars w, heap w, isConnectionReady (flags w),
   isDatasetReady (flags w), areTablesReady (flags w), isPipeReady (flags w),
   isSnowPipeReady (flags w)).
Definition but_pipe (w : World) :=
  (process_env w, vars w, heap w, isConnectionReady (flags w),
   isDatasetReady (flags w), areTablesReady (flags w), isStageReady (flags w),
   isSnowPipeReady (flags w)).
Definition but_snowpipe (w : World) :=
  (process_env w, vars w, transport w, heap w, isConnectionReady (flags w),
   isDatasetReady (flags w), areTablesReady (flags w), isStageReady (flags w),
   isPipeReady (flags w)).

(** The transport stays off the unfinished [task] strategy. *)
Definition off_task (w w' : World) : Prop :=
  transport w <> "task" -> transport w' <> "task".

(** The state after a sequence of outside calls. *)
Definition add_calls (l : list Call) (w : World) : World :=
  fold_left (fun w c => add_call c w) l w.

(** The statements of the table probe. *)
Definition show_tables (tableName : string) : Call :=
  CallExecute ("SHOW TABLES LIKE '" ++ tableName ++ "'") None.
Definition probe_insert (tableName : string) : Call :=
  CallExecute ("INSERT INTO " ++ tableName ++ " (dummy_column) VALUES ('dummy_value')")
              None.

(** The reply [insertDummyRecord] takes for "the table can be written":
    the compilation error for the unknown column, and nothing else. *)
Definition probe_accepts (r : Reply) : bool :=
  match r with
  | Rows _ => false
  | Failed err =>
      match data err with
      | None => false
      | Some d =>
          match code err, errorCode d, sqlState d, sf_type d with
          | JStr c, JStr ec, JStr st, JStr ty =>
              String.eqb c "000904" && String.eqb ec "000904"
              && String.eqb st "42000" && String.eqb ty "COMPILATION"
          | _, _, _, _ => false
          end
      end
  end.

(** A backend on which no table ever shows up. *)
Definition empty_backend : Backend :=
  mkBackend (fun _ _ => true) (fun _ => true)
            (fun _ _ _ => Rows (JArr []))
            (fun _ _ => true) (fun _ _ _ => None)
            (fun _ _ _ => None) (fun _ _ => None)
            (fun _ _ => "k3v9x2m7q1w8e5r4t6").

(** The temporary file of an upload started in state [w], the stage it
    goes to and the statement that sends it. *)
Definition temp_file (rt : Runtime) (B : Backend) (table : string) (w : World) : string :=
  path_resolve rt (TEMP_DIR rt)
               (table ++ "_" ++ TODAY rt ++ "_" ++ rand_uid B (trace w) 18 ++ ".json").
Definition stage_of (w : World) : string := "@" ++ tpl (snowflake_stage (vars w)).
Definition putCommand (file stageName : string) : string :=
  "PUT file://" ++ file ++ " " ++ stageName.

(** The calls every file transport starts with. *)
Definition upload_calls (rt : Runtime) (B : Backend) (batch : Batch) (table : string)
           (w : World) : list Call :=
  [CallUid 18;
   CallWriteFile (temp_file rt B table w) (ndjson rt (heap w) batch);
   CallExecute (putCommand (temp_file rt B table w) (stage_of w)) None].

(** The [COPY INTO] statement of [copyIntoData] for that file. *)
Definition copy_of (rt : Runtime) (B : Backend) (table : string) (schema : Schema)
           (w : World) : string :=
  copyCommand table (join ", " (map column_mapping schema)) (stage_of w)
              (path_basename rt (temp_file rt B table w)).

(** Calls that only move a file: no statement but a [PUT], no new
    connection or client. *)
Definition only_uploads (c : Call) : Prop :=
  match c with
  | CallExecute sql _ => String.prefix "PUT file://" sql = true
  | CallConnect _ | CallIsValid | CallCreateSnowpipeAPI _ => False
  | CallInsertFile _ _ | CallWriteFile _ _ | CallUnlink _ | CallUid _ => True
  end.

(** A backend whose file system cannot delete. *)
Definition stuck_file_backend : Backend :=
  mkBackend (fun _ _ => true) (fun _ => true)
            (fun _ sql _ => Rows (sample_rows 0 sql))
            (fun _ _ => true) (fun _ _ _ => None)
            (fun _ _ _ => None) (fun _ _ => Some "EPERM: operation not permitted")
            (fun _ _ => "k3v9x2m7q1w8e5r4t6").

(** A world on the copy transport. *)
Definition sample_copy_world : World :=
  set_transport "copy"
    (set_vars (sample_env (Some "my_stage") None) sample_ready_world).

(** Calls that replace nothing. *)
Definition replaces_nothing (c : Call) : Prop :=
  match c with
  | CallExecute sql _ => String.prefix "CREATE OR REPLACE" sql = false
  | _ => True
  end.

(** The statements of [dropTables]. *)
Definition drop_call (c : Call) : Prop :=
  match c with
  | CallExecute sql _ =>
      exists kind target,
        In kind ["TABLE"; "PIPE"; "TASK"; "STAGE"]
        /\ sql = "DROP " ++ kind ++ " IF EXISTS " ++ target
  | _ => False
  end.

(** The schema that belongs to a key of [tableNames]. *)
Definition key_schema (rt : Runtime) (k : TableKey) : Schema :=
  match k with
  | EventKey => eventsSchema rt
  | UserKey => usersSchema rt
  | GroupKey => groupsSchema rt
  end.

(** The two statements expected for a table without a pipe: the lookup
    of the pipe, then its creation with one projection of the staged
    document per column. *)
Definition pipe_calls (pipe stage table : string) (schema : Schema) : list Call :=
  [CallExecute ("SHOW PIPES LIKE '" ++ pipe ++ "_" ++ table ++ "'") None;
   CallExecute
     (nl ++ tabs 4 ++ "CREATE OR REPLACE PIPE " ++ pipe ++ "_" ++ table
         ++ " AUTO_INGEST = FALSE AS"
         ++ nl ++ tabs 4 ++ "COPY INTO " ++ table
         ++ nl ++ tabs 4 ++ "FROM ("
         ++ nl ++ tabs 5 ++ "SELECT " ++ join ", " (map (projection "$1") schema)
         ++ nl ++ tabs 5 ++ "FROM @" ++ stage
         ++ nl ++ tabs 4 ++ ")"
         ++ nl ++ tabs 4 ++ "FILE_FORMAT = (TYPE = 'JSON')"
         ++ nl ++ tabs 4 ++ "ON_ERROR = 'CONTINUE';"
         ++ nl ++ tabs 3)
     None].

(** ** The S3 adapter: writing and deleting *)

(** [s.endsWith("/")] and [s.slice(0, -1)]. *)
Fixpoint endsWith_slash (s : string) : bool :=
  match s with
  | "" => false
  | String c "" => Ascii.eqb c "/"
  | String _ r => endsWith_slash r
  end.

Fixpoint slice_last (s : string) : string :=
  match s with
  | "" => ""
  | String _ "" => ""
  | String c r => String c (slice_last r)
  end.

Module S3Data.

Section Adapter.
Context (rt : Runtime) (B : S3.Backend).
(** [uid(n)] of ak-tools, a random string; it may depend on everything
    that happened before. *)
Context (uid : list S3.Call -> nat -> string).

(** [s3.send(command)] on the module-level client. *)
Definition send (c : S3.Call) : S3.M JSValue :=
  w <- get ;;
  if S3.s3 w then S3.call B c
  else throw (TypeError "Cannot read properties of undefined (reading 'send')").

(** The object key of an upload made in state [w]. *)
Definition fileName (pre : string) (w : S3.World) : string :=
  pre ++ "/" ++ TODAY rt ++ "_" ++ uid (S3.trace w) 42 ++ ".json.gz".

Definition dataToUpload (batch : list Row) : string :=
  join nl (map (fun record => JSON_stringify rt (JObj record)) batch).

(** The upload [insertData] sends; the body is the joined text itself
    (the request also carries [ContentEncoding: 'gzip']). *)
Definition insertData (batch : list Row) (pre : string) : S3.M InsertResult :=
  if String.eqb pre "" then throw (Error "Prefix name not provided.")
  else
    let pre := if endsWith_slash pre then slice_last pre else pre in
    w <- get ;;
    send (S3.PutObject (S3.s3_bucket (S3.vars w)) (fileName pre w)
                       (JStr (dataToUpload batch))) ;;;
    ret (mkInsertResult "success" (Some "s3") (Z.of_nat (length batch)) 0
                        None None None).

Definition main (data : list Row) (ty : string) (tableNames : TableNames)
  : S3.M InsertResult :=
  S3.initializeS3 rt B tableNames ;;;
  targetPrefix <-
    (if String.eqb ty "track" then ret (eventTable tableNames)
     else if String.eqb ty "engage" then ret (userTable tableNames)
     else if String.eqb ty "groups" then ret (groupTable tableNames)
     else throw (Error "Invalid Record Type")) ;;
  insertData data targetPrefix.

(** [Contents.filter(f => tables.some(t => f.Key.includes(t)))], then
    [.map(f => ({ Key: f.Key }))]: the keys to delete, or [None] when an
    entry has no string under [Key] (TypeError). *)
Fixpoint filesToDelete (tables : list string) (contents : list JSValue)
  : option (list string) :=
  match contents with
  | [] => Some []
  | f :: rest =>
      match f with
      | JUndefined | JNull => None
      | _ =>
          match js_prop "Key" f with
          | JStr key =>
              match filesToDelete tables rest with
              | Some keys =>
                  Some (if existsb (fun t => includes t key) tables
                        then key :: keys else keys)
              | None => None
              end
          | _ => None
          end
      end
  end.

Definition deleteAllFiles (tableNames : TableNames) : S3.M unit :=
  let tables := [eventTable tableNames; userTable tableNames; groupTable tableNames] in
  w <- get ;;
  listObjectsResponse <- send (S3.ListObjectsV2 (S3.s3_bucket (S3.vars w))) ;;
  match listObjectsResponse with
  | JUndefined | JNull =>
      throw (TypeError "Cannot read properties of undefined (reading 'Contents')")
  | _ =>
      match js_prop "Contents" listObjectsResponse with
      | JArr contents =>
          match filesToDelete tables contents with
          | Some keys =>
              send (S3.DeleteObjects (S3.s3_bucket (S3.vars w)) keys) ;;; ret tt
          | None =>
              throw (TypeError "Cannot read properties of undefined (reading 'includes')")
          end
      | _ => throw (TypeError "Cannot read properties of undefined (reading 'filter')")
      end
  end.

End Adapter.

End S3Data.

(** The ten calls of a write check that goes through. *)
Definition write_check_calls (rt : Runtime) (bucket : option string)
           (body contents : JSValue) : list S3.Call :=
  let file := path_resolve rt (TEMP_DIR rt) "dummy.txt" in
  let download := path_resolve rt (TEMP_DIR rt) "dummy-download.txt" in
  [S3.Touch file (JStr "hello!"); S3.Load file;
   S3.PutObject bucket "dummy.txt" body; S3.GetObject bucket "dummy.txt";
   S3.Touch download contents; S3.Load file; S3.Load download;
   S3.DeleteObjects bucket ["dummy.txt"]; S3.Rm file; S3.Rm download].

(** An S3 account on which everything works; the bucket lists three
    objects. *)
Definition s3_listing : JSValue :=
  JObj [("IsTruncated", JBool false);
        ("Contents",
         JArr [JObj [("Key", JStr "events/2024-01-01_a.json.gz");
                     ("LastModified", JStr "2024-01-01T00:00:00.000Z");
                     ("Size", JNum 1024);
                     ("StorageClass", JStr "STANDARD")];
               JObj [("Key", JStr "other/readme.txt"); ("Size", JNum 12)];
               JObj [("Size", JNum 2048);
                     ("Key", JStr "users/2024-01-01_b.json.gz")]]);
        ("Name", JStr "my_bucket");
        ("KeyCount", JNum 3)].

Definition s3_ok : S3.Backend :=
  fun _ c =>
    match c with
    | S3.ListObjectsV2 _ => S3.Resolved s3_listing
    | S3.Load _ | S3.GetObject _ _ => S3.Resolved (JStr "hello!")
    | _ => S3.Resolved (JBool true)
    end.

Definition s3_uid (t : list S3.Call) (n : nat) : string := "k3v9x2m7q1w8e5r4t6".

(** An S3 adapter that has been initialised. *)
Definition s3_ready_world : S3.World :=
  S3.mkWorld s3_env s3_env true (JBool true) true [].

(** ** The logger *)

Module Logger.

(** What is passed after the message: an [Error] instance (with its
    [message], [stack] and [name], empty when missing) or a value. *)
Inductive Item : Type :=
| ErrorItem (message stack name : string)
| DataItem (v : JSValue).

Definition is_error (i : Item) : bool :=
  match i with ErrorItem _ _ _ => true | DataItem _ => false end.

(** An entry of the buffer: [[message]] or [[message, props]]. *)
Definition Entry : Type := (string * option (list (string * JSValue)))%type.

(** What reaches the console or the structured logger. *)
Inductive Out : Type :=
| ConsoleLog (message : string) (data : option (list (string * JSValue)))
| SLog (message : string) (data : list (string * JSValue)) (severity : string)
| ConsoleError (e : Exn).

Record State : Type := mkState {
  logBuffer : list Entry;
  verbose : bool;
  cli_mode : bool;
  logging : bool;
  printed : list Out          (* oldest first *)
}.

Definition initial : State := mkState [] false false true [].

Definition LOG_MAX_SIZE : nat := 1000.

Definition set_logBuffer (b : list Entry) (s : State) : State :=
  mkState b (verbose s) (cli_mode s) (logging s) (printed s).
Definition add_out (o : Out) (s : State) : State :=
  mkState (logBuffer s) (verbose s) (cli_mode s) (logging s) (printed s ++ [o])%list.

Definition setVerbose (value : bool) (s : State) : State :=
  mkState (logBuffer s) value (cli_mode s) (logging s) (printed s).
Definition setCliMode (value : bool) (s : State) : State :=
  mkState (logBuffer s) value value (logging s) (printed s).
Definition setLogging (value : bool) (s : State) : State :=
  mkState (logBuffer s) (verbose s) (cli_mode s) value (printed s).

Fixpoint indexed (l : list JSValue) (i : nat) : list (string * JSValue) :=
  match l with
  | [] => []
  | x :: r => (Z_toString (Z.of_nat i), x) :: indexed r (S i)
  end.

Fixpoint chars (s : string) : list JSValue :=
  match s with
  | "" => []
  | String c r => JStr (String c "") :: chars r
  end.

(** [Object.assign(props, item)]: the own enumerable properties of
    [item] are copied in order; a string or an array contributes its
    indices, any other primitive nothing. *)
Definition assign (props : list (string * JSValue)) (item : JSValue)
  : list (string * JSValue) :=
  let own := match item with
             | JObj o => o
             | JArr l => indexed l 0
             | JStr s => indexed (chars s) 0
             | _ => []
             end in
  fold_left (fun p kv => obj_set (fst kv) (snd kv) p) own props.

(** One round of the loop over [data]. *)
Definition absorb (props : list (string * JSValue)) (item : Item)
  : list (string * JSValue) :=
  match item with
  | ErrorItem message stack name =>
      obj_set "error" (JObj [("message", JStr message); ("stack", JStr stack);
                             ("name", JStr name)]) props
  | DataItem v => assign props v
  end.

Section Log.
(** [console.log] and ak-tools' [sLog]: [Some e] when the call throws. *)
Context (sink : Out -> option Exn).

Definition emit (o : Out) : ST State unit :=
  match sink o with
  | None => modify (add_out o)
  | Some e => throw e
  end.

Definition print (message : string) (data : option (list (string * JSValue)))
           (severity : string) : ST State unit :=
  s <- get ;;
  if verbose s then
    (if cli_mode s then emit (ConsoleLog message data) else ret tt) ;;;
    (if negb (cli_mode s)
     then emit (SLog message (match data with Some d => d | None => [] end) severity)
     else ret tt)
  else ret tt.

Definition log (message : string) (data : list Item) : ST State unit :=
  s <- get ;;
  if negb (logging s) then ret tt
  else
    let message := if cli_mode s then message else trim message in
    let props := fold_left absorb data [] in
    try_catch
      ((match data with
        | _ :: _ =>
            if existsb is_error data then print message (Some props) "ERROR"
            else print message (Some props) "DEBUG"
        | [] => print message None "INFO"
        end) ;;;
       (if negb (String.eqb message "") then
          modify (fun s =>
                    set_logBuffer
                      (logBuffer s ++ [(message, match data with
                                                 | _ :: _ => Some props
                                                 | [] => None
                                                 end)])%list s)
        else ret tt) ;;;
       modify (fun s =>
                 if Nat.ltb LOG_MAX_SIZE (length (logBuffer s))
                 then set_logBuffer
                        (drop (Nat.div (length (logBuffer s)) 2) (logBuffer s)) s
                 else s))
      (fun e => modify (add_out (ConsoleError e))).

End Log.

End Logger.

(** Sinks that never throw. *)
Definition quiet_sink (o : Logger.Out) : option Exn := None.

(** A full buffer. *)
Definition full_log : Logger.State :=
  Logger.mkState (repeat ("ready", None) 1000) false false true [].

(** The entry [log] stores for a call made in state [s], and the buffer
    it leaves when nothing goes wrong while printing. *)
Definition log_entry (s : Logger.State) (message : string) (data : list Logger.Item)
  : string * option (list (string * JSValue)) :=
  (if Logger.cli_mode s then message else trim message,
   match data with
   | [] => None
   | _ :: _ => Some (fold_left Logger.absorb data [])
   end).

Definition buffered (s : Logger.State) (message : string) (data : list Logger.Item)
  : list Logger.Entry :=
  if Logger.logging s then
    let b := if String.eqb (fst (log_entry s message data)) "" then Logger.logBuffer s
             else (Logger.logBuffer s ++ [log_entry s message data])%list in
    if Nat.ltb 1000 (length b) then drop (Nat.div (length b) 2) b else b
  else Logger.logBuffer s.

(** A structured logger that rejects everything. *)
Definition broken_sink (o : Logger.Out) : option Exn :=
  match o with
  | Logger.SLog _ _ _ => Some (TypeError "Converting circular structure to JSON")
  | _ => None
  end.

(** [row] is the array of the values [formatBindValue] gives for the
    columns of [schema], in order, on [record]. *)
Definition bound_row (rt : Runtime) (schema : Schema) (record : Row) (row : JSValue)
  : Prop :=
  exists vals,
    row = JArr vals
    /\ Forall2 (fun f v => formatBindValue rt (obj_get (name f) record) (type f) = Some v)
               schema vals.

(** What the existence check of [verifyOrCreateDatabase] can report
    under [COUNT]: a number, or a text the runtime converts. *)
Definition count_positive (rt : Runtime) (v : JSValue) : Prop :=
  (exists n, v = JNum n /\ 0 < n)
  \/ (exists s, v = JStr s /\ toNumber_gt0 rt s = true).

Definition count_not_positive (rt : Runtime) (v : JSValue) : Prop :=
  (exists n, v = JNum n /\ n <= 0)
  \/ (exists s, v = JStr s /\ toNumber_gt0 rt s = false)
  \/ v = JUndefined \/ v = JNull.

(** What [executeSQL] rejects with when the backend refuses a
    statement. *)
Definition rejection (err : SfError) : Exn :=
  if is_table_locked err then Error "TableLockedError" else DriverError err.

(** The first refusal among the calls [calls], made one after the other
    from the trace [t]: the error the first refused statement is
    rejected with, [None] when the backend accepts them all. *)
Fixpoint first_refusal (B : Backend) (t : list Call) (calls : list Call) : option Exn :=
  match calls with
  | [] => None
  | c :: rest =>
      match c with
      | CallExecute sql binds =>
          match be_execute B t sql binds with
          | Failed err => Some (rejection err)
          | Rows _ => first_refusal B (t ++ [c]) rest
          end
      | _ => first_refusal B (t ++ [c]) rest
      end
  end.

(** ** Properties of objects and strings *)

Lemma obj_get_set_eq (k : string) (v : JSValue) (o : Row) :
  obj_get k (obj_set k v o) = v.
Proof.
  induction o as [|[k' v'] r IH]; simpl.
  - now rewrite String.eqb_refl.
  - destruct (String.eqb k k') eqn:E; simpl; rewrite E; auto.
Qed.

Lemma obj_get_set_ne (k k' : string) (v : JSValue) (o : Row) :
  k <> k' -> obj_get k (obj_set k' v o) = obj_get k o.
Proof.
  intros Hne. induction o as [|[k0 v0] r IH]; simpl.
  - apply String.eqb_neq in Hne. now rewrite Hne.
  - destruct (String.eqb k' k0) eqn:E; simpl.
    + apply String.eqb_eq in E. subst k0.
      apply String.eqb_neq in Hne. now rewrite Hne.
    + destruct (String.eqb k k0); auto.
Qed.

Lemma obj_get_present (k : string) (o : Row) :
  obj_get k o <> JUndefined -> In k (obj_keys o).
Proof.
  unfold obj_keys. induction o as [|[k0 v0] r IH]; simpl; [congruence|].
  destruct (String.eqb k k0) eqn:E; intros H.
  - left. symmetry. now apply String.eqb_eq.
  - right. auto.
Qed.

(** ** Value normalization *)

Lemma nullify_key_keeps_null (row : Row) (key k : string) :
  obj_get k row = JNull -> obj_get k (nullify_key row key) = JNull.
Proof.
  intros H. unfold nullify_key.
  destruct (null_like (obj_get key row)); [|exact H].
  destruct (String.eqb_spec k key) as [->|Hne].
  - apply obj_get_set_eq.
  - now rewrite obj_get_set_ne.
Qed.

Lemma nullify_fold_keeps_null (keys : list string) :
  forall (row : Row) (k : string),
    obj_get k row = JNull -> obj_get k (fold_left nullify_key keys row) = JNull.
Proof.
  induction keys as [|key keys IH]; simpl; intros row k H; [exact H|].
  apply IH. now apply nullify_key_keeps_null.
Qed.

Lemma nullify_fold_hits (keys : list string) :
  forall (row : Row) (k : string),
    In k keys -> null_like (obj_get k row) = true ->
    obj_get k (fold_left nullify_key keys row) = JNull.
Proof.
  induction keys as [|key keys IH]; simpl; intros row k Hin Hnull; [tauto|].
  destruct (String.eqb_spec k key) as [->|Hne].
  - apply nullify_fold_keeps_null. unfold nullify_key. rewrite Hnull.
    apply obj_get_set_eq.
  - destruct Hin as [->|Hin]; [congruence|].
    apply IH; [exact Hin|].
    unfold nullify_key. destruct (null_like (obj_get key row)); [|exact Hnull].
    now rewrite obj_get_set_ne.
Qed.

Section Normalization.
Context (rt : Runtime).
Hypothesis parse_null : JSON_parse rt "null" = Some JNull.

Lemma repair_variant_keeps (row : Row) (col : Column) (k : string) :
  null_text_or_null (obj_get k row) ->
  null_text_or_null (obj_get k (repair_variant rt row col)).
Proof.
  intros H. unfold repair_variant.
  destruct (String.eqb_spec k (name col)) as [->|Hne].
  - destruct H as [H|H]; rewrite H; simpl; [|now right].
    rewrite parse_null. right. apply obj_get_set_eq.
  - destruct (truthy (obj_get (name col) row)); [|exact H].
    destruct (obj_get (name col) row); try exact H.
    destruct (JSON_parse rt s); [|exact H].
    now rewrite obj_get_set_ne.
Qed.

Lemma repair_fold_keeps (cols : list Column) :
  forall (row : Row) (k : string),
    null_text_or_null (obj_get k row) ->
    null_text_or_null (obj_get k (fold_left (repair_variant rt) cols row)).
Proof.
  induction cols as [|col cols IH]; simpl; intros row k H; [exact H|].
  apply IH. now apply repair_variant_keeps.
Qed.

End Normalization.

(** ** Laws of the monad *)

Section PreservesLaws.
Context {S : Type} (R : S -> S -> Prop) `{!PreOrder R}.

Lemma preserves_ret {A} (a : A) : preserves R (ret a).
Proof. intros w. reflexivity. Qed.

Lemma preserves_throw {A} (e : Exn) : preserves R (throw (A := A) e).
Proof. intros w. reflexivity. Qed.

Lemma preserves_get : preserves R get.
Proof. intros w. reflexivity. Qed.

Lemma preserves_modify (f : S -> S) :
  (forall w, R w (f w)) -> preserves R (modify f).
Proof. intros H w. apply H. Qed.

Lemma preserves_bind {A C} (m : ST S A) (k : A -> ST S C) :
  preserves R m -> (forall a, preserves R (k a)) -> preserves R (bind m k).
Proof.
  intros Hm Hk w. unfold bind. specialize (Hm w).
  destruct (m w) as [[a|e] w']; simpl in *; [|exact Hm].
  transitivity w'; [exact Hm | apply Hk].
Qed.

Lemma preserves_try_catch {A} (m : ST S A) (handler : Exn -> ST S A) :
  preserves R m -> (forall e, preserves R (handler e)) ->
  preserves R (try_catch m handler).
Proof.
  intros Hm Hh w. unfold try_catch. specialize (Hm w).
  destruct (m w) as [[a|e] w']; simpl in *; [exact Hm|].
  transitivity w'; [exact Hm | apply Hh].
Qed.

Lemma preserves_try_finally {A} (m : ST S A) (cleanup : ST S unit) :
  preserves R m -> preserves R cleanup -> preserves R (try_finally m cleanup).
Proof.
  intros Hm Hc w. unfold try_finally. specialize (Hm w).
  destruct (m w) as [r w']. specialize (Hc w').
  destruct (cleanup w') as [[u|e] w'']; simpl in *;
    (transitivity w'; [exact Hm | exact Hc]).
Qed.
End PreservesLaws.

#[local] Instance keeps_preorder {S X : Type} (f : S -> X) : PreOrder (keeps f).
Proof.
  split.
  - intros w. reflexivity.
  - intros w1 w2 w3 H1 H2. unfold keeps in *. congruence.
Qed.

Lemma preserves_weaken {S A : Type} (R R' : S -> S -> Prop) (m : ST S A) :
  (forall w w', R w w' -> R' w w') -> preserves R m -> preserves R' m.
Proof. intros HR Hm w. apply HR, Hm. Qed.

#[local] Instance steps_preorder (P : Call -> Prop) : PreOrder (steps P).
Proof.
  split.
  - intros w. unfold steps. repeat split; auto.
    exists []. split; [now rewrite app_nil_r | constructor].
  - intros w1 w2 w3 (E1 & V1 & F1 & T1 & H1 & C1 & S1 & l1 & L1 & P1)
                    (E2 & V2 & F2 & T2 & H2 & C2 & S2 & l2 & L2 & P2).
    unfold steps. repeat split; try congruence; auto.
    exists (l1 ++ l2)%list. split.
    + rewrite L2, L1. now rewrite app_assoc.
    + apply Forall_app. auto.
Qed.

Lemma steps_mono (P Q : Call -> Prop) (w w' : World) :
  (forall c, P c -> Q c) -> steps P w w' -> steps Q w w'.
Proof.
  intros HPQ (E & V & F & T & H & C & S & l & L & HP).
  unfold steps. repeat split; auto.
  exists l. split; [exact L|]. eapply Forall_impl; eauto.
Qed.

Lemma steps_add_call (P : Call -> Prop) (c : Call) (w : World) :
  P c -> steps P w (add_call c w).
Proof.
  intros HP. unfold steps. simpl. repeat split; auto.
  exists [c]. split; [reflexivity | now constructor].
Qed.

(** ** What the lifecycle helpers leave alone *)

Ltac pret := apply preserves_ret; apply _.
Ltac pthrow := apply preserves_throw; apply _.
Ltac pget := apply preserves_get; apply _.

Ltac preserves_step :=
  match goal with
  | |- preserves _ (bind _ _) => apply preserves_bind; [apply _ | | intros ?]
  | |- preserves _ (ret _) => pret
  | |- preserves _ (throw _) => pthrow
  | |- preserves _ get => pget
  | |- preserves _ (try_catch _ _) => apply preserves_try_catch; [apply _ | | intros ?]
  | |- preserves _ (try_finally _ _) => apply preserves_try_finally; [apply _ | | ]
  | |- preserves _ (if ?b then _ else _) => destruct b
  | |- preserves _ (match ?x with _ => _ end) => destruct x
  end.

Section LifecycleFrames.
Context (rt : Runtime) (B : Backend).

Lemma outside_steps {A} (P : Call -> Prop) (c : Call) (answer : list Call -> A) :
  P c -> preserves (steps P) (outside c answer).
Proof. intros HP w. now apply steps_add_call. Qed.

Lemma executeSQL_steps (P : Call -> Prop) (sql : string) (binds : option JSValue)
      (neverThrow : bool) :
  (forall b, P (CallExecute sql b)) ->
  preserves (steps P) (executeSQL B sql binds neverThrow).
Proof.
  intros HP. unfold executeSQL. repeat preserves_step.
  apply outside_steps. apply HP.
Qed.

Lemma getSnowflakeSchema_steps (P : Call -> Prop) (ty : string) :
  preserves (steps P) (getSnowflakeSchema rt ty).
Proof. unfold getSnowflakeSchema. repeat preserves_step. Qed.

Lemma require_array_steps (P : Call -> Prop) (r : Reply) (msg : string) :
  preserves (steps P) (require_array r msg).
Proof. unfold require_array. repeat preserves_step. Qed.

Lemma checkIfTableExists_steps (tableName : string) :
  preserves (steps creates_nothing) (checkIfTableExists B tableName).
Proof.
  unfold checkIfTableExists, exec. preserves_step.
  - apply executeSQL_steps. intros b. reflexivity.
  - repeat preserves_step.
Qed.

Lemma insertDummyRecord_steps (tableName : string) (dummyRecord : Row) :
  preserves (steps creates_nothing) (insertDummyRecord B tableName dummyRecord).
Proof.
  unfold insertDummyRecord. preserves_step.
  - apply executeSQL_steps. intros b. reflexivity.
  - repeat preserves_step.
Qed.

Lemma wait_exists_steps (tableName : string) (n : nat) :
  preserves (steps creates_nothing) (wait_exists B tableName n).
Proof.
  induction n as [|k IH]; simpl.
  - pret.
  - preserves_step; [apply checkIfTableExists_steps|].
    destruct a; [pret|].
    destruct k; [pret | exact IH].
Qed.

Lemma wait_writable_steps (tableName : string) (n : nat) :
  preserves (steps creates_nothing) (wait_writable B tableName n).
Proof.
  induction n as [|k IH]; simpl.
  - pret.
  - preserves_step.
    + preserves_step; [apply insertDummyRecord_steps | pret].
    + destruct a; [pret | exact IH].
Qed.

Lemma waitForTableToBeReady_steps (tableName : string) (retries attempts : nat) :
  preserves (steps creates_nothing) (waitForTableToBeReady B tableName retries attempts).
Proof.
  unfold waitForTableToBeReady. preserves_step; [apply wait_exists_steps|].
  destruct a; [apply wait_writable_steps | pret].
Qed.

Lemma relax (A : Type) (P : Call -> Prop) (m : M A) :
  preserves (steps P) m -> preserves (steps any_call) m.
Proof. intros H w. eapply steps_mono; [|apply H]. intros c _. exact I. Qed.

Lemma exec_any (sql : string) : preserves (steps any_call) (exec B sql).
Proof. apply executeSQL_steps. intros b. exact I. Qed.

Lemma verifyOrCreateTables_steps (tableNames : list (string * string)) :
  preserves (steps any_call) (verifyOrCreateTables rt B tableNames).
Proof.
  induction tableNames as [|[ty table] rest IH]; simpl.
  - pret.
  - preserves_step; [eapply relax, checkIfTableExists_steps|].
    preserves_step.
    + destruct a; [pret|].
      preserves_step; [apply getSnowflakeSchema_steps|].
      preserves_step; [apply exec_any | pret].
    + preserves_step; [eapply relax, waitForTableToBeReady_steps|].
      preserves_step; [exact IH | pret].
Qed.

Lemma getCurrentUser_steps : preserves (steps any_call) (getCurrentUser B).
Proof.
  unfold getCurrentUser. preserves_step; [|pret].
  preserves_step; [apply exec_any|].
  preserves_step; [apply require_array_steps|].
  destruct (first_value _); [|pthrow].
  destruct (toString_call _); [|pthrow].
  preserves_step; [apply exec_any|].
  preserves_step; [apply require_array_steps | pret].
Qed.

Lemma verifyOrCreateDatabase_steps : preserves (steps any_call) (verifyOrCreateDatabase rt B).
Proof.
  unfold verifyOrCreateDatabase. preserves_step; [pget|].
  destruct (snowflake_database (vars a)); [|pthrow].
  preserves_step; [apply executeSQL_steps; intros; exact I|].
  preserves_step.
  { destruct (message_includes _ _) as [[]|]; [pret | | pthrow].
    destruct (js_gt0 _ _); [pret | pthrow]. }
  preserves_step.
  { destruct a1; [pret|].
    preserves_step; [apply exec_any | pret]. }
  preserves_step; [apply executeSQL_steps; intros; exact I|].
  preserves_step; [apply require_array_steps|].
  preserves_step.
  { destruct a4; [pret|].
    destruct (snowflake_schema (vars a)); [|pthrow].
    destruct (some_named _ _); [pret | pthrow]. }
  preserves_step.
  { destruct a5; [pret|].
    preserves_step; [apply exec_any | pret]. }
  preserves_step; [apply exec_any | pret].
Qed.

Lemma verifyOrCreateStage_steps : preserves (steps any_call) (verifyOrCreateStage B).
Proof.
  unfold verifyOrCreateStage. preserves_step; [pget|].
  preserves_step; [apply exec_any|].
  preserves_step; [apply require_array_steps|].
  destruct a1; [|pret].
  repeat (preserves_step; [apply exec_any|]). pret.
Qed.

Lemma verifyOrCreatePipe_steps (tableNames : TableNames) :
  preserves (steps any_call) (verifyOrCreatePipe rt B tableNames).
Proof.
  unfold verifyOrCreatePipe. preserves_step; [|pret].
  induction (entries tableNames) as [|[ty table] rest IH]; simpl.
  - pret.
  - preserves_step; [pget|].
    preserves_step; [apply exec_any|].
    preserves_step; [|exact IH].
    assert (Hcreate : preserves (steps any_call)
              (schema <- getSnowflakeSchema rt (split_shift "Table" ty) ;;
               exec B (createPipeQuery (tpl (snowflake_pipe (vars a))) table
                         (join ", " (map column_mapping schema))
                         (tpl (snowflake_stage (vars a)))) ;;; ret tt)).
    { preserves_step; [apply getSnowflakeSchema_steps|].
      preserves_step; [apply exec_any | pret]. }
    destruct a0 as [[| | | | |[|x l]|]|]; try exact Hcreate. pret.
Qed.

Lemma createSnowflakeConnection_steps :
  preserves (steps any_call) (createSnowflakeConnection B).
Proof.
  unfold createSnowflakeConnection, require_set.
  preserves_step; [pget|].
  repeat (preserves_step; [destruct (is_set _); [pret | pthrow]|]).
  preserves_step; [now apply outside_steps|].
  destruct a7; [|pret].
  preserves_step; [|pret].
  apply preserves_modify. intros w. unfold steps. simpl. repeat split; auto.
  exists []. split; [now rewrite app_nil_r | constructor].
Qed.

Lemma createSnowpipeConnection_steps :
  preserves (steps any_call) (createSnowpipeConnection B).
Proof.
  unfold createSnowpipeConnection.
  preserves_step; [pget|].
  preserves_step; [now apply outside_steps|].
  destruct a0; [|pret].
  preserves_step; [|pret].
  apply preserves_modify. intros w. unfold steps. simpl. repeat split; auto.
  exists []. split; [now rewrite app_nil_r | constructor].
Qed.

End LifecycleFrames.

(** ** The list returned by [initializeSnowflake] *)

Section InitResult.
Context (rt : Runtime) (B : Backend).

Lemma steps_keep_flags {X : Type} (f : World -> X) (A : Type) (m : M A) :
  (forall w w', process_env w' = process_env w -> vars w' = vars w ->
                flags w' = flags w -> f w' = f w) ->
  preserves (steps any_call) m -> preserves (keeps f) m.
Proof.
  intros Hf. apply preserves_weaken.
  intros w w' (E & V & F & _). now apply Hf.
Qed.

Ltac from_steps :=
  eapply steps_keep_flags;
  [ intros ? ? HE HV HF; unfold optional_view, pipe_view, snowpipe_view;
    rewrite ?HE, ?HV, ?HF; reflexivity | ].

Ltac by_modify := apply preserves_modify; intros []; reflexivity.

Lemma ensure_connection_keeps : preserves (keeps optional_view) (ensure_connection B).
Proof.
  unfold ensure_connection. preserves_step; [pget|].
  destruct (isConnectionReady (flags a)); [pret|].
  preserves_step; [from_steps; apply createSnowflakeConnection_steps|].
  preserves_step; [by_modify|].
  preserves_step; [destruct a0; [pret | pthrow]|].
  preserves_step; [from_steps; now apply outside_steps|].
  preserves_step; [by_modify|].
  preserves_step; [from_steps; apply getCurrentUser_steps|].
  destruct a3; [pret | pthrow].
Qed.

Lemma ensure_dataset_keeps : preserves (keeps optional_view) (ensure_dataset rt B).
Proof.
  unfold ensure_dataset. preserves_step; [pget|].
  destruct (isDatasetReady (flags a)); [pret|].
  preserves_step; [from_steps; apply verifyOrCreateDatabase_steps|].
  preserves_step; [by_modify|].
  destruct a0; [pret | pthrow].
Qed.

Lemma ensure_tables_keeps (tableNames : TableNames) :
  preserves (keeps optional_view) (ensure_tables rt B tableNames).
Proof.
  unfold ensure_tables. preserves_step; [pget|].
  destruct (areTablesReady (flags a)); [pret|].
  preserves_step; [from_steps; apply verifyOrCreateTables_steps|].
  preserves_step; [by_modify|].
  preserves_step; [destruct (forallb _ _); [pret | pthrow]|].
  by_modify.
Qed.

Lemma optional_stage_spec (w w' : World) (l : list bool) :
  optional_stage B w = (Ok l, w') ->
  length l = b2n (is_set (snowflake_stage (vars w)) && negb (isStageReady (flags w)))
  /\ pipe_view w' = pipe_view w.
Proof.
  unfold optional_stage, bind, get, modify, ret.
  destruct (is_set _ && negb _).
  - pose proof (verifyOrCreateStage_steps B w) as (_ & V & F & _).
    destruct (verifyOrCreateStage B w) as [[b|e] w1]; [|discriminate].
    simpl in V, F. intros [= <- <-]. split; [reflexivity|].
    unfold pipe_view. simpl. now rewrite V, F.
  - intros [= <- <-]. now split.
Qed.

Lemma optional_pipe_spec (tableNames : TableNames) (w w' : World) (l : list bool) :
  optional_pipe rt B tableNames w = (Ok l, w') ->
  length l = b2n (negb (isPipeReady (flags w)))
  /\ snowpipe_view w' = snowpipe_view w.
Proof.
  unfold optional_pipe, bind, get, modify, ret.
  destruct (isPipeReady (flags w)).
  - intros [= <- <-]. now split.
  - pose proof (verifyOrCreatePipe_steps rt B tableNames w) as (_ & V & F & _).
    destruct (verifyOrCreatePipe rt B tableNames w) as [[b|e] w1]; [|discriminate].
    simpl in V, F. intros [= <- <-]. split; [reflexivity|].
    unfold snowpipe_view. simpl. now rewrite F.
Qed.

Lemma optional_snowpipe_spec (w w' : World) (l : list bool) :
  optional_snowpipe B w = (Ok l, w') ->
  length l = b2n (negb (isSnowPipeReady (flags w))).
Proof.
  unfold optional_snowpipe, bind, get, modify, ret.
  destruct (isSnowPipeReady (flags w)).
  - now intros [= <- <-].
  - destruct (createSnowpipeConnection B w) as [[b|e] w1]; [|discriminate].
    now intros [= <- <-].
Qed.

Lemma init_all_ready (tableNames : TableNames) (w : World) :
  all_ready (flags w) = true ->
  initializeSnowflake rt B tableNames w
  = (Ok [true; true; true], set_vars (process_env w) w).
Proof.
  destruct w as [env v c sp [f1 f2 f3 f4 f5 f6] tr h t]. unfold all_ready. simpl.
  intros H. repeat (apply andb_prop in H as [H ?]). subst.
  unfold initializeSnowflake, ensure_connection, ensure_dataset, ensure_tables,
    optional_stage, optional_pipe, optional_snowpipe, bind, get, modify, ret.
  cbn. rewrite andb_false_r. cbn.
  destruct (is_set (snowflake_pipe env)); reflexivity.
Qed.

Lemma init_length (tableNames : TableNames) (w w' : World) (l : list bool) :
  initializeSnowflake rt B tableNames w = (Ok l, w') ->
  length l = (3 + optional_checks w)%nat.
Proof.
  unfold initializeSnowflake. unfold bind at 1. unfold modify at 1.
  set (w0 := set_vars (process_env w) w).
  assert (V0 : optional_view w0
               = (process_env w, process_env w, isStageReady (flags w),
                  isPipeReady (flags w), isSnowPipeReady (flags w))) by reflexivity.
  unfold bind at 1.
  pose proof (ensure_connection_keeps w0) as K1.
  destruct (ensure_connection B w0) as [[[]|e] w1]; [|discriminate].
  unfold bind at 1.
  pose proof (ensure_dataset_keeps w1) as K2.
  destruct (ensure_dataset rt B w1) as [[[]|e] w2]; [|discriminate].
  unfold bind at 1.
  pose proof (ensure_tables_keeps tableNames w2) as K3.
  destruct (ensure_tables rt B tableNames w2) as [[[]|e] w3]; [|discriminate].
  unfold keeps in K1, K2, K3. simpl in K1, K2, K3.
  rewrite K1, V0 in K2. rewrite K2 in K3. clear K1 K2 V0.
  unfold optional_view in K3. injection K3 as _ V3 S3 P3 SP3.
  unfold bind at 1. unfold get at 1. unfold bind at 1.
  destruct (optional_stage B w3) as [[ls|e] w4] eqn:E4; [|discriminate].
  apply optional_stage_spec in E4 as [L4 K4].
  unfold pipe_view in K4. injection K4 as V4 P4 SP4.
  unfold bind at 1. unfold get at 1. unfold bind at 1.
  unfold optional_checks. rewrite <- V3, <- S3, <- P3, <- SP3.
  rewrite V4. destruct (is_set (snowflake_pipe (vars w3))).
  - unfold bind at 1.
    destruct (optional_pipe rt B tableNames w4) as [[lp|e] w5] eqn:E5; [|discriminate].
    apply optional_pipe_spec in E5 as [L5 K5]. unfold snowpipe_view in K5.
    unfold bind at 1.
    destruct (optional_snowpipe B w5) as [[lsp|e] w6] eqn:E6; [|discriminate].
    apply optional_snowpipe_spec in E6.
    unfold ret. intros [= <- <-].
    cbn [length]. rewrite !length_app, L4, L5, E6, K5, P4, SP4. lia.
  - unfold ret. intros [= <- <-].
    cbn [length]. rewrite !length_app, L4. simpl. lia.
Qed.

End InitResult.



(** ** Running a statement *)

Lemma executeSQL_connected (B : Backend) (sql : string) (neverThrow : bool) (w : World) :
  connection w = true ->
  executeSQL B sql None neverThrow w
  = (match be_execute B (trace w) sql None with
     | Rows rows => Ok (Rows rows)
     | Failed err =>
         if neverThrow then Ok (Failed err)
         else if is_table_locked err then Throw (Error "TableLockedError")
              else Throw (DriverError err)
     end, add_call (CallExecute sql None) w).
Proof.
  intros H. unfold executeSQL, bind, get, outside, ret, throw. rewrite H. simpl.
  destruct (be_execute B (trace w) sql None) as [rows|err]; [reflexivity|].
  destruct neverThrow; [reflexivity|].
  destruct (is_table_locked err); reflexivity.
Qed.

Lemma steps_trace_prefix (P : Call -> Prop) (w w' : World) (c : Call) :
  steps P w w' -> In c (trace w) -> In c (trace w').
Proof.
  intros (_ & _ & _ & _ & _ & _ & _ & l & L & _) Hin.
  rewrite L. apply in_or_app. now left.
Qed.

Lemma fs_call_steps (B : Backend) (c : Call) (answer : list Call -> option string) :
  preserves (steps any_call) (fs_call c answer).
Proof.
  unfold fs_call. preserves_step; [now apply outside_steps|].
  destruct a; [pthrow | pret].
Qed.

(** ** Statement text *)

Lemma lower_char_not_upper (c : ascii) : is_upper (lower_char c) = false.
Proof. destruct c as [[] [] [] [] [] [] [] []]; reflexivity. Qed.

Lemma toLowerCase_no_upper (s : string) : no_upper (toLowerCase s) = true.
Proof.
  induction s as [|c r IH]; simpl; [reflexivity|].
  now rewrite lower_char_not_upper, IH.
Qed.

Lemma join_question_marks {A : Type} (l : list A) :
  map (fun _ => "?") l = repeat "?" (length l).
Proof. induction l; simpl; congruence. Qed.

Lemma select_part_projection (schema : Schema) :
  map (fun field => if is_variant field then select_part field else select_part field)
      schema
  = map (projection "value") schema.
Proof.
  apply map_ext. intros f. destruct (is_variant f); reflexivity.
Qed.

Lemma mapM_prepareComplexRows (rt : Runtime) (schema : Schema) (batch : Batch) :
  forall w,
    mapM (fun row => prepareComplexRows rt row schema) batch w
    = (Ok batch, set_heap (heap_after rt schema batch (heap w)) w).
Proof.
  induction batch as [|l batch IH]; intros w; simpl.
  - unfold ret, heap_after. simpl. now destruct w.
  - unfold bind at 1. unfold prepareComplexRows at 1.
    unfold bind, get, modify, ret in *. simpl. rewrite IH. simpl.
    unfold heap_after. simpl. reflexivity.
Qed.

(** The variant branch repairs the records and serializes them as they
    are afterwards. *)
Lemma shape_variant (rt : Runtime) (batch : Batch) (schema : Schema) (w : World) :
  shape rt batch schema true w
  = (Ok (JArr [JStr (JSON_stringify rt
                       (JArr (map (fun l => JObj (deref (heap_after rt schema batch (heap w)) l))
                                  batch)))]),
     set_heap (heap_after rt schema batch (heap w)) w).
Proof. unfold shape, bind. rewrite mapM_prepareComplexRows. reflexivity. Qed.

Lemma copy_statement_issued (rt : Runtime) (B : Backend) (batch : Batch)
      (table : string) (schema : Schema) (w : World) :
  connection w = true -> upload_succeeds B ->
  In (CallExecute (copyCommand table (join ", " (map (projection "$1") schema))
                               ("@" ++ tpl (snowflake_stage (vars w)))
                               (path_basename rt (temp_file rt B table w))) None)
     (trace (snd (copyIntoData rt B batch table schema w))).
Proof.
  intros Hc [Hwrite Hput].
  unfold copyIntoData, uid, temp_file.
  change (map column_mapping schema) with (map (projection "$1") schema).
  unfold bind at 1. unfold outside at 1.
  set (suffix := rand_uid B (trace w) 18).
  set (w1 := add_call (CallUid 18) w).
  set (FILE_PATH := path_resolve rt (TEMP_DIR rt) _).
  change (vars w) with (vars w1).
  unfold bind at 1. unfold get at 1.
  unfold bind at 1. unfold writeFile, fs_call. unfold bind at 1. unfold outside at 1.
  rewrite Hwrite. unfold ret at 1.
  set (w2 := add_call (CallWriteFile _ _) w1).
  unfold bind at 1. unfold exec at 1.
  rewrite executeSQL_connected by exact Hc.
  destruct (Hput (trace w2) ("PUT file://" ++ FILE_PATH ++ " " ++ "@" ++ tpl (snowflake_stage (vars w1))))
    as [rows Hrows]; [reflexivity|].
  rewrite Hrows.
  set (w3 := add_call (CallExecute _ None) w2).
  unfold try_finally.
  set (copy := copyCommand _ _ _ _).
  assert (Hcopy : forall o w', (bind (exec B copy)
                     (fun _ => w4 <- get ;;
                        exec B ("REMOVE " ++ ("@" ++ tpl (snowflake_stage (vars w1))) ++ "/"
                                  ++ path_basename rt FILE_PATH) ;;;
                        ret (full_success batch w4))) w3 = (o, w') ->
                  In (CallExecute copy None) (trace w')).
  { intros o w'. unfold bind at 1. unfold exec at 1.
    rewrite executeSQL_connected by exact Hc.
    set (w4 := add_call (CallExecute copy None) w3).
    assert (Hin : In (CallExecute copy None) (trace w4)).
    { simpl. apply in_or_app. right. now left. }
    destruct (be_execute B (trace w3) copy None) as [r|err].
    - intros H.
      assert (Hp : preserves (steps any_call)
                (w5 <- get ;;
                 exec B ("REMOVE " ++ ("@" ++ tpl (snowflake_stage (vars w1))) ++ "/"
                           ++ path_basename rt FILE_PATH) ;;;
                 ret (full_success batch w5))).
      { preserves_step; [pget|]. preserves_step; [apply exec_any | pret]. }
      specialize (Hp w4). cbv beta in H. rewrite H in Hp.
      eapply steps_trace_prefix; eauto.
    - destruct (is_table_locked err); intros [= <- <-]; exact Hin. }
  set (run := bind _ _ w3) in *.
  specialize (Hcopy (fst run) (snd run) (surjective_pairing run)).
  destruct run as [o w']. simpl in Hcopy. rename Hcopy into E.
  pose proof (fs_call_steps B (CallUnlink FILE_PATH)
                (fun t => fs_unlink B t FILE_PATH) w') as Hs.
  unfold unlink.
  destruct (fs_call _ _ w') as [[u|e] w'']; simpl in *;
    eapply steps_trace_prefix; eauto.
Qed.

(** C9.  The statements the adapter generates.  (1) With a variant
    column in the schema, the insert statement parses and flattens one
    JSON blob and projects every column as
    [value:<lowercased name> AS <name>], and (2) the payload bound to it
    is a single string, the serialization of the repaired records of the
    batch.  (3) Without a variant column, it is a positional insert with
    one placeholder per column.  (4) The bulk-load statement of the copy
    transport, issued once the upload has succeeded, copies into the
    table from the uploaded file on the stage and maps the columns the
    same way from [$1].  (5) The source key never keeps an upper-case
    letter. *)
Theorem statement_shapes :
  (forall schema table,
      existsb is_variant schema = true ->
      prepareInsertSQL schema table
      = (nl ++ spaces 12 ++ "INSERT INTO " ++ table ++
         nl ++ spaces 12 ++ "SELECT " ++ join ", " (map (projection "value") schema) ++
         nl ++ spaces 12 ++ "FROM TABLE(FLATTEN(PARSE_JSON(?)))" ++
         nl ++ spaces 8, true))
  /\ (forall rt batch schema w,
         fst (shape rt batch schema true w)
         = Ok (JArr [JStr (JSON_stringify rt
                             (JArr (map (fun l =>
                                           JObj (deref (heap (snd (shape rt batch schema
                                                                         true w))) l))
                                        batch)))]))
  /\ (forall schema table,
         existsb is_variant schema = false ->
         prepareInsertSQL schema table
         = ("INSERT INTO " ++ table ++ " (" ++ join ", " (map name schema)
              ++ ") VALUES (" ++ join ", " (repeat "?" (length schema)) ++ ")", false))
  /\ (forall rt B batch table schema w,
         connection w = true -> upload_succeeds B ->
         In (CallExecute
               (nl ++ tab ++ "  COPY INTO " ++ table ++
                nl ++ tab ++ "  FROM (" ++
                nl ++ tabs 2 ++ "SELECT " ++ join ", " (map (projection "$1") schema) ++
                nl ++ tabs 2 ++ "FROM @" ++ tpl (snowflake_stage (vars w)) ++ "/"
                   ++ path_basename rt
                        (path_resolve rt (TEMP_DIR rt)
                           (table ++ "_" ++ TODAY rt ++ "_"
                              ++ rand_uid B (trace w) 18 ++ ".json")) ++
                nl ++ tab ++ "  )" ++
                nl ++ tab ++ "  FILE_FORMAT = (TYPE = 'JSON');" ++
                nl ++ tab)
               None)
            (trace (snd (copyIntoData rt B batch table schema w))))
  /\ (forall source col,
         projection source col = source ++ ":" ++ toLowerCase (name col) ++ " AS " ++ name col
         /\ no_upper (toLowerCase (name col)) = true).
Proof.
  split; [|split; [|split; [|split]]].
  - intros schema table H. unfold prepareInsertSQL. rewrite H.
    now rewrite select_part_projection.
  - intros rt batch schema w. rewrite shape_variant. reflexivity.
  - intros schema table H. unfold prepareInsertSQL. rewrite H.
    now rewrite join_question_marks.
  - intros rt B batch table schema w Hc Hup.
    exact (copy_statement_issued rt B batch table schema w Hc Hup).
  - intros source col. split; [reflexivity | apply toLowerCase_no_upper].
Qed.

Lemma statement_shapes_witness :
  fst (prepareInsertSQL sample_events "events")
  = nl ++ spaces 12 ++ "INSERT INTO events" ++
    nl ++ spaces 12 ++ "SELECT value:event AS EVENT, value:properties AS Properties" ++
    nl ++ spaces 12 ++ "FROM TABLE(FLATTEN(PARSE_JSON(?)))" ++
    nl ++ spaces 8
  /\ fst (prepareInsertSQL sample_groups "groups")
     = "INSERT INTO groups (Group_Id, NAME) VALUES (?, ?)"
  /\ In (CallExecute
           (nl ++ tab ++ "  COPY INTO groups" ++
            nl ++ tab ++ "  FROM (" ++
            nl ++ tabs 2 ++ "SELECT $1:group_id AS Group_Id, $1:name AS NAME" ++
            nl ++ tabs 2 ++ "FROM @MY_STAGE/"
               ++ path_basename sample_rt
                    (path_resolve sample_rt (TEMP_DIR sample_rt)
                       ("groups_" ++ TODAY sample_rt ++ "_"
                          ++ rand_uid (sample_backend 0) [] 18 ++ ".json")) ++
            nl ++ tab ++ "  )" ++
            nl ++ tab ++ "  FILE_FORMAT = (TYPE = 'JSON');" ++
            nl ++ tab)
           None)
        (trace (snd (copyIntoData sample_rt (sample_backend 0) [] "groups" sample_groups
                       (set_connection true
                          (set_vars (sample_env (Some "MY_STAGE") None)
                             (fresh_world (sample_env (Some "MY_STAGE") None) [])))))).
Proof.
  destruct statement_shapes as (Hvariant & _ & Hplain & Hcopy & _).
  split; [|split].
  - rewrite (Hvariant sample_events "events"); reflexivity.
  - rewrite (Hplain sample_groups "groups"); reflexivity.
  - assert (Hup : upload_succeeds (sample_backend 0)).
    { split; [reflexivity|]. intros t sql Hsql. eexists. simpl.
      destruct sql as [|c sql]; [discriminate Hsql|]. cbn [String.prefix] in Hsql.
      destruct (ascii_dec "P" c) as [<-|]; [reflexivity | discriminate Hsql]. }
    pose proof (Hcopy sample_rt (sample_backend 0) [] "groups" sample_groups
                      (set_connection true
                         (set_vars (sample_env (Some "MY_STAGE") None)
                             (fresh_world (sample_env (Some "MY_STAGE") None) [])))
                      eq_refl Hup) as H.
    vm_compute in H. vm_compute. exact H.
Defined.

(** ** Shaping and the records of the batch *)

Lemma heap_after_length (rt : Runtime) (schema : Schema) (batch : Batch) :
  forall h : Heap, length (heap_after rt schema batch h) = length h.
Proof.
  unfold heap_after. induction batch as [|a rest IH]; intros h; simpl; [reflexivity|].
  rewrite IH. apply length_insert.
Qed.

Lemma heap_after_outside (rt : Runtime) (schema : Schema) (batch : Batch) (l : nat) :
  l ∉ batch ->
  forall h : Heap, heap_after rt schema batch h !! l = h !! l.
Proof.
  unfold heap_after. induction batch as [|a rest IH]; intros Hl h; simpl; [reflexivity|].
  apply not_elem_of_cons in Hl as [Hne Hl].
  rewrite IH by exact Hl. now apply list_lookup_insert_ne.
Qed.

Lemma heap_after_inside (rt : Runtime) (schema : Schema) (batch : Batch) (l : nat) :
  NoDup batch -> l ∈ batch ->
  forall h : Heap,
    (l < length h)%nat ->
    heap_after rt schema batch h !! l
    = Some (prepareComplexRows_body rt (deref h l) schema).
Proof.
  induction batch as [|a rest IH]; intros Hnd Hin h Hlt.
  - now apply elem_of_nil in Hin.
  - apply NoDup_cons in Hnd as [Ha Hnd].
    change (heap_after rt schema (a :: rest) h)
      with (heap_after rt schema rest
              (<[a := prepareComplexRows_body rt (deref h a) schema]> h)).
    apply elem_of_cons in Hin as [->|Hin].
    + rewrite heap_after_outside by exact Ha.
      now apply list_lookup_insert_eq.
    + assert (Hne : a <> l) by (intros ->; contradiction).
      rewrite IH; [|exact Hnd|exact Hin|now rewrite length_insert].
      unfold deref. now rewrite list_lookup_insert_ne.
Qed.

(** *** What shaping binds *)

Lemma bind_values_spec (rt : Runtime) (schema : Schema) (record : Row) :
  forall vals,
    bind_values rt schema record = Some vals ->
    Forall2 (fun f v => formatBindValue rt (obj_get (name f) record) (type f) = Some v)
            schema vals.
Proof.
  induction schema as [|f rest IH]; intros vals; cbn [bind_values].
  - intros [= <-]. constructor.
  - destruct (formatBindValue rt (obj_get (name f) record) (type f)) as [v|] eqn:E;
      [|discriminate].
    destruct (bind_values rt rest record) as [vs|]; [|discriminate].
    intros [= <-]. constructor; [exact E | now apply IH].
Qed.

Lemma bind_rows_spec (rt : Runtime) (schema : Schema) {A : Type} (f : A -> Row)
      (batch : list A) :
  forall rows,
    bind_rows rt schema (map f batch) = Some rows ->
    Forall2 (fun l row => bound_row rt schema (f l) row) batch rows.
Proof.
  induction batch as [|l rest IH]; intros rows; cbn [map bind_rows].
  - intros [= <-]. constructor.
  - unfold bind_row at 1.
    destruct (bind_values rt schema (f l)) as [vals|] eqn:E; [|discriminate].
    destruct (bind_rows rt schema (map f rest)) as [rs|]; [|discriminate].
    intros [= <-]. constructor; [|now apply IH].
    exists vals. split; [reflexivity | now apply bind_values_spec].
Qed.

(** The non-variant branch reads the records and changes nothing. *)
Lemma shape_plain (rt : Runtime) (batch : Batch) (schema : Schema) (w : World) :
  shape rt batch schema false w
  = (match bind_rows rt schema (map (deref (heap w)) batch) with
     | Some rows => Ok (JArr rows)
     | None => Throw (TypeError "value?.toString is not a function")
     end, w).
Proof.
  unfold shape, bind, get.
  destruct (bind_rows rt schema (map (deref (heap w)) batch)); reflexivity.
Qed.

Lemma shape_plain_payload (rt : Runtime) (batch : Batch) (schema : Schema) (w : World)
      (payload : JSValue) :
  fst (shape rt batch schema false w) = Ok payload ->
  exists rows,
    payload = JArr rows
    /\ Forall2 (fun l row => bound_row rt schema (deref (heap w) l) row) batch rows.
Proof.
  rewrite shape_plain. cbn [fst].
  destruct (bind_rows rt schema (map (deref (heap w)) batch)) as [rows|] eqn:E;
    [|discriminate].
  intros [= <-]. exists rows. split; [reflexivity|].
  now apply bind_rows_spec in E.
Qed.

(** C4, as the code has it.  Shaping is pure only in the non-variant
    branch: there the state, records included, is left as it was, and a
    payload that is produced holds, for each record of the batch in
    order, the values [formatBindValue] computes for the columns.  In the
    variant branch [prepareComplexRows] repairs each record of the batch
    in place: only the heap changes; no record is added or removed and a
    record outside the batch keeps its contents; a record of a batch
    without repeated references holds its repaired contents afterwards;
    and the payload is the one string that serializes the records of the
    batch as they are after the repair. *)
Theorem shaping_effects (rt : Runtime) (batch : Batch) (schema : Schema) (w : World) :
  snd (shape rt batch schema false w) = w
  /\ (forall payload,
         fst (shape rt batch schema false w) = Ok payload ->
         exists rows,
           payload = JArr rows
           /\ Forall2 (fun l row => bound_row rt schema (deref (heap w) l) row) batch rows)
  /\ (let w' := snd (shape rt batch schema true w) in
      w' = set_heap (heap w') w
      /\ length (heap w') = length (heap w)
      /\ (forall l, l ∉ batch -> heap w' !! l = heap w !! l)
      /\ (NoDup batch ->
          forall l, l ∈ batch -> (l < length (heap w))%nat ->
                    heap w' !! l
                    = Some (prepareComplexRows_body rt (deref (heap w) l) schema))
      /\ fst (shape rt batch schema true w)
         = Ok (JArr [JStr (JSON_stringify rt
                             (JArr (map (fun l => JObj (deref (heap w') l)) batch)))])).
Proof.
  split; [now rewrite shape_plain|].
  split; [intros payload; apply shape_plain_payload|].
  rewrite shape_variant. cbn [fst snd heap set_heap].
  split; [reflexivity|]. split; [apply heap_after_length|].
  split; [intros l Hl; now apply heap_after_outside|].
  split; [|reflexivity].
  intros Hnd l Hin Hlt. now apply heap_after_inside.
Qed.

Lemma shaping_effects_witness :
  heap (snd (shape sample_rt [0%nat] sample_users true
               (fresh_world (sample_env None None)
                  [[("DISTINCT_ID", JStr "u1"); ("properties", JStr "[1]")]])))
    !! 0%nat
  = Some [("DISTINCT_ID", JStr "u1"); ("properties", JArr [JNum 1])]
  /\ exists rows,
      JArr [JArr [JStr "g1"; JStr "first"]] = JArr rows
      /\ Forall2 (fun l row => bound_row sample_rt sample_groups
                                         (deref (heap sample_ready_world) l) row)
                 [0%nat] rows.
Proof.
  split.
  - destruct (shaping_effects sample_rt [0%nat] sample_users
                (fresh_world (sample_env None None)
                   [[("DISTINCT_ID", JStr "u1"); ("properties", JStr "[1]")]]))
      as (_ & _ & _ & _ & _ & Hin & _).
    rewrite Hin.
    + reflexivity.
    + apply NoDup_singleton.
    + apply list_elem_of_singleton. reflexivity.
    + simpl. lia.
  - destruct (shaping_effects sample_rt [0%nat] sample_groups sample_ready_world)
      as (_ & Hplain & _).
    apply Hplain. reflexivity.
Defined.

(** C4 as stated fails: shaping a batch under a schema with a variant
    column rewrites the record in the heap. *)
Lemma shaping_mutates_record :
  let w := fresh_world (sample_env None None)
             [[("DISTINCT_ID", JStr "u1"); ("properties", JStr "null")]] in
  heap (snd (shape sample_rt [0%nat] sample_users true w))
  = [[("DISTINCT_ID", JStr "u1"); ("properties", JNull)]]
  /\ heap (snd (shape sample_rt [0%nat] sample_users true w)) <> heap w.
Proof. split; [reflexivity | discriminate]. Qed.

(** ** Value normalization *)

Section NullsInPayload.
Context (rt : Runtime).
Hypothesis parse_null : JSON_parse rt "null" = Some JNull.

(** A field holding the text [null] or an actual null is an actual
    null when [prepareComplexRows] returns. *)
Lemma prepareComplexRows_nulls (row : Row) (schema : Schema) (k : string) :
  null_text_or_null (obj_get k row) ->
  obj_get k (prepareComplexRows_body rt row schema) = JNull.
Proof.
  intros H. unfold prepareComplexRows_body.
  set (row1 := fold_left (repair_variant rt) _ row).
  assert (H1 : null_text_or_null (obj_get k row1))
    by (now apply repair_fold_keeps).
  destruct H1 as [H1|H1].
  - apply nullify_fold_hits.
    + apply obj_get_present. rewrite H1. discriminate.
    + now rewrite H1.
  - now apply nullify_fold_keeps_null.
Qed.

(** One repair of the record at [a], seen from the record at [l]. *)
Lemma repair_step_nulls (schema : Schema) (k : string) (a l : nat) (h : Heap) :
  null_text_or_null (obj_get k (deref h l)) ->
  let h1 := <[a := prepareComplexRows_body rt (deref h a) schema]> h in
  null_text_or_null (obj_get k (deref h1 l))
  /\ (a = l -> obj_get k (deref h1 l) = JNull).
Proof.
  intros H h1. destruct (Nat.eq_dec a l) as [->|Hne].
  - assert (Hlt : (l < length h)%nat).
    { destruct (h !! l) as [row|] eqn:E; [eapply lookup_lt_Some, E|].
      exfalso. unfold deref in H. rewrite E in H. simpl in H.
      destruct H as [H|H]; discriminate H. }
    assert (Hl : deref h1 l = prepareComplexRows_body rt (deref h l) schema).
    { unfold deref at 1, h1. now rewrite list_lookup_insert_eq. }
    rewrite Hl. rewrite prepareComplexRows_nulls by exact H.
    split; [now right | reflexivity].
  - assert (Hl : deref h1 l = deref h l).
    { unfold deref, h1. now rewrite list_lookup_insert_ne. }
    rewrite Hl. split; [exact H | congruence].
Qed.

Lemma heap_after_keeps_null (schema : Schema) (k : string) (l : nat) (batch : Batch) :
  forall h : Heap,
    obj_get k (deref h l) = JNull ->
    obj_get k (deref (heap_after rt schema batch h) l) = JNull.
Proof.
  induction batch as [|b rest IH]; intros h H; [exact H|].
  change (heap_after rt schema (b :: rest) h)
    with (heap_after rt schema rest
            (<[b := prepareComplexRows_body rt (deref h b) schema]> h)).
  apply IH.
  destruct (repair_step_nulls schema k b l h (or_intror H)) as [[H1|H1] Hb];
    [|exact H1].
  destruct (Nat.eq_dec b l) as [Heq|Hne]; [now apply Hb|].
  unfold deref in *. rewrite list_lookup_insert_ne in H1 by exact Hne.
  rewrite H in H1. discriminate H1.
Qed.

Lemma heap_after_nulls (schema : Schema) (k : string) (l : nat) (batch : Batch) :
  forall h : Heap,
    l ∈ batch ->
    null_text_or_null (obj_get k (deref h l)) ->
    obj_get k (deref (heap_after rt schema batch h) l) = JNull.
Proof.
  induction batch as [|a rest IH]; intros h Hin H.
  - now apply elem_of_nil in Hin.
  - change (heap_after rt schema (a :: rest) h)
      with (heap_after rt schema rest
              (<[a := prepareComplexRows_body rt (deref h a) schema]> h)).
    destruct (repair_step_nulls schema k a l h H) as [H1 Ha].
    destruct (Nat.eq_dec a l) as [Heq|Hne].
    + apply heap_after_keeps_null. now apply Ha.
    + apply IH; [|exact H1].
      apply elem_of_cons in Hin as [Heq|Hin]; [congruence | exact Hin].
Qed.

End NullsInPayload.

(** C8.  Value normalization.  (1) [null], [undefined], the empty string
    and the text [null] are bound as an actual null, whatever the column
    type.  (2) Under a non-variant column, a string that the JSON test
    accepts and that parses is replaced by the parsed structure.
    (3) Under the variant marker a value that the null test lets through
    passes through untouched, never re-parsed.  (4) These are the values
    of the shaped payload: in the non-variant branch the payload holds,
    for each record of the batch in order, the values [formatBindValue]
    gives for the columns.  (5) In the variant branch the payload is the
    one string that serializes the records of the batch as they are
    after the repair, and a record of the batch whose variant column
    held the text [null] holds an actual null there after the repair,
    so that is what is serialized. *)
Theorem value_normalization (rt : Runtime) :
  (forall ty, formatBindValue rt JNull ty = Some JNull
              /\ formatBindValue rt JUndefined ty = Some JNull
              /\ formatBindValue rt (JStr "") ty = Some JNull
              /\ formatBindValue rt (JStr "null") ty = Some JNull)
  /\ (forall s ty parsed,
         ty <> "VARIANT" -> nullish (JStr s) = Some false ->
         isJSONStr rt s = true -> JSON_parse rt s = Some parsed ->
         formatBindValue rt (JStr s) ty = Some parsed)
  /\ (forall v, nullish v = Some false -> formatBindValue rt v "VARIANT" = Some v)
  /\ (forall batch schema w payload,
         fst (shape rt batch schema false w) = Ok payload ->
         exists rows,
           payload = JArr rows
           /\ Forall2 (fun l row => bound_row rt schema (deref (heap w) l) row) batch rows)
  /\ (forall batch schema w col l,
         JSON_parse rt "null" = Some JNull ->
         In col schema -> is_variant col = true ->
         In l batch ->
         obj_get (name col) (deref (heap w) l) = JStr "null" ->
         let w' := snd (shape rt batch schema true w) in
         fst (shape rt batch schema true w)
         = Ok (JArr [JStr (JSON_stringify rt
                             (JArr (map (fun l => JObj (deref (heap w') l)) batch)))])
         /\ obj_get (name col) (deref (heap w') l) = JNull).
Proof.
  split; [intros ty; repeat split; reflexivity|].
  split.
  { intros s ty parsed Hty Hn Hj Hp. unfold formatBindValue.
    rewrite Hn. apply String.eqb_neq in Hty. now rewrite Hty, Hj, Hp. }
  split.
  { intros v Hn. unfold formatBindValue. now rewrite Hn. }
  split.
  { intros batch schema w payload. apply shape_plain_payload. }
  intros batch schema w col l Hp _ _ Hin Hnull.
  rewrite shape_variant. cbn [fst snd heap set_heap].
  split; [reflexivity|].
  apply (heap_after_nulls rt Hp schema (name col) l batch (heap w)).
  - now apply list_elem_of_In.
  - left. exact Hnull.
Qed.

Lemma value_normalization_witness :
  formatBindValue sample_rt (JStr "[1]") "VARCHAR" = Some (JArr [JNum 1])
  /\ formatBindValue sample_rt (JStr "[1]") "VARIANT" = Some (JStr "[1]")
  /\ fst (shape sample_rt [0%nat; 0%nat] sample_users true
               (fresh_world (sample_env None None)
                  [[("DISTINCT_ID", JStr "u1"); ("properties", JStr "null")]]))
     = Ok (JArr [JStr (JSON_stringify sample_rt
                         (JArr [JObj [("DISTINCT_ID", JStr "u1"); ("properties", JNull)];
                                JObj [("DISTINCT_ID", JStr "u1");
                                      ("properties", JNull)]]))]).
Proof.
  destruct (value_normalization sample_rt) as (_ & Hparse & Hvariant & _ & Hrow).
  split; [|split].
  - apply Hparse; [discriminate | reflexivity | reflexivity | reflexivity].
  - apply Hvariant. reflexivity.
  - destruct (Hrow [0%nat; 0%nat] sample_users
                   (fresh_world (sample_env None None)
                      [[("DISTINCT_ID", JStr "u1"); ("properties", JStr "null")]])
                   (mkColumn "properties" "VARIANT") 0%nat)
      as [Hpayload _];
      [reflexivity | simpl; tauto | reflexivity | simpl; tauto | reflexivity |].
    rewrite Hpayload. reflexivity.
Defined.

(** ** The counts of an [InsertResult] *)

Ltac run_all :=
  repeat (cbv beta iota;
          match goal with
          | |- context [executeSQL ?b ?sql ?binds ?nt ?w] =>
              destruct (executeSQL b sql binds nt w) as [[?|?] ?]
          | |- context [fs_writeFile ?b ?t ?p ?c] => destruct (fs_writeFile b t p c)
          | |- context [fs_unlink ?b ?t ?p] => destruct (fs_unlink b t p)
          | |- context [be_insertFile ?b ?t ?p ?f] => destruct (be_insertFile b t p f)
          | |- context [if ?c then _ else _] => destruct c
          end).

Ltac settle_counts :=
  let H := fresh "H" in
  intros H;
  first [ discriminate H
        | inversion H; subst; split; [auto | cbn [insertedRows failedRows]; lia] ].

Section Counts.
Context (rt : Runtime) (B : Backend).

Lemma insertData_counts (batch : Batch) (table : string) (schema : Schema)
      (w w' : World) (r : InsertResult) :
  insertData rt B batch table schema w = (Ok r, w') -> counts_add_up batch r.
Proof.
  unfold insertData. destruct (prepareInsertSQL schema table) as [sql hasVariant].
  unfold bind at 1. destruct (shape rt batch schema hasVariant w) as [[payload|e] w1];
    [|discriminate].
  unfold try_catch, bind, get, ret.
  destruct (executeSQL B sql (Some payload) false w1) as [[[rows|err]|e] w2];
    settle_counts.
Qed.

Lemma copyIntoData_counts (batch : Batch) (table : string) (schema : Schema)
      (w w' : World) (r : InsertResult) :
  copyIntoData rt B batch table schema w = (Ok r, w') -> counts_add_up batch r.
Proof.
  unfold copyIntoData, try_finally, writeFile, unlink, fs_call, uid, exec,
    bind, get, ret, throw, outside, full_success.
  run_all; settle_counts.
Qed.

Lemma insertWithPipe_counts (batch : Batch) (table : string) (schema : Schema)
      (w w' : World) (r : InsertResult) :
  insertWithPipe rt B batch table schema w = (Ok r, w') -> counts_add_up batch r.
Proof.
  unfold insertWithPipe, insertFile, try_finally, writeFile, unlink, fs_call, uid,
    exec, bind, get, ret, throw, outside, full_success.
  run_all; settle_counts.
Qed.

Lemma insertWithPut_counts (batch : Batch) (table : string) (schema : Schema)
      (w w' : World) (r : InsertResult) :
  insertWithPut rt B batch table schema w = (Ok r, w') -> counts_add_up batch r.
Proof.
  unfold insertWithPut, writeFile, unlink, fs_call, uid, exec,
    bind, get, ret, throw, outside, full_success.
  run_all; settle_counts.
Qed.

(** The retry engine keeps the invariant of the strategy it wraps. *)
Lemma insertWithRetry_counts (fn : Strategy) (batch : Batch) (table : string)
      (schema : Schema) :
  (forall w w' r, fn batch table schema w = (Ok r, w') -> counts_add_up batch r) ->
  forall remaining w w' r,
    insertWithRetry_from remaining fn batch table schema w = (Ok r, w') ->
    counts_add_up batch r.
Proof.
  intros Hfn. induction remaining as [|k IH]; intros w w' r; simpl;
    unfold try_catch, ret, terminal_error; destruct (fn batch table schema w) as [[r0|e] w1] eqn:E.
  - intros [= <- <-]. eapply Hfn, E.
  - destruct (is_contention e); settle_counts.
  - intros [= <- <-]. eapply Hfn, E.
  - destruct (is_contention e); [apply IH | settle_counts].
Qed.

End Counts.

(** C5.  Whichever of the four write strategies the transport selects
    ([insertData], [copyIntoData], [insertWithPipe], [insertWithPut]),
    and for every batch, a result that is returned rather than thrown has
    status [success] or [error] and its inserted and failed rows add up
    to the length of the batch.  The inserted count is the number the
    driver reports. *)
Theorem insert_result_invariant (rt : Runtime) (B : Backend) (transport : string)
        (fn : Strategy) (batch : Batch) (table : string) (schema : Schema)
        (w w' : World) (r : InsertResult) :
  strategy_of rt B transport = Some fn ->
  fn batch table schema w = (Ok r, w') ->
  (status r = "success" \/ status r = "error")
  /\ insertedRows r + failedRows r = Z.of_nat (length batch).
Proof.
  unfold strategy_of. intros Hfn Hrun.
  destruct (String.eqb transport "insert");
    [injection Hfn as <-; eapply insertData_counts, Hrun|].
  destruct (String.eqb transport "copy");
    [injection Hfn as <-; eapply copyIntoData_counts, Hrun|].
  destruct (String.eqb transport "pipe");
    [injection Hfn as <-; eapply insertWithPipe_counts, Hrun|].
  destruct (String.eqb transport "task");
    [injection Hfn as <-; eapply insertWithPut_counts, Hrun | discriminate].
Qed.

Lemma insert_result_invariant_witness :
  exists r w',
    insertData sample_rt (sample_backend 2) [0; 1; 2]%nat "groups" sample_groups
               sample_ready_world = (Ok r, w')
    /\ insertedRows r = 2 /\ failedRows r = 1
    /\ insertedRows r + failedRows r = 3.
Proof.
  eexists. eexists. split; [vm_compute; reflexivity|].
  split; [reflexivity|]. split; [reflexivity|].
  refine (proj2 (insert_result_invariant sample_rt (sample_backend 2) "insert"
                   (insertData sample_rt (sample_backend 2)) [0; 1; 2]%nat "groups"
                   sample_groups sample_ready_world _ _ eq_refl _)).
  vm_compute. reflexivity.
Defined.

(** ** The entry point *)

Section Main.
Context (rt : Runtime) (B : Backend).

Lemma init_initialised (tableNames : TableNames) (w : World) :
  initialised w ->
  initializeSnowflake rt B tableNames w = (Ok [true; true; true], w).
Proof.
  destruct w as [env v c sp [f1 f2 f3 f4 f5 f6] tr h t].
  intros (V & C1 & C2 & C3 & Hs & Hp). simpl in *. subst.
  unfold initializeSnowflake, ensure_connection, ensure_dataset, ensure_tables,
    optional_stage, optional_pipe, optional_snowpipe, bind, get, modify, ret.
  cbn.
  destruct (is_set (snowflake_stage env)).
  - rewrite Hs by reflexivity. cbn.
    destruct (is_set (snowflake_pipe env)); [|reflexivity].
    destruct Hp as [-> ->]; reflexivity.
  - cbn. destruct (is_set (snowflake_pipe env)); [|reflexivity].
    destruct Hp as [-> ->]; reflexivity.
Qed.

Lemma main_checks_kind_after_init (data : Batch) (ty : string) (tableNames : TableNames)
      (w : World) :
  ty <> "track" -> ty <> "engage" -> ty <> "groups" ->
  main rt B data ty tableNames w
  = (match initializeSnowflake rt B tableNames w with
     | (Ok l, _) =>
         if forallb (fun i => i) l then Throw (Error "Invalid Record Type")
         else Throw (Error "Failed to initialize Snowflake middleware.")
     | (Throw e, _) => Throw e
     end, snd (initializeSnowflake rt B tableNames w)).
Proof.
  intros H1 H2 H3. apply String.eqb_neq in H1, H2, H3.
  unfold main. unfold bind at 1.
  destruct (initializeSnowflake rt B tableNames w) as [[l|e] w1]; [|reflexivity].
  unfold bind at 1. destruct (forallb (fun i => i) l); [|reflexivity].
  unfold ret at 1. unfold bind at 1. now rewrite H1, H2, H3.
Qed.

End Main.

(** C1, as the code has it.  [main] called with a record kind outside
    track, engage and groups never returns a result and never reaches a
    write strategy: it throws, and the state it leaves is the one lazy
    initialisation leaves.  The kind is checked after
    [initializeSnowflake]: when that succeeds the error is the
    configuration error [Invalid Record Type]; on an adapter that is
    already initialised no call is made to the outside and nothing
    changes. *)
Theorem main_unknown_record_kind (rt : Runtime) (B : Backend) (data : Batch)
        (ty : string) (tableNames : TableNames) (w : World) :
  ty <> "track" -> ty <> "engage" -> ty <> "groups" ->
  (exists e, main rt B data ty tableNames w
             = (Throw e, snd (initializeSnowflake rt B tableNames w)))
  /\ (forall l w1,
         initializeSnowflake rt B tableNames w = (Ok l, w1) ->
         forallb (fun i => i) l = true ->
         main rt B data ty tableNames w = (Throw (Error "Invalid Record Type"), w1))
  /\ (initialised w ->
      main rt B data ty tableNames w = (Throw (Error "Invalid Record Type"), w)).
Proof.
  intros H1 H2 H3. rewrite main_checks_kind_after_init by assumption.
  split; [|split].
  - destruct (initializeSnowflake rt B tableNames w) as [[l|e] w1]; simpl.
    + destruct (forallb _ l); eexists; reflexivity.
    + eexists; reflexivity.
  - intros l w1 -> ->. reflexivity.
  - intros Hready. now rewrite init_initialised.
Qed.

Lemma main_unknown_record_kind_witness :
  main sample_rt (sample_backend 0) [0%nat] "bogus" sample_tables sample_ready_world
  = (Throw (Error "Invalid Record Type"), sample_ready_world).
Proof.
  apply (main_unknown_record_kind sample_rt (sample_backend 0) [0%nat] "bogus"
           sample_tables sample_ready_world); try discriminate.
  unfold initialised. simpl. repeat split; discriminate.
Defined.

(** C1 as stated fails: on an adapter that has not been initialised,
    [main] with an unknown record kind connects and runs sixteen calls
    against the backend, fourteen of them statements, before it throws. *)
Lemma unknown_kind_calls_backend :
  let r := main sample_rt (sample_backend 0) [] "bogus" sample_tables
                (fresh_world (sample_env None None) []) in
  fst r = Throw (Error "Invalid Record Type")
  /\ length (trace (snd r)) = 16%nat
  /\ length (filter (fun c => is_execute c = true) (trace (snd r))) = 14%nat
  /\ flags (snd r) <> flags (fresh_world (sample_env None None) []).
Proof. vm_compute. repeat split; discriminate. Qed.

(** ** An empty batch *)

Section EmptyBatch.
Context (rt : Runtime) (B : Backend).

Lemma executeSQL_binds (sql : string) (payload : list JSValue) (w : World) :
  connection w = true ->
  executeSQL B sql (Some (JArr payload)) false w
  = (match be_execute B (trace w) sql (Some (JArr payload)) with
     | Rows rows => Ok (Rows rows)
     | Failed err =>
         if is_table_locked err then Throw (Error "TableLockedError")
         else Throw (DriverError err)
     end, add_call (CallExecute sql (Some (JArr payload))) w).
Proof.
  intros H. unfold executeSQL, bind, get, outside, ret, throw. rewrite H. simpl.
  destruct (be_execute B (trace w) sql (Some (JArr payload))) as [rows|err];
    [reflexivity|].
  destruct (is_table_locked err); reflexivity.
Qed.

Lemma shape_empty (schema : Schema) (hasVariant : bool) (w : World) :
  shape rt [] schema hasVariant w = (Ok (empty_payload rt hasVariant), w).
Proof. destruct hasVariant; reflexivity. Qed.

(** What [insertData] does with an empty batch. *)
Lemma insertData_empty (table : string) (schema : Schema) (w : World) :
  connection w = true ->
  let sql := fst (prepareInsertSQL schema table) in
  let payload := empty_payload rt (snd (prepareInsertSQL schema table)) in
  insertData rt B [] table schema w
  = (Ok match be_execute B (trace w) sql (Some payload) with
        | Rows rows =>
            mkInsertResult "success" (Some "snowflake") (rows_inserted rows)
                           (0 - rows_inserted rows) None None (Some (transport w))
        | Failed err =>
            let e := if is_table_locked err then Error "TableLockedError"
                     else DriverError err in
            mkInsertResult "error" (Some "snowflake") 0 0
                           (Some (exn_message e)) (Some e) None
        end,
     add_call (CallExecute sql (Some payload)) w).
Proof.
  intros Hc. unfold insertData.
  destruct (prepareInsertSQL schema table) as [sql hasVariant]. simpl.
  unfold bind at 1. rewrite shape_empty.
  unfold try_catch, bind at 1.
  assert (Hp : exists l, empty_payload rt hasVariant = JArr l)
    by (destruct hasVariant; eexists; reflexivity).
  destruct Hp as [l Hl]. rewrite Hl.
  rewrite executeSQL_binds by exact Hc.
  destruct (be_execute B (trace w) sql (Some (JArr l))) as [rows|err];
    [reflexivity|].
  destruct (is_table_locked err); reflexivity.
Qed.

Lemma insertWithRetry_returns (fn : Strategy) (batch : Batch) (table : string)
      (schema : Schema) (w w' : World) (r : InsertResult) (remaining : nat) :
  fn batch table schema w = (Ok r, w') ->
  insertWithRetry_from remaining fn batch table schema w = (Ok r, w').
Proof.
  intros H. destruct remaining; simpl; unfold try_catch; now rewrite H.
Qed.

Lemma getSnowflakeSchema_recognized (ty : string) :
  recognized ty -> getSnowflakeSchema rt ty = ret (kind_schema rt ty).
Proof.
  intros [-> | [-> | ->]]; reflexivity.
Qed.

Lemma target_table_recognized (ty : string) (t : TableNames) :
  recognized ty ->
  (if String.eqb ty "track" then ret (eventTable t)
   else if String.eqb ty "engage" then ret (userTable t)
   else if String.eqb ty "groups" then ret (groupTable t)
   else throw (Error "Invalid Record Type"))
  = (ret (kind_table ty t) : M string).
Proof.
  intros [-> | [-> | ->]]; reflexivity.
Qed.

Lemma main_empty_runs_insertData (ty : string) (tableNames : TableNames) (w : World) :
  initialised w -> connection w = true -> transport w = "insert" ->
  recognized ty ->
  (forall h schema, fst (schematizeForWarehouse rt h [] schema) = []) ->
  main rt B [] ty tableNames w
  = insertData rt B [] (kind_table ty tableNames) (kind_schema rt ty)
               (set_heap (snd (schematizeForWarehouse rt (heap w) [] (kind_schema rt ty)))
                         w).
Proof.
  intros Hready Hc Ht Hty Hempty. unfold main. unfold bind at 1.
  rewrite init_initialised by exact Hready. cbn [forallb andb].
  unfold bind at 1. unfold ret at 1.
  rewrite (target_table_recognized ty tableNames Hty).
  unfold bind at 1. unfold ret at 1.
  rewrite (getSnowflakeSchema_recognized ty Hty).
  unfold bind at 1. unfold ret at 1.
  unfold bind at 1. unfold get at 1.
  specialize (Hempty (heap w) (kind_schema rt ty)).
  destruct (schematizeForWarehouse rt (heap w) [] (kind_schema rt ty)) as [prepared h].
  simpl in Hempty. subst prepared. cbn [snd].
  unfold bind at 1. unfold modify at 1.
  unfold bind at 1. unfold get at 1.
  change (transport (set_heap h w)) with (transport w). rewrite Ht.
  cbn [strategy_of String.eqb]. unfold bind at 1. unfold ret at 1.
  unfold insertWithRetry.
  destruct (insertData rt B [] (kind_table ty tableNames) (kind_schema rt ty)
                       (set_heap h w)) as [[r|e] w'] eqn:E.
  - now apply insertWithRetry_returns.
  - rewrite insertData_empty in E by exact Hc. discriminate E.
Qed.

(** The statement [prepareInsertSQL] builds, in both its forms. *)
Lemma prepareInsertSQL_text (schema : Schema) (table : string) :
  prepareInsertSQL schema table
  = (if existsb is_variant schema
     then nl ++ spaces 12 ++ "INSERT INTO " ++ table ++
          nl ++ spaces 12 ++ "SELECT " ++ join ", " (map (projection "value") schema) ++
          nl ++ spaces 12 ++ "FROM TABLE(FLATTEN(PARSE_JSON(?)))" ++
          nl ++ spaces 8
     else "INSERT INTO " ++ table ++ " (" ++ join ", " (map name schema)
            ++ ") VALUES (" ++ join ", " (repeat "?" (length schema)) ++ ")",
     existsb is_variant schema).
Proof.
  unfold prepareInsertSQL. destruct (existsb is_variant schema).
  - now rewrite select_part_projection.
  - now rewrite join_question_marks.
Qed.

End EmptyBatch.




(** ** Creation statements *)

Lemma preserves_bind_post {S A C : Type} (R : S -> S -> Prop) `{!PreOrder R}
      (Q : A -> Prop) (m : ST S A) (k : A -> ST S C) :
  (forall w a w', m w = (Ok a, w') -> Q a) ->
  preserves R m -> (forall a, Q a -> preserves R (k a)) ->
  preserves R (bind m k).
Proof.
  intros HQ Hm Hk w. unfold bind. specialize (Hm w). specialize (HQ w).
  destruct (m w) as [[a|e] w']; simpl in *; [|exact Hm].
  transitivity w'; [exact Hm | apply Hk; eapply HQ; reflexivity].
Qed.

Lemma strip_prefix_blocked (p : string) :
  no_dot p = true -> p <> "" ->
  forall db rest,
    String.prefix p db = false -> strip_prefix p (db ++ "." ++ rest) = None.
Proof.
  induction p as [|a p IH]; intros Hdot Hne db rest Hpre; [congruence|].
  simpl in Hdot. apply andb_prop in Hdot as [Ha Hdot].
  destruct db as [|b db].
  - simpl. now rewrite (proj1 (negb_true_iff _) Ha).
  - cbn [String.prefix] in Hpre. simpl.
    destruct (ascii_dec a b) as [<-|Hab].
    + rewrite Ascii.eqb_refl. apply IH; [exact Hdot| |exact Hpre].
      intros ->. destruct db; discriminate Hpre.
    + apply Ascii.eqb_neq in Hab. now rewrite Hab.
Qed.

Lemma createSchemaQuery_form (databaseName schemaName : string) :
  String.prefix "IF NOT EXISTS " databaseName = false ->
  create_form (createSchemaQuery databaseName schemaName) = Some CreatePlain.
Proof.
  intros H.
  assert (E : create_form (createSchemaQuery databaseName schemaName)
              = match strip_prefix "IF NOT EXISTS " (databaseName ++ "." ++ schemaName) with
                | Some _ => Some CreateIfNotExists
                | None => Some CreatePlain
                end) by reflexivity.
  rewrite E, (strip_prefix_blocked "IF NOT EXISTS ");
    [reflexivity | reflexivity | discriminate | exact H].
Qed.

Lemma or_replace_not_if_absent : ~ create_if_absent CreateOrReplace.
Proof.
  intros H.
  pose (m := ({["t" := ["row"]]} : gmap string (list string))).
  specialize (H "t" m).
  unfold run_create in H. unfold m in H at 1 2. rewrite lookup_singleton_eq in H.
  specialize (H (ltac:(eexists; reflexivity))).
  assert (Heq : <["t" := []]> m = m) by congruence.
  assert (Hl : (<["t" := []]> m) !! "t" = m !! "t") by now rewrite Heq.
  rewrite lookup_insert_eq in Hl. unfold m in Hl.
  rewrite lookup_singleton_eq in Hl. discriminate Hl.
Qed.

Lemma plain_not_if_absent : ~ create_if_absent CreatePlain.
Proof.
  intros H.
  specialize (H "t" {["t" := ["row"]]}).
  unfold run_create in H. rewrite lookup_singleton_eq in H.
  specialize (H (ltac:(eexists; reflexivity))). discriminate H.
Qed.

Section TableGuard.
Context (rt : Runtime) (B : Backend).
Hypothesis present : tables_present B.

Lemma checkIfTableExists_reports (tableName : string) (w w' : World) (a : bool) :
  checkIfTableExists B tableName w = (Ok a, w') -> a = true.
Proof.
  unfold checkIfTableExists, exec, executeSQL, bind, get, outside, ret, throw.
  destruct (connection w); [|discriminate]. simpl.
  destruct (present (trace w) ("SHOW TABLES LIKE '" ++ tableName ++ "'"))
    as (x & l & ->); [reflexivity|].
  now intros [= <- _].
Qed.

Lemma verifyOrCreateTables_guarded (tableNames : list (string * string)) :
  preserves (steps creates_nothing) (verifyOrCreateTables rt B tableNames).
Proof.
  induction tableNames as [|[ty table] rest IH]; simpl; [pret|].
  apply (preserves_bind_post _ (fun a => a = true));
    [intros w a w'; apply checkIfTableExists_reports
    | apply checkIfTableExists_steps |].
  intros a ->. preserves_step; [pret|].
  preserves_step; [apply waitForTableToBeReady_steps|].
  preserves_step; [exact IH | pret].
Qed.

End TableGuard.




(** ** Dropping the resources *)

(** *** Sequences of calls *)

Lemma add_calls_connection (l : list Call) :
  forall w, connection (add_calls l w) = connection w.
Proof.
  unfold add_calls. induction l as [|c l IH]; intros w; simpl; [reflexivity|].
  now rewrite IH.
Qed.

Lemma add_calls_trace (l : list Call) :
  forall w, trace (add_calls l w) = (trace w ++ l)%list.
Proof.
  unfold add_calls. induction l as [|c l IH]; intros w; simpl.
  - now rewrite app_nil_r.
  - rewrite IH. simpl. now rewrite <- app_assoc.
Qed.

Lemma add_calls_vars (l : list Call) :
  forall w, vars (add_calls l w) = vars w.
Proof.
  unfold add_calls. induction l as [|c l IH]; intros w; [reflexivity|].
  simpl. now rewrite IH.
Qed.

Lemma add_calls_app (l1 l2 : list Call) (w : World) :
  add_calls (l1 ++ l2) w = add_calls l2 (add_calls l1 w).
Proof. unfold add_calls. apply fold_left_app. Qed.

Section Drop.
Context (B : Backend).

Lemma drop_round_spec (P : Call -> Prop) (mk : string -> string) :
  (forall table b, P (CallExecute (mk table) b)) ->
  forall live results rejected w,
  exists live' results' rejected' w',
    drop_round B mk live results rejected w = (Ok (live', results', rejected'), w')
    /\ steps P w w'
    /\ (rejected <> None -> rejected' <> None)
    /\ (rejected' = None ->
        live' = live /\ length results' = (length results + length live)%nat).
Proof.
  intros HP. induction live as [|table rest IH]; intros results rejected w.
  - exists [], results, rejected, w.
    split; [reflexivity|]. split; [reflexivity|]. split; [auto|].
    intros _. split; [reflexivity | simpl; lia].
  - pose proof (executeSQL_steps B P (mk table) None false
                  (fun b => HP table b) w) as Hstep.
    cbn [drop_round]. cbv beta delta [bind try_catch drop_statement exec].
    destruct (executeSQL B (mk table) None false w) as [[reply|e] w1];
      simpl in Hstep.
    + assert (Hinl : exists s, (match reply with
                                | Rows rows => ret (js_prop "status" (js_index0 rows))
                                | Failed _ => ret JUndefined
                                end) w1 = (Ok s, w1))
        by (destruct reply; eexists; reflexivity).
      destruct Hinl as [s ->]. cbv beta iota delta [ret].
      destruct (IH (results ++ [s])%list rejected w1)
        as (live' & results' & rejected' & w' & Hrun & Hs & Hrej & Hnone).
      rewrite Hrun.
      exists (table :: live'), results', rejected', w'.
      split; [reflexivity|]. split; [now transitivity w1|]. split; [exact Hrej|].
      intros Hn. destruct (Hnone Hn) as [-> Hlen]. split; [reflexivity|].
      rewrite Hlen, length_app. simpl. lia.
    + cbv beta iota delta [ret].
      destruct (IH results
                   (match rejected with Some e1 => Some e1 | None => Some e end) w1)
        as (live' & results' & rejected' & w' & Hrun & Hs & Hrej & Hnone).
      rewrite Hrun.
      exists live', results', rejected', w'.
      split; [reflexivity|]. split; [now transitivity w1|].
      assert (Hsome : rejected' <> None) by (apply Hrej; now destruct rejected).
      split; [intros _; exact Hsome|]. intros Hn. contradiction.
Qed.

End Drop.

Lemma first_refusal_app (B : Backend) (l1 l2 : list Call) :
  forall t,
    first_refusal B t (l1 ++ l2)
    = match first_refusal B t l1 with
      | Some e => Some e
      | None => first_refusal B (t ++ l1) l2
      end.
Proof.
  induction l1 as [|c l1 IH]; intros t; cbn [app first_refusal].
  - now rewrite app_nil_r.
  - assert (Hnext : first_refusal B (t ++ [c]) (l1 ++ l2)
                    = match first_refusal B (t ++ [c]) l1 with
                      | Some e => Some e
                      | None => first_refusal B (t ++ c :: l1) l2
                      end).
    { rewrite IH. now rewrite <- app_assoc. }
    destruct c; try exact Hnext.
    destruct (be_execute B t sqlText binds); [exact Hnext | reflexivity].
Qed.

Lemma values_length (tableNames : TableNames) : length (values tableNames) = 3%nat.
Proof. unfold values, entries. destruct (keyOrder tableNames); reflexivity. Qed.

Section DropReplay.
Context (B : Backend).

(** One round of the mappers, statement by statement. *)
Lemma drop_round_replay (P : Call -> Prop) (mk : string -> string) :
  (forall table, P (CallExecute (mk table) None)) ->
  forall live results rejected w,
    connection w = true ->
    exists live' results' rejected' l,
      drop_round B mk live results rejected w
      = (Ok (live', results', rejected'), add_calls l w)
      /\ Forall P l
      /\ rejected' = match rejected with
                     | Some e => Some e
                     | None => first_refusal B (trace w) l
                     end
      /\ (rejected' = None ->
          live' = live
          /\ length results' = (length results + length live)%nat
          /\ length l = length live).
Proof.
  intros HP. induction live as [|table rest IH]; intros results rejected w Hc.
  - exists [], results, rejected, []. split; [reflexivity|]. split; [constructor|].
    split; [now destruct rejected|]. intros _. simpl. repeat split; lia.
  - cbn [drop_round]. cbv beta delta [bind try_catch drop_statement exec].
    rewrite executeSQL_connected by exact Hc.
    set (c := CallExecute (mk table) None).
    destruct (be_execute B (trace w) (mk table) None) as [rows|err] eqn:E.
    + cbv beta iota delta [ret].
      destruct (IH (results ++ [js_prop "status" (js_index0 rows)])%list rejected
                   (add_call c w) Hc)
        as (live' & results' & rejected' & l & Hrun & HPl & Hrej & Hnone).
      rewrite Hrun.
      exists (table :: live'), results', rejected', (c :: l).
      split; [reflexivity|]. split; [constructor; [apply HP | exact HPl]|].
      split.
      * rewrite Hrej. destruct rejected; [reflexivity|].
        cbn [first_refusal]. unfold c at 2. now rewrite E.
      * intros Hn. destruct (Hnone Hn) as (-> & Hlen & Hl).
        split; [reflexivity|]. rewrite Hlen, length_app. simpl. lia.
    + assert (He : (if is_table_locked err
                    then Throw (Error "TableLockedError")
                    else Throw (DriverError err))
                   = (Throw (rejection err) : Outcome Reply))
        by (unfold rejection; destruct (is_table_locked err); reflexivity).
      rewrite He. cbv beta iota delta [ret].
      destruct (IH results
                   (match rejected with
                    | Some e0 => Some e0
                    | None => Some (rejection err)
                    end) (add_call c w) Hc)
        as (live' & results' & rejected' & l & Hrun & HPl & Hrej & Hnone).
      rewrite Hrun.
      exists live', results', rejected', (c :: l).
      split; [reflexivity|]. split; [constructor; [apply HP | exact HPl]|].
      assert (Hsome : rejected' = match rejected with
                                  | Some e => Some e
                                  | None => Some (rejection err)
                                  end)
        by (rewrite Hrej; now destruct rejected).
      split.
      * rewrite Hsome. destruct rejected; [reflexivity|].
        cbn [first_refusal]. unfold c. now rewrite E.
      * intros Hn. rewrite Hn in Hsome. now destruct rejected.
Qed.

End DropReplay.

Section DropTables.
Context (B : Backend).

Lemma dropTables_returns (tableNames : TableNames) (w w' : World) (v : JSValue) :
  dropTables B tableNames w = (Ok v, w') ->
  exists statuses, length statuses = 10%nat /\ v = drop_summary statuses.
Proof.
  unfold dropTables. cbv beta iota delta [bind get].
  set (pipe := tpl (snowflake_pipe (vars w))).
  set (task := tpl (snowflake_task (vars w))).
  destruct (drop_round_spec B any_call (fun table => "DROP TABLE IF EXISTS " ++ table)
              (fun _ _ => I) (values tableNames) [] None w)
    as (live1 & results1 & rejected1 & w1 & Hrun1 & _ & _ & Hnone1).
  rewrite Hrun1. cbv beta iota.
  destruct (drop_round_spec B any_call
              (fun table => "DROP PIPE IF EXISTS " ++ pipe ++ "_" ++ table)
              (fun _ _ => I) live1 results1 rejected1 w1)
    as (live2 & results2 & rejected2 & w2 & Hrun2 & _ & Hrej2 & Hnone2).
  rewrite Hrun2. cbv beta iota.
  destruct (drop_round_spec B any_call
              (fun table => "DROP TASK IF EXISTS " ++ task ++ "_" ++ table ++ "_task")
              (fun _ _ => I) live2 results2 rejected2 w2)
    as (live3 & results3 & rejected3 & w3 & Hrun3 & _ & Hrej3 & Hnone3).
  rewrite Hrun3. cbv beta iota.
  destruct rejected3 as [e|]; [discriminate|].
  assert (H2 : rejected2 = None).
  { destruct rejected2; [|reflexivity]. exfalso. now apply Hrej3. }
  assert (H1 : rejected1 = None).
  { destruct rejected1; [|reflexivity]. exfalso. now apply Hrej2. }
  destruct (Hnone1 H1) as [E1 L1]. destruct (Hnone2 H2) as [E2 L2].
  destruct (Hnone3 eq_refl) as [_ L3].
  destruct (drop_statement B _ w3) as [[s|e] w4]; [|discriminate].
  unfold ret. intros [= <- <-].
  exists (results3 ++ [s])%list. split; [|reflexivity].
  rewrite length_app, L3, L2, L1, E2, E1, values_length. reflexivity.
Qed.

(** Every run of [dropTables] on a connected adapter, statement by
    statement. *)
Lemma dropTables_replay (tableNames : TableNames) (w : World) :
  connection w = true ->
  exists calls,
    snd (dropTables B tableNames w) = add_calls calls w
    /\ Forall drop_call calls
    /\ (forall e, first_refusal B (trace w) calls = Some e ->
                  fst (dropTables B tableNames w) = Throw e)
    /\ (first_refusal B (trace w) calls = None ->
        length calls = 10%nat
        /\ exists statuses,
            length statuses = 10%nat
            /\ fst (dropTables B tableNames w) = Ok (drop_summary statuses))
    /\ (forall c, In c calls -> is_drop_stage c = true ->
                  length calls = 10%nat
                  /\ first_refusal B (trace w) (removelast calls) = None).
Proof.
  intros Hc.
  set (pipe := tpl (snowflake_pipe (vars w))).
  set (task := tpl (snowflake_task (vars w))).
  set (P := fun c : Call => drop_call c /\ is_drop_stage c = false).
  assert (Htable : forall table, P (CallExecute ("DROP TABLE IF EXISTS " ++ table) None)).
  { intros table. split; [|reflexivity].
    exists "TABLE", table. split; [simpl; tauto | reflexivity]. }
  assert (Hpipe : forall table,
             P (CallExecute ("DROP PIPE IF EXISTS " ++ pipe ++ "_" ++ table) None)).
  { intros table. split; [|reflexivity].
    exists "PIPE", (pipe ++ "_" ++ table). split; [simpl; tauto | reflexivity]. }
  assert (Htask : forall table,
             P (CallExecute ("DROP TASK IF EXISTS " ++ task ++ "_" ++ table ++ "_task")
                            None)).
  { intros table. split; [|reflexivity].
    exists "TASK", (task ++ "_" ++ table ++ "_task").
    split; [simpl; tauto | reflexivity]. }
  destruct (drop_round_replay B P (fun table => "DROP TABLE IF EXISTS " ++ table)
              Htable (values tableNames) [] None w Hc)
    as (live1 & results1 & rejected1 & l1 & Hrun1 & P1 & R1 & N1).
  destruct (drop_round_replay B P
              (fun table => "DROP PIPE IF EXISTS " ++ pipe ++ "_" ++ table)
              Hpipe live1 results1 rejected1 (add_calls l1 w))
    as (live2 & results2 & rejected2 & l2 & Hrun2 & P2 & R2 & N2);
    [now rewrite add_calls_connection|].
  destruct (drop_round_replay B P
              (fun table => "DROP TASK IF EXISTS " ++ task ++ "_" ++ table ++ "_task")
              Htask live2 results2 rejected2 (add_calls l2 (add_calls l1 w)))
    as (live3 & results3 & rejected3 & l3 & Hrun3 & P3 & R3 & N3);
    [now rewrite !add_calls_connection|].
  rewrite <- !add_calls_app in Hrun3. rewrite <- add_calls_app in Hrun2.
  rewrite add_calls_trace in R2. rewrite <- add_calls_app, add_calls_trace in R3.
  assert (Hthree : rejected3 = first_refusal B (trace w) ((l1 ++ l2) ++ l3)).
  { rewrite !first_refusal_app, <- R1.
    rewrite R3, R2. destruct rejected1; reflexivity. }
  assert (P123 : Forall P ((l1 ++ l2) ++ l3))
    by (apply Forall_app; split; [apply Forall_app; split|]; assumption).
  assert (Hrun : dropTables B tableNames w
                 = match rejected3 with
                   | Some e => (Throw e, add_calls ((l1 ++ l2) ++ l3) w)
                   | None =>
                       bind (drop_statement B
                               ("DROP STAGE IF EXISTS " ++ tpl (snowflake_stage (vars w))))
                            (fun s =>
                               ret (drop_summary (results3 ++ [s])%list))
                            (add_calls ((l1 ++ l2) ++ l3) w)
                   end).
  { unfold dropTables. cbv beta iota delta [bind get].
    fold pipe. fold task. rewrite Hrun1. cbv beta iota.
    rewrite Hrun2. cbv beta iota. rewrite Hrun3. cbv beta iota.
    destruct rejected3; [reflexivity|].
    rewrite add_calls_vars. reflexivity. }
  destruct rejected3 as [e|].
  - exists ((l1 ++ l2) ++ l3)%list. rewrite Hrun. cbn [fst snd].
    split; [reflexivity|].
    split; [eapply Forall_impl; [exact P123 | intros c Hp; apply Hp]|].
    split; [intros e' He'; congruence|].
    split; [intros Hn; congruence|].
    intros c Hin Hstage. exfalso.
    rewrite List.Forall_forall in P123. destruct (P123 c Hin) as [_ Hns]. congruence.
  - destruct (N3 eq_refl) as (-> & Len3 & L3).
    assert (H2 : rejected2 = None) by (rewrite R3 in Hthree |- *; now destruct rejected2).
    destruct (N2 H2) as (-> & Len2 & L2).
    assert (H1 : rejected1 = None) by (rewrite R2 in H2; now destruct rejected1).
    destruct (N1 H1) as (-> & Len1 & L1).
    set (l := ((l1 ++ l2) ++ l3)%list) in *.
    set (stage := CallExecute ("DROP STAGE IF EXISTS " ++ tpl (snowflake_stage (vars w)))
                              None).
    assert (Hlen : length l = 9%nat).
    { unfold l. rewrite !length_app, L1, L2, L3, values_length. reflexivity. }
    assert (Hstage : drop_call stage).
    { exists "STAGE", (tpl (snowflake_stage (vars w))).
      split; [simpl; tauto | reflexivity]. }
    exists (l ++ [stage])%list. rewrite Hrun.
    cbv beta delta [bind drop_statement exec].
    rewrite executeSQL_connected by (now rewrite add_calls_connection).
    fold stage. rewrite add_calls_trace.
    assert (Hfirst : first_refusal B (trace w) (l ++ [stage])
                     = match be_execute B (trace w ++ l)
                               ("DROP STAGE IF EXISTS " ++ tpl (snowflake_stage (vars w)))
                               None with
                       | Failed err => Some (rejection err)
                       | Rows _ => None
                       end).
    { rewrite first_refusal_app, <- Hthree. unfold stage. cbn [first_refusal].
      destruct (be_execute B _ _ None); reflexivity. }
    rewrite Hfirst.
    assert (Hall : Forall drop_call (l ++ [stage])).
    { apply Forall_app. split.
      - eapply Forall_impl; [exact P123 | intros c Hp; apply Hp].
      - constructor; [exact Hstage | constructor]. }
    assert (Hten : length (l ++ [stage]) = 10%nat)
      by (rewrite length_app, Hlen; reflexivity).
    destruct (be_execute B (trace w ++ l) _ None) as [rows|err].
    + cbv beta iota delta [ret]. cbn [fst snd].
      split; [now rewrite add_calls_app|]. split; [exact Hall|].
      split; [discriminate|].
      split.
      * intros _. split; [exact Hten|].
        exists (results3 ++ [js_prop "status" (js_index0 rows)])%list.
        split; [|reflexivity].
        rewrite length_app, Len3, Len2, Len1, values_length. reflexivity.
      * intros c _ _. split; [exact Hten|].
        rewrite removelast_last. now rewrite <- Hthree.
    + assert (He : (if is_table_locked err
                    then Throw (Error "TableLockedError")
                    else Throw (DriverError err))
                   = (Throw (rejection err) : Outcome Reply))
        by (unfold rejection; destruct (is_table_locked err); reflexivity).
      rewrite He. cbn [fst snd].
      split; [now rewrite add_calls_app|]. split; [exact Hall|].
      split; [intros e [= <-]; reflexivity|].
      split; [discriminate|].
      intros c _ _. split; [exact Hten|].
      rewrite removelast_last. now rewrite <- Hthree.
Qed.

End DropTables.




(** ** The S3 adapter's credential check *)

(** C7 at the failing input.  The client cannot list the bucket, so
    [verifyS3Credentials] catches the error and returns its message; the
    message is a non-empty string, so [initializeS3] takes it for
    success: it returns normally, with the message in the list, and a
    second call returns again without verifying anything. *)
Lemma initializeS3_accepts_failed_verification :
  let first := S3.initializeS3 sample_rt s3_no_list sample_tables
                               (S3.fresh_world s3_env) in
  let second := S3.initializeS3 sample_rt s3_no_list sample_tables (snd first) in
  fst first = Ok [JStr "Access Denied"]
  /\ hd_error (S3.trace (snd first)) = Some (S3.ListObjectsV2 (Some "my_bucket"))
  /\ S3.isClientReady (snd first) = JStr "Access Denied"
  /\ fst second = Ok [JStr "Access Denied"]
  /\ S3.trace (snd second) = S3.trace (snd first).
Proof. vm_compute. repeat split; reflexivity. Qed.

Section S3Credentials.
Context (rt : Runtime) (B : S3.Backend).

Lemma s3_call_keeps (c : S3.Call) : preserves (keeps S3.isClientReady) (S3.call B c).
Proof.
  intros w. unfold S3.call, keeps.
  destruct (B (S3.trace w) c); reflexivity.
Qed.

Lemma verifyReadAndWritePermissions_keeps :
  preserves (keeps S3.isClientReady) (S3.verifyReadAndWritePermissions rt B).
Proof.
  unfold S3.verifyReadAndWritePermissions.
  preserves_step; [apply s3_call_keeps|].
  destruct (truthy a); [|pret].
  preserves_step; [pget|]. preserves_step; [|pret].
  preserves_step; [|pret].
  repeat (preserves_step; [apply s3_call_keeps|]).
  destruct (S3.strict_eq _ _); [|pret].
  repeat (preserves_step; [apply s3_call_keeps|]). pret.
Qed.

Lemma verifyS3Credentials_refused (w : S3.World) (msg : string) :
  B (S3.trace w) (S3.ListObjectsV2 (S3.s3_bucket (S3.vars w))) = S3.Rejected msg ->
  S3.verifyS3Credentials B w
  = (Ok (JStr msg),
     S3.add_call (S3.ListObjectsV2 (S3.s3_bucket (S3.vars w))) (S3.set_s3 true w)).
Proof.
  intros H. unfold S3.verifyS3Credentials.
  cbv beta iota delta [bind modify get try_catch S3.call].
  cbn [S3.trace S3.set_s3 S3.vars]. now rewrite H.
Qed.

(** The same for every backend: once the listing is refused with a
    non-empty message, the readiness variable holds the message, and a
    call that returns returns it. *)
Lemma initializeS3_keeps_message (tableNames : TableNames) (w : S3.World)
      (msg : string) :
  truthy (S3.isClientReady w) = false ->
  B (S3.trace w) (S3.ListObjectsV2 (S3.s3_bucket (S3.process_env w)))
  = S3.Rejected msg ->
  msg <> "" ->
  S3.isClientReady (snd (S3.initializeS3 rt B tableNames w)) = JStr msg
  /\ (forall l w', S3.initializeS3 rt B tableNames w = (Ok l, w') -> l = [JStr msg]).
Proof.
  intros Hready Hlist Hmsg. apply String.eqb_neq in Hmsg.
  set (rest := (w3 <- get ;;
                (if S3.canWriteToBucket w3 then ret tt
                 else
                   writable <- S3.verifyReadAndWritePermissions rt B ;;
                   modify (S3.set_canWriteToBucket writable) ;;;
                   if writable : bool then ret tt
                   else throw (Error "Could not verify read/write bucket permissions."))
                ;;; w4 <- get ;; ret [S3.isClientReady w4]) : S3.M (list JSValue)).
  set (w0 := S3.set_vars (S3.process_env w) w).
  set (w2 := S3.set_isClientReady (JStr msg)
               (S3.add_call (S3.ListObjectsV2 (S3.s3_bucket (S3.vars w0)))
                            (S3.set_s3 true w0))).
  assert (Heq : S3.initializeS3 rt B tableNames w = rest w2).
  { unfold S3.initializeS3. unfold bind at 1. unfold modify at 1. fold w0.
    unfold bind at 1. unfold get at 1.
    change (S3.isClientReady w0) with (S3.isClientReady w). rewrite Hready.
    unfold bind at 1. unfold bind at 1.
    rewrite (verifyS3Credentials_refused w0 msg) by exact Hlist.
    unfold bind at 1. unfold modify at 1.
    cbn [truthy]. rewrite Hmsg. cbn [negb]. unfold ret at 1. reflexivity. }
  rewrite Heq. clear Heq.
  assert (Hrest : preserves (keeps S3.isClientReady) rest).
  { unfold rest.
    preserves_step; [pget|]. preserves_step; [|preserves_step; [pget | pret]].
    destruct (S3.canWriteToBucket a); [pret|].
    preserves_step; [apply verifyReadAndWritePermissions_keeps|].
    preserves_step; [apply preserves_modify; intros []; reflexivity|].
    destruct a0; [pret | pthrow]. }
  specialize (Hrest w2). unfold keeps in Hrest. simpl in Hrest.
  split; [exact Hrest|].
  intros l w' Hrun. rewrite Hrun in Hrest. simpl in Hrest.
  revert Hrun. unfold rest. unfold bind at 1. unfold get at 1. unfold bind at 1.
  match goal with
  | |- context [let (_, _) := ?x in _] => destruct x as [[[]|e] w3]
  end; [|discriminate].
  unfold bind, get, ret. intros [= <- <-]. now rewrite Hrest.
Qed.

End S3Credentials.

(** ** The blocks of [initializeSnowflake], one by one *)

Ltac view_steps :=
  eapply (preserves_weaken (steps any_call));
  [ intros ? ? (HE & HV & HF & HT & HH & _);
    unfold keeps, but_connection, but_dataset, but_tables, but_stage, but_pipe,
      but_snowpipe;
    rewrite ?HE, ?HV, ?HF, ?HT, ?HH; reflexivity | ].

Ltac view_modify := apply preserves_modify; intros []; reflexivity.

Section Blocks.
Context (rt : Runtime) (B : Backend).

Lemma ensure_connection_frame : preserves (keeps but_connection) (ensure_connection B).
Proof.
  unfold ensure_connection. preserves_step; [pget|].
  destruct (isConnectionReady (flags a)); [pret|].
  preserves_step; [view_steps; apply createSnowflakeConnection_steps|].
  preserves_step; [view_modify|].
  preserves_step; [destruct a0; [pret | pthrow]|].
  preserves_step; [view_steps; now apply outside_steps|].
  preserves_step; [view_modify|].
  preserves_step; [view_steps; apply getCurrentUser_steps|].
  destruct a3; [pret | pthrow].
Qed.

Lemma ensure_dataset_frame : preserves (keeps but_dataset) (ensure_dataset rt B).
Proof.
  unfold ensure_dataset. preserves_step; [pget|].
  destruct (isDatasetReady (flags a)); [pret|].
  preserves_step; [view_steps; apply verifyOrCreateDatabase_steps|].
  preserves_step; [view_modify|].
  destruct a0; [pret | pthrow].
Qed.

Lemma ensure_tables_frame (tableNames : TableNames) :
  preserves (keeps but_tables) (ensure_tables rt B tableNames).
Proof.
  unfold ensure_tables. preserves_step; [pget|].
  destruct (areTablesReady (flags a)); [pret|].
  preserves_step; [view_steps; apply verifyOrCreateTables_steps|].
  preserves_step; [view_modify|].
  preserves_step; [destruct (forallb _ _); [pret | pthrow]|].
  view_modify.
Qed.

Lemma optional_stage_frame : preserves (keeps but_stage) (optional_stage B).
Proof.
  unfold optional_stage. preserves_step; [pget|].
  destruct (is_set _ && negb _); [|pret].
  preserves_step; [view_steps; apply verifyOrCreateStage_steps|].
  preserves_step; [view_modify|].
  preserves_step; [view_modify | pret].
Qed.

Lemma optional_pipe_frame (tableNames : TableNames) :
  preserves (keeps but_pipe) (optional_pipe rt B tableNames).
Proof.
  unfold optional_pipe. preserves_step; [pget|].
  destruct (isPipeReady (flags a)); [pret|].
  preserves_step; [view_steps; apply verifyOrCreatePipe_steps|].
  preserves_step; [view_modify|].
  preserves_step; [view_modify | pret].
Qed.

Lemma optional_snowpipe_frame : preserves (keeps but_snowpipe) (optional_snowpipe B).
Proof.
  unfold optional_snowpipe. preserves_step; [pget|].
  destruct (isSnowPipeReady (flags a)); [pret|].
  preserves_step; [view_steps; apply createSnowpipeConnection_steps|].
  preserves_step; [view_modify | pret].
Qed.

(** What each block has established when it returns. *)

Lemma ensure_connection_post (w w1 : World) (u : unit) :
  ensure_connection B w = (Ok u, w1) -> isConnectionReady (flags w1) = true.
Proof.
  unfold ensure_connection. cbv beta iota delta [bind get].
  destruct (isConnectionReady (flags w)) eqn:F; [now intros [= _ <-]|].
  destruct (createSnowflakeConnection B w) as [[[]|e] wa]; cbv beta iota delta [modify ret throw];
    try discriminate.
  unfold outside.
  set (wb := add_call CallIsValid _).
  set (valid := be_isValid B _).
  pose proof (getCurrentUser_steps B (set_isConnectionReady valid wb)) as (_ & _ & HF & _).
  destruct (getCurrentUser B (set_isConnectionReady valid wb)) as [[v|e] wc];
    [|discriminate].
  simpl in HF. destruct valid; [|discriminate].
  intros [= _ <-]. now rewrite HF.
Qed.

Lemma ensure_dataset_post (w w1 : World) (u : unit) :
  ensure_dataset rt B w = (Ok u, w1) -> isDatasetReady (flags w1) = true.
Proof.
  unfold ensure_dataset. cbv beta iota delta [bind get].
  destruct (isDatasetReady (flags w)) eqn:F; [now intros [= _ <-]|].
  destruct (verifyOrCreateDatabase rt B w) as [[[]|e] wa]; cbv beta iota delta [modify ret throw];
    try discriminate.
  now intros [= _ <-].
Qed.

Lemma ensure_tables_post (tableNames : TableNames) (w w1 : World) (u : unit) :
  ensure_tables rt B tableNames w = (Ok u, w1) ->
  areTablesReady (flags w1) = true
  /\ transport w1 = if areTablesReady (flags w) then transport w else "insert".
Proof.
  unfold ensure_tables. cbv beta iota delta [bind get].
  destruct (areTablesReady (flags w)) eqn:F; [now intros [= _ <-]|].
  destruct (verifyOrCreateTables rt B _ w) as [[results|e] wa];
    cbv beta iota delta [modify ret throw]; [|discriminate].
  destruct (forallb (fun r => r) results); [|discriminate].
  now intros [= _ <-].
Qed.

Lemma verifyOrCreateStage_true (w w1 : World) (b : bool) :
  verifyOrCreateStage B w = (Ok b, w1) -> b = true.
Proof.
  unfold verifyOrCreateStage, exec, require_array. cbv beta iota delta [bind get ret throw].
  destruct (executeSQL B _ None false w) as [[[[| | | | |found|]|err]|e] wa];
    try discriminate.
  destruct found as [|x found]; [|now intros [= <- _]].
  repeat (match goal with
          | |- context [executeSQL B ?sql None false ?w0] =>
              destruct (executeSQL B sql None false w0) as [[?|?] ?]
          end; try discriminate).
  now intros [= <- _].
Qed.

Lemma optional_stage_post (w w1 : World) (l : list bool) :
  optional_stage B w = (Ok l, w1) ->
  forallb (fun i => i) l = true
  /\ (is_set (snowflake_stage (vars w)) = true -> isStageReady (flags w1) = true)
  /\ transport w1
     = if is_set (snowflake_stage (vars w)) && negb (isStageReady (flags w))
       then "copy" else transport w.
Proof.
  unfold optional_stage. cbv beta iota delta [bind get].
  destruct (is_set (snowflake_stage (vars w))) eqn:S;
    destruct (isStageReady (flags w)) eqn:F; cbn [andb negb];
    try (intros [= <- <-]; repeat split; auto; discriminate).
  destruct (verifyOrCreateStage B w) as [[b|e] wa] eqn:E; [|discriminate].
  apply verifyOrCreateStage_true in E. subst b.
  cbv beta iota delta [modify ret]. intros [= <- <-]. now repeat split.
Qed.

Lemma optional_pipe_post (tableNames : TableNames) (w w1 : World) (l : list bool) :
  optional_pipe rt B tableNames w = (Ok l, w1) ->
  forallb (fun i => i) l = true
  /\ isPipeReady (flags w1) = true
  /\ transport w1 = if isPipeReady (flags w) then transport w else "pipe".
Proof.
  unfold optional_pipe. cbv beta iota delta [bind get].
  destruct (isPipeReady (flags w)) eqn:F; [now intros [= <- <-]|].
  unfold verifyOrCreatePipe. cbv beta iota delta [bind].
  destruct (verifyOrCreatePipe_loop rt B _ w) as [[[]|e] wa]; [|discriminate].
  cbv beta iota delta [modify ret]. intros [= <- <-]. now repeat split.
Qed.

Lemma optional_snowpipe_post (w w1 : World) (l : list bool) :
  optional_snowpipe B w = (Ok l, w1) ->
  isSnowPipeReady (flags w1) = forallb (fun i => i) l.
Proof.
  unfold optional_snowpipe. cbv beta iota delta [bind get].
  destruct (isSnowPipeReady (flags w)) eqn:F; [now intros [= <- <-]|].
  destruct (createSnowpipeConnection B w) as [[b|e] wa]; [|discriminate].
  cbv beta iota delta [modify ret]. intros [= <- <-]. simpl. now rewrite andb_true_r.
Qed.

End Blocks.

(** ** What a returned [initializeSnowflake] has established *)

Section InitPost.
Context (rt : Runtime) (B : Backend).

Lemma init_run (tableNames : TableNames) (w w' : World) (l : list bool) :
  initializeSnowflake rt B tableNames w = (Ok l, w') ->
  exists w3 w4 lstage lpipe,
    but_tables w3
    = (process_env w, process_env w, heap w, true, true,
       isStageReady (flags w), isPipeReady (flags w), isSnowPipeReady (flags w))
    /\ areTablesReady (flags w3) = true
    /\ transport w3 = (if areTablesReady (flags w) then transport w else "insert")
    /\ optional_stage B w3 = (Ok lstage, w4)
    /\ (if is_set (snowflake_pipe (process_env w))
        then exists w5 l5 l6,
            optional_pipe rt B tableNames w4 = (Ok l5, w5)
            /\ optional_snowpipe B w5 = (Ok l6, w')
            /\ lpipe = (l5 ++ l6)%list
        else lpipe = [] /\ w' = w4)
    /\ l = (true :: true :: true :: lstage ++ lpipe)%list.
Proof.
  unfold initializeSnowflake. unfold bind at 1. unfold modify at 1.
  set (w0 := set_vars (process_env w) w).
  unfold bind at 1.
  pose proof (ensure_connection_frame B w0) as K1.
  destruct (ensure_connection B w0) as [[u1|e] w1] eqn:E1; [|discriminate].
  apply ensure_connection_post in E1.
  unfold bind at 1.
  pose proof (ensure_dataset_frame rt B w1) as K2.
  destruct (ensure_dataset rt B w1) as [[u2|e] w2] eqn:E2; [|discriminate].
  apply ensure_dataset_post in E2.
  unfold bind at 1.
  pose proof (ensure_tables_frame rt B tableNames w2) as K3.
  destruct (ensure_tables rt B tableNames w2) as [[u3|e] w3] eqn:E3; [|discriminate].
  apply ensure_tables_post in E3 as [E3 T3].
  unfold keeps in K1, K2, K3. simpl in K1, K2, K3.
  unfold but_connection in K1. unfold but_dataset in K2. unfold but_tables in K3.
  simpl in K1.
  injection K1 as Ke1 Kv1 Kt1 Kh1 Kd1 Ka1 Ks1 Kp1 Ksp1.
  injection K2 as Ke2 Kv2 Kt2 Kh2 Kc2 Ka2 Ks2 Kp2 Ksp2.
  injection K3 as Ke3 Kv3 Kh3 Kc3 Kd3 Ks3 Kp3 Ksp3.
  unfold bind at 1. unfold get at 1. unfold bind at 1.
  destruct (optional_stage B w3) as [[lstage|e] w4] eqn:E4; [|discriminate].
  pose proof (optional_stage_frame B w3) as K4. rewrite E4 in K4.
  unfold keeps, but_stage in K4. simpl in K4.
  injection K4 as Ke4 Kv4 Kh4 Kc4 Kd4 Ka4 Kp4 Ksp4.
  unfold bind at 1. unfold get at 1. unfold bind at 1.
  rewrite Kv4, Kv3, Kv2, Kv1.
  intros H. exists w3, w4, lstage.
  assert (Hview : but_tables w3
                  = (process_env w, process_env w, heap w, true, true,
                     isStageReady (flags w), isPipeReady (flags w),
                     isSnowPipeReady (flags w))).
  { unfold but_tables. rewrite Ke3, Ke2, Ke1, Kv3, Kv2, Kv1, Kh3, Kh2, Kh1.
    rewrite Kc3, Kc2, E1, Kd3, E2, Ks3, Ks2, Ks1, Kp3, Kp2, Kp1, Ksp3, Ksp2, Ksp1.
    reflexivity. }
  assert (Htr : transport w3 = if areTablesReady (flags w) then transport w else "insert").
  { rewrite T3, Ka2, Ka1, Kt2, Kt1. reflexivity. }
  rewrite Kc3, Kc2, E1, Kd3, E2, E3 in H.
  change (vars w0) with (process_env w) in H.
  destruct (is_set (snowflake_pipe (process_env w))).
  - revert H. unfold bind at 1.
    destruct (optional_pipe rt B tableNames w4) as [[l5|e] w5] eqn:E5; [|discriminate].
    unfold bind at 1.
    destruct (optional_snowpipe B w5) as [[l6|e] w6] eqn:E6; [|discriminate].
    unfold ret. intros [= <- <-].
    exists (l5 ++ l6)%list. repeat split; auto. exists w5, l5, l6. now repeat split.
  - revert H. unfold ret. intros [= <- <-].
    exists []. repeat split; auto.
Qed.

End InitPost.

Section InitFinal.
Context (rt : Runtime) (B : Backend).

Lemma init_final (tableNames : TableNames) (w w' : World) (l : list bool) :
  initializeSnowflake rt B tableNames w = (Ok l, w') ->
  let env := process_env w in
  process_env w' = env /\ vars w' = env /\ heap w' = heap w
  /\ isConnectionReady (flags w') = true
  /\ isDatasetReady (flags w') = true
  /\ areTablesReady (flags w') = true
  /\ (is_set (snowflake_stage env) = true -> isStageReady (flags w') = true)
  /\ (exists rest, l = true :: true :: true :: rest
                   /\ forallb (fun i => i) rest
                      = if is_set (snowflake_pipe env)
                        then isSnowPipeReady (flags w') else true)
  /\ (is_set (snowflake_pipe env) = true -> isPipeReady (flags w') = true)
  /\ transport w'
     = (let t3 := if areTablesReady (flags w) then transport w else "insert" in
        let t4 := if is_set (snowflake_stage env) && negb (isStageReady (flags w))
                  then "copy" else t3 in
        if is_set (snowflake_pipe env)
        then if isPipeReady (flags w) then t4 else "pipe"
        else t4).
Proof.
  intros H. cbv zeta.
  destruct (init_run rt B tableNames w w' l H)
    as (w3 & w4 & lstage & lpipe & V3 & A3 & T3 & E4 & Hpipe & ->).
  unfold but_tables in V3. injection V3 as Ke3 Kv3 Kh3 Kc3 Kd3 Ks3 Kp3 Ksp3.
  pose proof (optional_stage_frame B w3) as K4. rewrite E4 in K4.
  unfold keeps, but_stage in K4. simpl in K4.
  injection K4 as Ke4 Kv4 Kh4 Kc4 Kd4 Ka4 Kp4 Ksp4.
  apply optional_stage_post in E4 as (L4 & S4 & T4).
  rewrite Kv3 in S4. rewrite Kv3, Ks3 in T4.
  destruct (is_set (snowflake_pipe (process_env w))) eqn:P.
  - destruct Hpipe as (w5 & l5 & l6 & E5 & E6 & ->).
    pose proof (optional_pipe_frame rt B tableNames w4) as K5. rewrite E5 in K5.
    unfold keeps, but_pipe in K5. simpl in K5.
    injection K5 as Ke5 Kv5 Kh5 Kc5 Kd5 Ka5 Ks5 Ksp5.
    apply optional_pipe_post in E5 as (L5 & P5 & T5).
    pose proof (optional_snowpipe_frame B w5) as K6. rewrite E6 in K6.
    unfold keeps, but_snowpipe in K6. simpl in K6.
    injection K6 as Ke6 Kv6 Kt6 Kh6 Kc6 Kd6 Ka6 Ks6 Kp6.
    apply optional_snowpipe_post in E6.
    repeat split; try congruence.
    + intros Hs. rewrite Ks6, Ks5. now apply S4.
    + eexists. split; [reflexivity|].
      rewrite !forallb_app, L4, L5, E6. reflexivity.
    + rewrite Kt6, T5, Kp4, Kp3, T4, T3. reflexivity.
  - destruct Hpipe as [-> ->].
    repeat split; try congruence.
    + exact S4.
    + eexists. split; [reflexivity|]. now rewrite app_nil_r.
    + rewrite T4, T3. reflexivity.
Qed.

End InitFinal.

(** X1.  [initializeSnowflake] returns only once the connection, the
    dataset and the tables are ready: the list it returns starts with
    three [true], the three flags are set, and the module variables hold
    the environment.  The stage and pipe booleans it appends are always
    [true]; the only boolean that can be [false] is the streaming
    client's. *)
Theorem init_returns_ready (rt : Runtime) (B : Backend) (tableNames : TableNames)
        (w w' : World) (l : list bool) :
  initializeSnowflake rt B tableNames w = (Ok l, w') ->
  (exists rest, l = true :: true :: true :: rest)
  /\ isConnectionReady (flags w') = true
  /\ isDatasetReady (flags w') = true
  /\ areTablesReady (flags w') = true
  /\ vars w' = process_env w
  /\ (forallb (fun i => i) l = false ->
      is_set (snowflake_pipe (process_env w)) = true
      /\ isSnowPipeReady (flags w') = false).
Proof.
  intros H. destruct (init_final rt B tableNames w w' l H)
    as (_ & V & _ & C & D & A & _ & (rest & -> & R) & _ & _).
  split; [now exists rest|]. do 4 (split; [assumption|]).
  intros Hf. simpl in Hf. rewrite R in Hf.
  destruct (is_set (snowflake_pipe (process_env w)));
    [split; [reflexivity | exact Hf] | discriminate Hf].
Qed.

Lemma init_returns_ready_witness :
  exists l w',
    initializeSnowflake sample_rt (sample_backend 0) sample_tables
                        (fresh_world (sample_env None None) []) = (Ok l, w')
    /\ isConnectionReady (flags w') = true
    /\ vars w' = sample_env None None.
Proof.
  destruct (initializeSnowflake sample_rt (sample_backend 0) sample_tables
              (fresh_world (sample_env None None) [])) as [[l|e] w'] eqn:E.
  - exists l, w'. split; [reflexivity|].
    destruct (init_returns_ready _ _ _ _ _ _ E) as (_ & C & _ & _ & V & _).
    split; [exact C | exact V].
  - vm_compute in E. discriminate E.
Defined.

(** X2.  The readiness flags are sticky: after a call of
    [initializeSnowflake] that returned only [true]s, the next call under
    the same environment returns the three base booleans, makes no call
    to the outside and leaves the state as it is. *)
Theorem init_second_call_free (rt : Runtime) (B : Backend) (tableNames : TableNames)
        (w w' : World) (l : list bool) :
  initializeSnowflake rt B tableNames w = (Ok l, w') ->
  forallb (fun i => i) l = true ->
  initializeSnowflake rt B tableNames w' = (Ok [true; true; true], w').
Proof.
  intros H Hall. destruct (init_final rt B tableNames w w' l H)
    as (E & V & _ & C & D & A & S & (rest & -> & R) & P & _).
  apply init_initialised. unfold initialised. rewrite E, V.
  split; [reflexivity|]. do 3 (split; [assumption|]). split; [exact S|].
  intros Hp. split; [now apply P|].
  simpl in Hall. rewrite R, Hp in Hall. exact Hall.
Qed.

Lemma init_second_call_free_witness :
  exists w',
    snd (initializeSnowflake sample_rt (sample_backend 0) sample_tables
           (fresh_world (sample_env (Some "MY_STAGE") (Some "MY_PIPE")) [])) = w'
    /\ initializeSnowflake sample_rt (sample_backend 0) sample_tables w'
       = (Ok [true; true; true], w').
Proof.
  destruct (initializeSnowflake sample_rt (sample_backend 0) sample_tables
              (fresh_world (sample_env (Some "MY_STAGE") (Some "MY_PIPE")) []))
    as [[l|e] w'] eqn:E.
  - exists w'. split; [reflexivity|].
    apply (init_second_call_free _ _ _ _ _ _ E).
    vm_compute in E. injection E as <- _. reflexivity.
  - vm_compute in E. discriminate E.
Defined.

(** X3.  Transport selection.  On an adapter none of whose checks has
    run yet, a call of [initializeSnowflake] that returns leaves the
    transport the configuration selects: [pipe] when a pipe name is set,
    else [copy] when a stage name is set, else [insert]. *)
Theorem init_selects_transport (rt : Runtime) (B : Backend) (tableNames : TableNames)
        (w w' : World) (l : list bool) :
  flags w = flags_unset ->
  initializeSnowflake rt B tableNames w = (Ok l, w') ->
  transport w' = configured_transport (process_env w).
Proof.
  intros F H. destruct (init_final rt B tableNames w w' l H)
    as (_ & _ & _ & _ & _ & _ & _ & _ & _ & T).
  rewrite T, F. unfold configured_transport. simpl.
  rewrite andb_true_r. reflexivity.
Qed.

Lemma init_selects_transport_witness :
  transport (snd (initializeSnowflake sample_rt (sample_backend 0) sample_tables
                    (fresh_world (sample_env (Some "MY_STAGE") None) [])))
  = "copy".
Proof.
  destruct (initializeSnowflake sample_rt (sample_backend 0) sample_tables
              (fresh_world (sample_env (Some "MY_STAGE") None) []))
    as [[l|e] w'] eqn:E.
  - apply (init_selects_transport sample_rt (sample_backend 0) sample_tables
             (fresh_world (sample_env (Some "MY_STAGE") None) []) w' l eq_refl E).
  - vm_compute in E. discriminate E.
Defined.

(** ** The transport never becomes [task] *)

#[local] Instance off_task_preorder : PreOrder off_task.
Proof.
  split.
  - intros w H. exact H.
  - intros w1 w2 w3 H12 H23 H. apply H23, H12, H.
Qed.

Ltac task_steps :=
  eapply (preserves_weaken (steps any_call));
  [ intros ? ? (_ & _ & _ & HT & _) Hne; now rewrite HT | ].

Ltac task_flag := apply preserves_modify; intros [] Hne; exact Hne.
Ltac task_set := apply preserves_modify; intros ? _; discriminate.

Section OffTask.
Context (rt : Runtime) (B : Backend).

Lemma initializeSnowflake_off_task (tableNames : TableNames) :
  preserves off_task (initializeSnowflake rt B tableNames).
Proof.
  unfold initializeSnowflake.
  preserves_step; [task_flag|].
  preserves_step.
  { unfold ensure_connection. preserves_step; [pget|].
    destruct (isConnectionReady (flags a0)); [pret|].
    preserves_step; [task_steps; apply createSnowflakeConnection_steps|].
    preserves_step; [task_flag|].
    preserves_step; [destruct a1; [pret | pthrow]|].
    preserves_step; [task_steps; now apply outside_steps|].
    preserves_step; [task_flag|].
    preserves_step; [task_steps; apply getCurrentUser_steps|].
    destruct a4; [pret | pthrow]. }
  preserves_step.
  { unfold ensure_dataset. preserves_step; [pget|].
    destruct (isDatasetReady (flags a1)); [pret|].
    preserves_step; [task_steps; apply verifyOrCreateDatabase_steps|].
    preserves_step; [task_flag|].
    destruct a2; [pret | pthrow]. }
  preserves_step.
  { unfold ensure_tables. preserves_step; [pget|].
    destruct (areTablesReady (flags a2)); [pret|].
    preserves_step; [task_steps; apply verifyOrCreateTables_steps|].
    preserves_step; [task_flag|].
    preserves_step; [destruct (forallb _ _); [pret | pthrow]|].
    task_set. }
  preserves_step; [pget|].
  preserves_step.
  { unfold optional_stage. preserves_step; [pget|].
    destruct (is_set _ && negb _); [|pret].
    preserves_step; [task_steps; apply verifyOrCreateStage_steps|].
    preserves_step; [task_flag|].
    preserves_step; [task_set | pret]. }
  preserves_step; [pget|].
  preserves_step; [|pret].
  destruct (is_set (snowflake_pipe (vars a5))); [|pret].
  preserves_step.
  { unfold optional_pipe. preserves_step; [pget|].
    destruct (isPipeReady (flags a6)); [pret|].
    preserves_step; [task_steps; apply verifyOrCreatePipe_steps|].
    preserves_step; [task_flag|].
    preserves_step; [task_set | pret]. }
  preserves_step; [|pret].
  unfold optional_snowpipe. preserves_step; [pget|].
  destruct (isSnowPipeReady (flags a7)); [pret|].
  preserves_step; [task_steps; apply createSnowpipeConnection_steps|].
  preserves_step; [task_flag | pret].
Qed.

End OffTask.

(** X4.  Whatever the backend answers and whether it returns or
    throws, [initializeSnowflake] never sets the transport to [task]:
    started off that value, the adapter stays off it, so the [task] case
    of [main]'s switch, the put-only strategy, is never selected. *)
Theorem transport_never_task (rt : Runtime) (B : Backend) (tableNames : TableNames)
        (w : World) :
  transport w <> "task" ->
  transport (snd (initializeSnowflake rt B tableNames w)) <> "task".
Proof. apply (initializeSnowflake_off_task rt B tableNames w). Qed.

Lemma transport_never_task_witness :
  transport (snd (initializeSnowflake sample_rt refusing_backend sample_tables
                    (fresh_world (sample_env (Some "MY_STAGE") (Some "MY_PIPE")) [])))
  <> "task".
Proof.
  apply transport_never_task. discriminate.
Defined.

(** ** Connecting *)

Lemma createSnowflakeConnection_outcome (B : Backend) (w : World) :
  createSnowflakeConnection B w
  = match first_missing (vars w) with
    | Some what => (Throw (Error (what ++ " is required")), w)
    | None =>
        (Ok (be_connect B (trace w) (vars w)),
         if be_connect B (trace w) (vars w)
         then set_connection true (add_call (CallConnect (vars w)) w)
         else add_call (CallConnect (vars w)) w)
    end.
Proof.
  unfold first_missing, required_credentials, createSnowflakeConnection, require_set.
  cbv beta iota delta [bind get ret throw outside modify].
  cbn [find fst snd].
  destruct (is_set (snowflake_account (vars w))); [|reflexivity].
  destruct (is_set (snowflake_user (vars w))); [|reflexivity].
  destruct (is_set (snowflake_password (vars w))); [|reflexivity].
  destruct (is_set (snowflake_database (vars w))); [|reflexivity].
  destruct (is_set (snowflake_schema (vars w))); [|reflexivity].
  destruct (is_set (snowflake_warehouse (vars w))); [|reflexivity].
  destruct (is_set (snowflake_role (vars w))); [|reflexivity].
  cbn [negb]. destruct (be_connect B (trace w) (vars w)); reflexivity.
Qed.

(** X5.  [createSnowflakeConnection] fails fast.  The seven required
    credentials are checked in the order account, user, password,
    database, schema, warehouse, role; when one of them is missing or
    empty it throws [<variable> is required], naming the first such
    variable, before anything is sent out; otherwise it makes exactly
    one connection attempt, resolves with its outcome (a refused
    connection is [false], not an exception) and keeps the handle only
    on success. *)
Theorem connection_requires_credentials (B : Backend) (w : World) :
  (forall what,
      first_missing (vars w) = Some what ->
      createSnowflakeConnection B w = (Throw (Error (what ++ " is required")), w))
  /\ (first_missing (vars w) = None ->
      createSnowflakeConnection B w
      = (Ok (be_connect B (trace w) (vars w)),
         if be_connect B (trace w) (vars w)
         then set_connection true (add_call (CallConnect (vars w)) w)
         else add_call (CallConnect (vars w)) w)).
Proof.
  rewrite createSnowflakeConnection_outcome.
  split.
  - intros what ->. reflexivity.
  - intros ->. reflexivity.
Qed.

Lemma connection_requires_credentials_witness :
  createSnowflakeConnection (sample_backend 0)
    (set_vars (mkEnv (Some "acct") (Some "svc") None (Some "my_database")
                     None (Some "MY_WH") (Some "") None
                     None None None None None None None)
              (fresh_world env_unset []))
  = (Throw (Error "snowflake_password is required"),
     set_vars (mkEnv (Some "acct") (Some "svc") None (Some "my_database")
                     None (Some "MY_WH") (Some "") None
                     None None None None None None None)
              (fresh_world env_unset []))
  /\ fst (createSnowflakeConnection (sample_backend 0)
            (set_vars (sample_env None None) (fresh_world (sample_env None None) [])))
     = Ok true.
Proof.
  split.
  - apply (proj1 (connection_requires_credentials (sample_backend 0)
                    (set_vars (mkEnv (Some "acct") (Some "svc") None (Some "my_database")
                                     None (Some "MY_WH") (Some "") None
                                     None None None None None None None)
                              (fresh_world env_unset [])))
                 "snowflake_password").
    reflexivity.
  - destruct (connection_requires_credentials (sample_backend 0)
                (set_vars (sample_env None None) (fresh_world (sample_env None None) [])))
      as [_ H].
    rewrite H; reflexivity.
Defined.

(** ** The table readiness probe *)

Section Probe.
Context (B : Backend).

(** One attempt of the second loop of [waitForTableToBeReady]. *)
Lemma probe_attempt (tableName : string) (w : World) :
  connection w = true ->
  try_catch (insertDummyRecord B tableName [("dummy_column", JStr "dummy_value")])
            (fun _ => ret false) w
  = (Ok (probe_accepts (be_execute B (trace w)
                          ("INSERT INTO " ++ tableName
                             ++ " (dummy_column) VALUES ('dummy_value')") None)),
     add_call (probe_insert tableName) w).
Proof.
  intros Hc. unfold try_catch, insertDummyRecord. cbv beta iota delta [bind].
  change (join ", " (obj_keys [("dummy_column", JStr "dummy_value")]))
    with "dummy_column".
  change (join ", " (map (fun kv => "'" ++ toString (snd kv) ++ "'")
                         [("dummy_column", JStr "dummy_value")]))
    with "'dummy_value'".
  rewrite executeSQL_connected by exact Hc. unfold probe_insert.
  destruct (be_execute B (trace w) _ None) as [rows|err]; [reflexivity|].
  unfold probe_accepts. destruct (data err) as [d|]; [|reflexivity].
  destruct (code err), (errorCode d), (sqlState d), (sf_type d); reflexivity.
Qed.

Lemma wait_writable_never (tableName : string) (n : nat) :
  (forall t, probe_accepts (be_execute B t
                              ("INSERT INTO " ++ tableName
                                 ++ " (dummy_column) VALUES ('dummy_value')") None)
             = false) ->
  forall w, connection w = true ->
            wait_writable B tableName n w
            = (Ok false, add_calls (repeat (probe_insert tableName) n) w).
Proof.
  intros Hnever. induction n as [|k IH]; intros w Hc; [reflexivity|].
  cbn [wait_writable]. unfold bind at 1.
  rewrite probe_attempt by exact Hc. rewrite Hnever.
  rewrite IH by exact Hc. reflexivity.
Qed.

Lemma checkIfTableExists_absent (tableName : string) (w : World) :
  connection w = true ->
  be_execute B (trace w) ("SHOW TABLES LIKE '" ++ tableName ++ "'") None = Rows (JArr []) ->
  checkIfTableExists B tableName w = (Ok false, add_call (show_tables tableName) w).
Proof.
  intros Hc H. unfold checkIfTableExists, exec. unfold bind.
  rewrite executeSQL_connected by exact Hc. now rewrite H.
Qed.

Lemma wait_exists_never (tableName : string) (n : nat) :
  (forall t, be_execute B t ("SHOW TABLES LIKE '" ++ tableName ++ "'") None
             = Rows (JArr [])) ->
  forall w, connection w = true ->
            wait_exists B tableName (S n) w
            = (Ok false, add_calls (repeat (show_tables tableName) (S n)) w).
Proof.
  intros Hnever. induction n as [|k IH]; intros w Hc.
  - cbn [wait_exists]. unfold bind.
    rewrite checkIfTableExists_absent by auto. reflexivity.
  - change (wait_exists B tableName (S (S k)) w)
      with (bind (checkIfTableExists B tableName)
                 (fun tableFound : bool =>
                    if tableFound then ret true else wait_exists B tableName (S k)) w).
    unfold bind. rewrite checkIfTableExists_absent by auto.
    rewrite IH by exact Hc. reflexivity.
Qed.

End Probe.

(** X6.  The readiness probe of a table that exists.  The dummy insert
    counts as "ready" exactly when the backend refuses it with the
    compilation error for the unknown column (code and errorCode 000904,
    sqlState 42000, type COMPILATION).  With that reply to the first
    attempt [waitForTableToBeReady] reports ready after one existence
    check and one insert; with any other reply every time, it makes all
    twenty attempts and reports not ready. *)
Theorem probe_of_existing_table (B : Backend) (tableName : string) (w : World)
        (x : JSValue) (found : list JSValue) :
  connection w = true ->
  be_execute B (trace w) ("SHOW TABLES LIKE '" ++ tableName ++ "'") None
  = Rows (JArr (x :: found)) ->
  let probe := "INSERT INTO " ++ tableName ++ " (dummy_column) VALUES ('dummy_value')" in
  (probe_accepts (be_execute B (trace w ++ [show_tables tableName]) probe None) = true ->
   waitForTableToBeReady B tableName 20 20 w
   = (Ok true, add_calls [show_tables tableName; probe_insert tableName] w))
  /\ ((forall t, probe_accepts (be_execute B t probe None) = false) ->
      waitForTableToBeReady B tableName 20 20 w
      = (Ok false,
         add_calls (show_tables tableName :: repeat (probe_insert tableName) 20) w)).
Proof.
  intros Hc Hshow probe.
  assert (Hfound : checkIfTableExists B tableName w
                   = (Ok true, add_call (show_tables tableName) w)).
  { unfold checkIfTableExists, exec. unfold bind.
    rewrite executeSQL_connected by exact Hc. now rewrite Hshow. }
  split.
  - intros Hyes. unfold waitForTableToBeReady. unfold bind at 1.
    cbn [wait_exists]. unfold bind at 1. rewrite Hfound.
    cbv beta iota delta [ret]. change 20%nat with (S 19).
    cbn [wait_writable]. unfold bind at 1.
    rewrite probe_attempt by exact Hc.
    change (trace (add_call (show_tables tableName) w))
      with (trace w ++ [show_tables tableName])%list.
    fold probe. rewrite Hyes. reflexivity.
  - intros Hnever. unfold waitForTableToBeReady. unfold bind at 1.
    cbn [wait_exists]. unfold bind at 1. rewrite Hfound.
    cbv beta iota delta [ret].
    rewrite (wait_writable_never B tableName 20 Hnever) by exact Hc.
    reflexivity.
Qed.

Lemma probe_of_existing_table_witness :
  waitForTableToBeReady (sample_backend 0) "events" 20 20 sample_ready_world
  = (Ok true, add_calls [show_tables "events"; probe_insert "events"] sample_ready_world)
  /\ waitForTableToBeReady (picky_backend "none") "events" 20 20 sample_ready_world
     = (Ok false,
        add_calls (show_tables "events" :: repeat (probe_insert "events") 20)
                  sample_ready_world).
Proof.
  split.
  - apply (probe_of_existing_table (sample_backend 0) "events" sample_ready_world
             (JObj [("name", JStr "FOUND")]) []); reflexivity.
  - apply (probe_of_existing_table (picky_backend "none") "events" sample_ready_world
             (JObj [("name", JStr "FOUND")]) []); reflexivity.
Defined.

(** X7.  A table that never shows up: [waitForTableToBeReady] checks
    for it twenty times, reports not ready, and never attempts the dummy
    insert. *)
Theorem probe_of_missing_table (B : Backend) (tableName : string) (w : World) :
  connection w = true ->
  (forall t, be_execute B t ("SHOW TABLES LIKE '" ++ tableName ++ "'") None
             = Rows (JArr [])) ->
  waitForTableToBeReady B tableName 20 20 w
  = (Ok false, add_calls (repeat (show_tables tableName) 20) w).
Proof.
  intros Hc Hnever. unfold waitForTableToBeReady. unfold bind.
  rewrite (wait_exists_never B tableName 19 Hnever) by exact Hc. reflexivity.
Qed.

Lemma probe_of_missing_table_witness :
  fst (waitForTableToBeReady empty_backend "events" 20 20 sample_ready_world) = Ok false
  /\ length (trace (snd (waitForTableToBeReady empty_backend "events" 20 20
                           sample_ready_world))) = 20%nat.
Proof.
  rewrite (probe_of_missing_table empty_backend "events" sample_ready_world);
    [split; reflexivity | reflexivity | intros t; reflexivity].
Defined.

(** ** The write strategies *)

Lemma formatBindValue_throws (rt : Runtime) (v : JSValue) (ty : string) :
  formatBindValue rt v ty = None -> unprintable v = true.
Proof.
  unfold formatBindValue, nullish.
  destruct (null_like v) eqn:Hn; [discriminate|].
  unfold blank, toString_call.
  destruct (unprintable v); [reflexivity|].
  destruct v; simpl;
    repeat match goal with
           | |- context [if ?c then _ else _] => destruct c
           | |- context [match ?x with _ => _ end] => destruct x
           end; discriminate.
Qed.

Lemma bind_values_throws (rt : Runtime) (schema : Schema) (record : Row) :
  bind_values rt schema record = None ->
  exists f, In f schema /\ unprintable (obj_get (name f) record) = true.
Proof.
  induction schema as [|f rest IH]; cbn [bind_values]; [discriminate|].
  destruct (formatBindValue rt (obj_get (name f) record) (type f)) eqn:E.
  - destruct (bind_values rt rest record); [discriminate|].
    intros _. destruct (IH eq_refl) as (g & Hg & Hu).
    exists g. split; [now right | exact Hu].
  - intros _. exists f. split; [now left | eapply formatBindValue_throws, E].
Qed.

Lemma bind_rows_throws (rt : Runtime) (schema : Schema) {A : Type} (f : A -> Row)
      (batch : list A) :
  bind_rows rt schema (map f batch) = None ->
  exists l g, In l batch /\ In g schema /\ unprintable (obj_get (name g) (f l)) = true.
Proof.
  induction batch as [|l rest IH]; cbn [map bind_rows]; [discriminate|].
  unfold bind_row at 1.
  destruct (bind_values rt schema (f l)) eqn:E.
  - destruct (bind_rows rt schema (map f rest)); [discriminate|].
    intros _. destruct (IH eq_refl) as (l' & g & Hl & Hg & Hu).
    exists l', g. split; [now right | auto].
  - intros _. destruct (bind_values_throws rt schema (f l) E) as (g & Hg & Hu).
    exists l, g. split; [now left | auto].
Qed.

(** X8.  [insertData] throws only while it shapes the payload.  The
    statement is executed inside [try], so whatever the driver does the
    function resolves with a result for the warehouse [snowflake]: either
    a [success] carrying the transport and no error, or an [error] that
    counts the whole batch as failed and carries the exception and its
    message.  The one way out is the shaping before the [try]: under a
    schema without variant column, a bound field whose [toString] cannot
    be called (an object with an own [toString], or an array holding one)
    makes it throw a TypeError before any call, the state unchanged. *)
Theorem insertData_throws_only_shaping (rt : Runtime) (B : Backend) (batch : Batch)
        (table : string) (schema : Schema) (w : World) :
  (exists r w',
      insertData rt B batch table schema w = (Ok r, w')
      /\ dest r = Some "snowflake"
      /\ (status r = "success" /\ errorMessage r = None /\ errors r = None
          /\ method r = Some (transport w)
          \/ status r = "error" /\ insertedRows r = 0
             /\ failedRows r = Z.of_nat (length batch) /\ method r = None
             /\ exists e, errors r = Some e /\ errorMessage r = Some (exn_message e)))
  \/ ((exists msg, insertData rt B batch table schema w = (Throw (TypeError msg), w))
      /\ existsb is_variant schema = false
      /\ exists l f,
          In l batch /\ In f schema
          /\ unprintable (obj_get (name f) (deref (heap w) l)) = true).
Proof.
  unfold insertData.
  assert (Hv : snd (prepareInsertSQL schema table) = existsb is_variant schema)
    by (unfold prepareInsertSQL; destruct (existsb is_variant schema); reflexivity).
  destruct (prepareInsertSQL schema table) as [sql hasVariant]. cbn [snd] in Hv.
  assert (Hshape : (exists payload w1,
                       shape rt batch schema hasVariant w = (Ok payload, w1)
                       /\ transport w1 = transport w)
                   \/ (shape rt batch schema hasVariant w
                       = (Throw (TypeError "value?.toString is not a function"), w)
                       /\ hasVariant = false
                       /\ bind_rows rt schema (map (deref (heap w)) batch) = None)).
  { destruct hasVariant.
    - left. eexists. eexists. rewrite shape_variant. split; reflexivity.
    - destruct (bind_rows rt schema (map (deref (heap w)) batch)) eqn:E.
      + left. eexists. eexists. rewrite shape_plain, E. split; reflexivity.
      + right. rewrite shape_plain, E. auto. }
  destruct Hshape as [(payload & w1 & Hsh & Ht) | (Hsh & Hplain & Hnone)].
  - left.
    pose proof (executeSQL_steps B any_call sql (Some payload) false
                  (fun _ => I) w1) as Hs.
    unfold bind at 1. rewrite Hsh. unfold try_catch. unfold bind, get, ret.
    destruct (executeSQL B sql (Some payload) false w1) as [[task|e] w2].
    + eexists. eexists. split; [reflexivity|]. split; [reflexivity|]. left.
      destruct Hs as (_ & _ & _ & T & _). simpl in T.
      cbn [status errorMessage errors method]. rewrite T, Ht. auto.
    + eexists. eexists. split; [reflexivity|]. split; [reflexivity|]. right.
      cbn [status errorMessage errors method insertedRows failedRows].
      repeat split. exists e. auto.
  - right. unfold bind at 1. rewrite Hsh.
    split; [eexists; reflexivity|]. split; [congruence|].
    now apply (bind_rows_throws rt schema (deref (heap w)) batch).
Qed.

Section Upload.
Context (rt : Runtime) (B : Backend).

Lemma fs_call_only (P : Call -> Prop) (c : Call) (answer : list Call -> option string) :
  P c -> preserves (steps P) (fs_call c answer).
Proof.
  intros HP. unfold fs_call. preserves_step; [now apply outside_steps|].
  destruct a; [pthrow | pret].
Qed.

Lemma put_only_uploads (file stageName : string) (b : option JSValue) :
  only_uploads (CallExecute ("PUT file://" ++ file ++ " " ++ stageName) b).
Proof. destruct file; reflexivity. Qed.

(** The common start of the three file transports. *)
Lemma upload_run (batch : Batch) (table : string) (w : World) :
  connection w = true ->
  (forall t path contents, fs_writeFile B t path contents = None) ->
  let file := temp_file rt B table w in
  let w1 := add_call (CallWriteFile file (ndjson rt (heap w) batch))
                     (add_call (CallUid 18) w) in
  exec B ("PUT file://" ++ file ++ " " ++ "@" ++ tpl (snowflake_stage (vars w))) w1
  = (match be_execute B (trace w1) (putCommand file (stage_of w)) None with
     | Rows rows => Ok (Rows rows)
     | Failed err => if is_table_locked err then Throw (Error "TableLockedError")
                     else Throw (DriverError err)
     end, add_calls (upload_calls rt B batch table w) w).
Proof.
  intros Hc Hwrite file w1. unfold exec.
  rewrite executeSQL_connected by exact Hc. reflexivity.
Qed.

End Upload.

(** X9.  An upload that fails leaves the temporary file behind.  When
    the [PUT] of [copyIntoData] is refused, the function throws right
    after it: the file has been written, nothing is copied, and
    [unlink] is never called. *)
Theorem copy_upload_failure_keeps_file (rt : Runtime) (B : Backend) (batch : Batch)
        (table : string) (schema : Schema) (w : World) (err : SfError) :
  connection w = true ->
  (forall t path contents, fs_writeFile B t path contents = None) ->
  (forall t, be_execute B t (putCommand (temp_file rt B table w) (stage_of w)) None
             = Failed err) ->
  exists e,
    copyIntoData rt B batch table schema w
    = (Throw e, add_calls (upload_calls rt B batch table w) w)
    /\ exn_message e = (if is_table_locked err then "TableLockedError" else message err).
Proof.
  intros Hc Hwrite Hput.
  unfold copyIntoData, uid, writeFile, fs_call.
  cbv beta iota zeta delta [bind get outside ret].
  rewrite Hwrite. cbv beta iota.
  pose proof (upload_run rt B batch table w Hc Hwrite) as Hrun.
  cbv zeta in Hrun. unfold temp_file in Hrun at 1 2.
  cbn [vars add_call heap] in *.
  rewrite Hrun. rewrite Hput.
  destruct (is_table_locked err); eexists; split; reflexivity.
Qed.

Lemma copy_upload_failure_keeps_file_witness :
  exists e,
    copyIntoData sample_rt
      (picky_backend (putCommand (temp_file sample_rt (sample_backend 0) "groups"
                                            sample_copy_world)
                                 (stage_of sample_copy_world)))
      [0; 1]%nat "groups" sample_groups sample_copy_world
    = (Throw e,
       add_calls (upload_calls sample_rt (sample_backend 0) [0; 1]%nat "groups"
                               sample_copy_world)
                 sample_copy_world)
    /\ exn_message e = "SQL access control error: insufficient privileges".
Proof.
  apply (copy_upload_failure_keeps_file sample_rt
           (picky_backend (putCommand (temp_file sample_rt (sample_backend 0) "groups"
                                                 sample_copy_world)
                                      (stage_of sample_copy_world)))
           [0; 1]%nat "groups" sample_groups sample_copy_world access_denied);
    reflexivity.
Defined.

(** X10.  A copy that fails cleans up locally only.  When the file is
    uploaded but the [COPY INTO] of [copyIntoData] is refused, the
    function throws after deleting the temporary file; the staged file
    is not removed: no [REMOVE] is sent. *)
Theorem copy_failure_unlinks_file (rt : Runtime) (B : Backend) (batch : Batch)
        (table : string) (schema : Schema) (w : World) (err : SfError) :
  connection w = true ->
  (forall t path contents, fs_writeFile B t path contents = None) ->
  (forall t path, fs_unlink B t path = None) ->
  (forall t, exists rows,
      be_execute B t (putCommand (temp_file rt B table w) (stage_of w)) None = Rows rows) ->
  (forall t, be_execute B t (copy_of rt B table schema w) None = Failed err) ->
  exists e,
    copyIntoData rt B batch table schema w
    = (Throw e,
       add_calls (upload_calls rt B batch table w
                    ++ [CallExecute (copy_of rt B table schema w) None;
                        CallUnlink (temp_file rt B table w)])%list w)
    /\ exn_message e = (if is_table_locked err then "TableLockedError" else message err).
Proof.
  intros Hc Hwrite Hunlink Hput Hcopy.
  unfold copyIntoData, uid, writeFile, unlink, fs_call.
  cbv beta iota zeta delta [bind get outside ret try_finally].
  rewrite Hwrite. cbv beta iota.
  pose proof (upload_run rt B batch table w Hc Hwrite) as Hrun.
  cbv zeta in Hrun. unfold temp_file in Hrun at 1 2.
  cbn [vars add_call heap] in *.
  rewrite Hrun.
  match goal with
  | |- context [be_execute B ?t (putCommand _ _) None] =>
      destruct (Hput t) as [rows Hrows]; rewrite Hrows
  end.
  cbv beta iota.
  unfold exec at 1.
  rewrite executeSQL_connected
    by (now rewrite add_calls_connection).
  fold (temp_file rt B table w). fold (stage_of w).
  fold (copy_of rt B table schema w). rewrite Hcopy.
  destruct (is_table_locked err); cbv beta iota; rewrite Hunlink;
    eexists; split; reflexivity.
Qed.

Lemma copy_failure_unlinks_file_witness :
  exists e,
    copyIntoData sample_rt
      (picky_backend (copy_of sample_rt (sample_backend 0) "groups" sample_groups
                              sample_copy_world))
      [0; 1]%nat "groups" sample_groups sample_copy_world
    = (Throw e,
       add_calls (upload_calls sample_rt (sample_backend 0) [0; 1]%nat "groups"
                               sample_copy_world
                    ++ [CallExecute (copy_of sample_rt (sample_backend 0) "groups"
                                             sample_groups sample_copy_world) None;
                        CallUnlink (temp_file sample_rt (sample_backend 0) "groups"
                                              sample_copy_world)])%list
                 sample_copy_world)
    /\ exn_message e = "SQL access control error: insufficient privileges".
Proof.
  apply (copy_failure_unlinks_file sample_rt
           (picky_backend (copy_of sample_rt (sample_backend 0) "groups" sample_groups
                                   sample_copy_world))
           [0; 1]%nat "groups" sample_groups sample_copy_world access_denied);
    try reflexivity.
  intros t. eexists. reflexivity.
Defined.

(** X11.  A failed local cleanup hides a successful load.  When the
    warehouse accepts every statement of [copyIntoData] (upload, copy and
    removal of the staged file) but the temporary file cannot be deleted,
    the function throws the file system's error although the rows have
    been copied. *)
Theorem copy_cleanup_failure_throws (rt : Runtime) (B : Backend) (batch : Batch)
        (table : string) (schema : Schema) (w : World) (msg : string) :
  connection w = true ->
  (forall t path contents, fs_writeFile B t path contents = None) ->
  (forall t sql, exists rows, be_execute B t sql None = Rows rows) ->
  (forall t path, fs_unlink B t path = Some msg) ->
  fst (copyIntoData rt B batch table schema w) = Throw (Error msg)
  /\ In (CallExecute (copy_of rt B table schema w) None)
        (trace (snd (copyIntoData rt B batch table schema w))).
Proof.
  intros Hc Hwrite Hall Hunlink.
  unfold copyIntoData, uid, writeFile, unlink, fs_call.
  cbv beta iota zeta delta [bind get outside ret throw try_finally].
  rewrite Hwrite. cbv beta iota.
  pose proof (upload_run rt B batch table w Hc Hwrite) as Hrun.
  cbv zeta in Hrun. unfold temp_file in Hrun at 1 2.
  cbn [vars add_call heap] in *.
  rewrite Hrun.
  match goal with
  | |- context [be_execute B ?t (putCommand ?f ?s) None] =>
      destruct (Hall t (putCommand f s)) as [rows Hrows]; rewrite Hrows
  end.
  cbv beta iota.
  unfold exec.
  rewrite executeSQL_connected
    by (now rewrite add_calls_connection).
  fold (temp_file rt B table w). fold (stage_of w).
  fold (copy_of rt B table schema w).
  destruct (Hall (trace (add_calls (upload_calls rt B batch table w) w))
                 (copy_of rt B table schema w)) as [rows2 Hrows2].
  rewrite Hrows2. cbv beta iota.
  rewrite executeSQL_connected
    by (cbn [connection add_call]; now rewrite add_calls_connection).
  match goal with
  | |- context [be_execute B ?t ?sql None] =>
      destruct (Hall t sql) as [rows3 Hrows3]; rewrite Hrows3
  end.
  cbv beta iota. rewrite Hunlink. split; [reflexivity|].
  cbn [snd trace add_call]. rewrite add_calls_trace.
  apply in_or_app. left. apply in_or_app. left. apply in_or_app. right.
  now left.
Qed.

Lemma copy_cleanup_failure_throws_witness :
  fst (copyIntoData sample_rt stuck_file_backend [0; 1]%nat "groups" sample_groups
                    sample_copy_world)
  = Throw (Error "EPERM: operation not permitted").
Proof.
  apply (copy_cleanup_failure_throws sample_rt stuck_file_backend [0; 1]%nat "groups"
           sample_groups sample_copy_world "EPERM: operation not permitted");
    try reflexivity.
  intros t sql. eexists. reflexivity.
Defined.

(** X12.  The pipe and task transports load nothing themselves.
    Whatever happens, the only statement [insertWithPipe] and
    [insertWithPut] send to the warehouse is the [PUT] of the file they
    wrote: no [COPY INTO], no [REMOVE], no new connection; the
    configuration, the flags, the transport and the records are left as
    they were. *)
Theorem pipe_and_put_only_upload (rt : Runtime) (B : Backend) (batch : Batch)
        (table : string) (schema : Schema) (w : World) :
  steps only_uploads w (snd (insertWithPipe rt B batch table schema w))
  /\ steps only_uploads w (snd (insertWithPut rt B batch table schema w)).
Proof.
  split.
  - revert w. change (preserves (steps only_uploads)
                        (insertWithPipe rt B batch table schema)).
    unfold insertWithPipe, uid, writeFile, unlink, insertFile.
    preserves_step; [now apply outside_steps|].
    preserves_step; [pget|].
    preserves_step; [now apply fs_call_only|].
    preserves_step; [apply executeSQL_steps; intros b; apply put_only_uploads|].
    preserves_step; [|now apply fs_call_only].
    preserves_step; [|preserves_step; [pget | pret]].
    preserves_step; [pget|].
    preserves_step; [now apply fs_call_only | pthrow].
  - revert w. change (preserves (steps only_uploads)
                        (insertWithPut rt B batch table schema)).
    unfold insertWithPut, uid, writeFile, unlink.
    preserves_step; [now apply outside_steps|].
    preserves_step; [pget|].
    preserves_step; [now apply fs_call_only|].
    preserves_step; [apply executeSQL_steps; intros b; apply put_only_uploads|].
    preserves_step; [pget|].
    preserves_step; [now apply fs_call_only | pret].
Qed.

(** ** The records after repair *)

Lemma obj_keys_set_present (k : string) (v : JSValue) (o : Row) :
  In k (obj_keys o) -> obj_keys (obj_set k v o) = obj_keys o.
Proof.
  unfold obj_keys. induction o as [|[k0 v0] r IH]; simpl; [tauto|].
  destruct (String.eqb_spec k k0) as [->|Hne]; [reflexivity|].
  intros [H|H]; [congruence|]. simpl. now rewrite IH.
Qed.

Lemma repair_variant_keys (rt : Runtime) (row : Row) (col : Column) :
  obj_keys (repair_variant rt row col) = obj_keys row.
Proof.
  unfold repair_variant.
  destruct (truthy (obj_get (name col) row)); [|reflexivity].
  destruct (obj_get (name col) row) as [| | | |s| |] eqn:E; try reflexivity.
  destruct (JSON_parse rt s); [|reflexivity].
  apply obj_keys_set_present, obj_get_present. rewrite E. discriminate.
Qed.

Lemma repair_variant_other (rt : Runtime) (row : Row) (col : Column) (k : string) :
  name col <> k -> obj_get k (repair_variant rt row col) = obj_get k row.
Proof.
  intros Hne. unfold repair_variant.
  destruct (truthy (obj_get (name col) row)); [|reflexivity].
  destruct (obj_get (name col) row); try reflexivity.
  destruct (JSON_parse rt s); [|reflexivity].
  apply obj_get_set_ne. congruence.
Qed.

Lemma nullify_key_get (row : Row) (key k : string) :
  obj_get k (nullify_key row key)
  = if String.eqb k key && null_like (obj_get k row) then JNull else obj_get k row.
Proof.
  unfold nullify_key. destruct (String.eqb_spec k key) as [->|Hne]; simpl.
  - destruct (null_like (obj_get key row)); [apply obj_get_set_eq | reflexivity].
  - destruct (null_like (obj_get key row)); [now apply obj_get_set_ne | reflexivity].
Qed.

Lemma nullify_fold_get (keys : list string) :
  forall (row : Row) (k : string),
    obj_get k (fold_left nullify_key keys row)
    = if existsb (String.eqb k) keys && null_like (obj_get k row)
      then JNull else obj_get k row.
Proof.
  induction keys as [|key keys IH]; intros row k; [reflexivity|].
  cbn [fold_left existsb]. rewrite IH, nullify_key_get.
  destruct (String.eqb k key), (existsb (String.eqb k) keys),
    (null_like (obj_get k row)) eqn:E; simpl; rewrite ?E; reflexivity.
Qed.

Lemma nullify_fold_keys (keys : list string) :
  forall row : Row,
    (forall k, In k keys -> In k (obj_keys row)) ->
    obj_keys (fold_left nullify_key keys row) = obj_keys row.
Proof.
  induction keys as [|key keys IH]; intros row Hsub; [reflexivity|].
  cbn [fold_left].
  assert (Hk : obj_keys (nullify_key row key) = obj_keys row).
  { unfold nullify_key. destruct (null_like (obj_get key row)); [|reflexivity].
    apply obj_keys_set_present, Hsub. now left. }
  rewrite IH; [exact Hk|]. intros k Hin. rewrite Hk. apply Hsub. now right.
Qed.

(** X13.  What [prepareComplexRows] leaves in a record.  The record
    keeps its properties, in their order.  No property is left holding
    [undefined], the empty string or the text [null]: each of these has
    become an actual [null].  A property that names no variant column and
    was not null-like keeps its value. *)
Theorem prepareComplexRows_fields (rt : Runtime) (row : Row) (schema : Schema) :
  obj_keys (prepareComplexRows_body rt row schema) = obj_keys row
  /\ (forall k, In k (obj_keys row) ->
                null_like (obj_get k (prepareComplexRows_body rt row schema)) = true ->
                obj_get k (prepareComplexRows_body rt row schema) = JNull)
  /\ (forall k, (forall col, In col schema -> is_variant col = true -> name col <> k) ->
                null_like (obj_get k row) = false ->
                obj_get k (prepareComplexRows_body rt row schema) = obj_get k row).
Proof.
  unfold prepareComplexRows_body.
  set (cols := filter (fun f => is_variant f) schema).
  assert (Hkeys : forall cols row, obj_keys (fold_left (repair_variant rt) cols row)
                                   = obj_keys row).
  { clear. induction cols as [|col cols IH]; intros row; [reflexivity|].
    cbn [fold_left]. now rewrite IH, repair_variant_keys. }
  split; [|split].
  - rewrite nullify_fold_keys; [apply Hkeys | auto].
  - intros k Hin. rewrite nullify_fold_get.
    assert (Hex : existsb (String.eqb k)
                          (obj_keys (fold_left (repair_variant rt) cols row)) = true).
    { rewrite Hkeys. apply existsb_exists. exists k.
      split; [exact Hin | apply String.eqb_refl]. }
    rewrite Hex. simpl.
    destruct (null_like (obj_get k (fold_left (repair_variant rt) cols row))) eqn:E;
      [reflexivity|]. rewrite E. discriminate.
  - intros k Hother Hnull.
    assert (Hsame : obj_get k (fold_left (repair_variant rt) cols row) = obj_get k row).
    { assert (Hcols : forall col, In col cols -> name col <> k).
      { intros col Hin. apply list_elem_of_In, list_elem_of_filter in Hin as [Hv Hin].
        apply Hother; [now apply list_elem_of_In | now apply Is_true_true]. }
      clearbody cols. clear Hother Hnull. revert row.
      induction cols as [|col cols IH]; intros row; [reflexivity|].
      cbn [fold_left]. rewrite IH by (intros c Hc; apply Hcols; now right).
      apply repair_variant_other, Hcols. now left. }
    rewrite nullify_fold_get, Hsame, Hnull. now rewrite andb_false_r.
Qed.

Lemma prepareComplexRows_fields_witness :
  let row := [("DISTINCT_ID", JStr "u1"); ("NAME", JStr ""); ("properties", JStr "[1]")] in
  obj_keys (prepareComplexRows_body sample_rt row sample_users) = obj_keys row
  /\ obj_get "NAME" (prepareComplexRows_body sample_rt row sample_users) = JNull
  /\ obj_get "DISTINCT_ID" (prepareComplexRows_body sample_rt row sample_users)
     = JStr "u1".
Proof.
  intros row.
  destruct (prepareComplexRows_fields sample_rt row sample_users) as (Hk & Hn & Ho).
  split; [exact Hk|]. split.
  - apply Hn; [simpl; tauto | reflexivity].
  - apply Ho; [|reflexivity].
    intros col [<-|[<-|[]]]; [discriminate | intros _; discriminate].
Defined.

(** ** The database check *)

Section Database.
Context (rt : Runtime) (B : Backend).

(** What follows a computation only adds to its trace. *)
Lemma bind_extends {A C : Type} (m : M A) (k : A -> M C) (w : World) :
  (forall a, preserves (steps any_call) (k a)) ->
  exists l, trace (snd (bind m k w)) = (trace (snd (m w)) ++ l)%list.
Proof.
  intros Hk. unfold bind. destruct (m w) as [[a|e] w1]; simpl.
  - destruct (Hk a w1) as (_ & _ & _ & _ & _ & _ & _ & l & L & _). now exists l.
  - exists []. now rewrite app_nil_r.
Qed.

Lemma exec_only (P : Call -> Prop) (sql : string) :
  (forall b, P (CallExecute sql b)) -> preserves (steps P) (exec B sql).
Proof. intros HP. now apply executeSQL_steps. Qed.

(** The part of [verifyOrCreateDatabase] that deals with the schema. *)
Lemma schema_part_steps (P : Call -> Prop) (db : string) (schemaName : option string) :
  (forall sql b, String.prefix "CREATE OR REPLACE" sql = false -> P (CallExecute sql b)) ->
  preserves (steps P)
    (checkSchemaResult <- executeSQL B ("SHOW SCHEMAS IN DATABASE " ++ db) None true ;;
     schemas <- require_array checkSchemaResult "Failed to check schema existence" ;;
     schemaExists <-
       match schemas, schemaName with
       | [], _ => ret false
       | _ :: _, None =>
           throw (TypeError "Cannot read properties of undefined (reading 'toUpperCase')")
       | _ :: _, Some sn =>
           match some_named (toUpperCase rt sn) schemas with
           | Some b => ret b
           | None => throw (TypeError "Cannot read properties of null (reading 'name')")
           end
       end ;;
     (if schemaExists : bool then ret tt
      else exec B (createSchemaQuery db (tpl schemaName)) ;;; ret tt) ;;;
     exec B ("USE SCHEMA " ++ db ++ "." ++ tpl schemaName) ;;;
     ret true).
Proof.
  intros HP.
  preserves_step; [apply executeSQL_steps; intros b; now apply HP|].
  preserves_step; [apply require_array_steps|].
  preserves_step.
  { destruct a0; [pret|].
    destruct schemaName; [|pthrow].
    destruct (some_named _ _); [pret | pthrow]. }
  preserves_step.
  { destruct a1; [pret|].
    preserves_step; [apply exec_only; intros b; now apply HP | pret]. }
  preserves_step; [apply exec_only; intros b; now apply HP | pret].
Qed.

End Database.

Lemma js_gt0_positive (rt : Runtime) (v : JSValue) :
  count_positive rt v -> js_gt0 rt v = Some true.
Proof.
  intros [(n & -> & Hn) | (s & -> & Hs)]; cbn [js_gt0].
  - f_equal. now apply Z.ltb_lt.
  - now rewrite Hs.
Qed.

Lemma js_gt0_not_positive (rt : Runtime) (v : JSValue) :
  count_not_positive rt v -> js_gt0 rt v = Some false.
Proof.
  intros [(n & -> & Hn) | [(s & -> & Hs) | [-> | ->]]]; cbn [js_gt0];
    try reflexivity.
  - f_equal. now apply Z.ltb_ge.
  - now rewrite Hs.
Qed.

(** X14.  [verifyOrCreateDatabase] re-creates the database unless the
    existence check positively reports it.  When the check fails (for
    any reason), or its first row reports under [COUNT] a number that is
    not positive, a text that does not convert to a positive number, or
    nothing, the statement sent next is [CREATE OR REPLACE DATABASE];
    when the first row reports a positive count, as a number or as a
    text, no replacing statement is sent at all. *)
Theorem database_replaced_unless_reported (rt : Runtime) (B : Backend) (w : World)
        (db : string) :
  connection w = true ->
  snowflake_database (vars w) = Some db ->
  let check := "SELECT COUNT(*) AS count FROM " ++ toUpperCase rt db
                 ++ ".INFORMATION_SCHEMA.DATABASES WHERE DATABASE_NAME = '"
                 ++ toUpperCase rt db ++ "'" in
  let reply := be_execute B (trace w) check None in
  ((exists err, reply = Failed err)
   \/ (exists o rest,
          reply = Rows (JArr (JObj o :: rest))
          /\ count_not_positive rt (obj_get "COUNT" o)) ->
   exists l,
     trace (snd (verifyOrCreateDatabase rt B w))
     = (trace w ++ [CallExecute check None;
                    CallExecute ("CREATE OR REPLACE DATABASE " ++ db) None] ++ l)%list)
  /\ (forall o rest,
         reply = Rows (JArr (JObj o :: rest)) ->
         count_positive rt (obj_get "COUNT" o) ->
         steps replaces_nothing w (snd (verifyOrCreateDatabase rt B w))).
Proof.
  intros Hc Hdb check reply.
  set (w1 := add_call (CallExecute check None) w).
  split.
  - intros Hno.
    unfold verifyOrCreateDatabase. unfold bind at 1. unfold get at 1.
    rewrite Hdb. unfold bind at 1.
    rewrite executeSQL_connected by exact Hc. fold check. fold reply. fold w1.
    destruct Hno as [[err Hr] | (o & rest & Hr & Hcount)];
      rewrite Hr; cbv beta iota; unfold bind at 1;
      cbn [message_includes js_index0 js_prop].
    1: destruct (includes _ (message err)); cbn [js_gt0].
    3: rewrite (js_gt0_not_positive rt _ Hcount).
    all: unfold ret at 1;
      match goal with
      | |- context [bind ?m ?k ?w0] =>
          destruct (bind_extends m k w0) as [l L];
            [intros a; apply schema_part_steps; intros; exact I|]
      end;
      rewrite L; exists l;
      unfold bind at 1; unfold exec;
      rewrite executeSQL_connected by exact Hc;
      destruct (be_execute B (trace w1) (createDatabaseQuery db) None) as [r2|e2];
      try destruct (is_table_locked e2); simpl; now rewrite <- !app_assoc.
  - intros o rest Hreply Hcount.
    unfold verifyOrCreateDatabase. unfold bind at 1. unfold get at 1.
    rewrite Hdb. unfold bind at 1.
    rewrite executeSQL_connected by exact Hc. fold check. fold reply. fold w1.
    rewrite Hreply. cbv beta iota.
    unfold bind at 1. cbn [message_includes js_index0 js_prop].
    rewrite (js_gt0_positive rt _ Hcount). unfold ret at 1.
    transitivity w1; [now apply steps_add_call|].
    apply preserves_bind; [apply _ | pret |].
    intros a. apply schema_part_steps. intros sql b H. exact H.
Qed.

Lemma database_replaced_unless_reported_witness :
  (exists l,
      trace (snd (verifyOrCreateDatabase sample_rt refusing_backend sample_ready_world))
      = ([CallExecute "SELECT COUNT(*) AS count FROM MY_DATABASE.INFORMATION_SCHEMA.DATABASES WHERE DATABASE_NAME = 'MY_DATABASE'" None;
          CallExecute "CREATE OR REPLACE DATABASE my_database" None] ++ l)%list)
  /\ steps replaces_nothing sample_ready_world
           (snd (verifyOrCreateDatabase sample_rt (sample_backend 0) sample_ready_world)).
Proof.
  split.
  - apply (database_replaced_unless_reported sample_rt refusing_backend
             sample_ready_world "my_database"); [reflexivity | reflexivity |].
    left. eexists. reflexivity.
  - destruct (database_replaced_unless_reported sample_rt (sample_backend 0)
                sample_ready_world "my_database" eq_refl eq_refl) as [_ H].
    apply (H [("COUNT", JNum 1)] []); [reflexivity|].
    left. exists 1. split; [reflexivity | lia].
Defined.

(** ** Entering [main] without a usable connection *)

(** X15.  [main] gives up before touching the warehouse when it cannot
    connect.  Called on an adapter that is not connected yet: with a
    required credential missing from the environment it throws
    [<variable> is required], naming the first of account, user,
    password, database, schema, warehouse and role that is missing or
    empty, without any outside call; with a connection the driver
    refuses it throws the credentials error after that one attempt.  In
    both cases no statement is executed and no file is written, whatever
    the batch and the record kind. *)
Theorem main_without_connection (rt : Runtime) (B : Backend) (data : Batch)
        (ty : string) (tableNames : TableNames) (w : World) :
  isConnectionReady (flags w) = false ->
  (forall what,
      first_missing (process_env w) = Some what ->
      main rt B data ty tableNames w
      = (Throw (Error (what ++ " is required")), set_vars (process_env w) w))
  /\ (first_missing (process_env w) = None ->
      be_connect B (trace w) (process_env w) = false ->
      main rt B data ty tableNames w
      = (Throw (Error "snowflake credentials verification failed."),
         set_isConnectionReady false
           (add_call (CallConnect (process_env w)) (set_vars (process_env w) w)))).
Proof.
  intros Hflag.
  pose proof (createSnowflakeConnection_outcome B (set_vars (process_env w) w)) as Hrun.
  cbn [vars set_vars trace] in Hrun.
  split.
  - intros what Hmiss. rewrite Hmiss in Hrun.
    unfold main, initializeSnowflake, ensure_connection.
    cbv beta iota delta [bind get modify ret].
    cbn [flags set_vars]. rewrite Hflag. now rewrite Hrun.
  - intros Hset Hno. rewrite Hset, Hno in Hrun.
    unfold main, initializeSnowflake, ensure_connection.
    cbv beta iota delta [bind get modify ret].
    cbn [flags set_vars]. rewrite Hflag. now rewrite Hrun.
Qed.

Lemma main_without_connection_witness :
  main sample_rt (sample_backend 0) [0%nat] "track" sample_tables
       (fresh_world (mkEnv (Some "acct") (Some "svc") (Some "secret") None
                           (Some "my_schema") None (Some "MY_ROLE") None
                           None None None None None None None)
                    [[("a", JNum 1)]])
  = (Throw (Error "snowflake_database is required"),
     set_vars (mkEnv (Some "acct") (Some "svc") (Some "secret") None
                     (Some "my_schema") None (Some "MY_ROLE") None
                     None None None None None None None)
              (fresh_world (mkEnv (Some "acct") (Some "svc") (Some "secret") None
                                  (Some "my_schema") None (Some "MY_ROLE") None
                                  None None None None None None None)
                           [[("a", JNum 1)]]))
  /\ fst (main sample_rt
               (mkBackend (fun _ _ => false) (fun _ => true)
                          (fun _ _ _ => Rows (JArr []))
                          (fun _ _ => true) (fun _ _ _ => None)
                          (fun _ _ _ => None) (fun _ _ => None) (fun _ _ => "x"))
               [0%nat] "track" sample_tables
               (fresh_world (sample_env None None) [[("a", JNum 1)]]))
     = Throw (Error "snowflake credentials verification failed.").
Proof.
  split.
  - apply (proj1 (main_without_connection sample_rt (sample_backend 0) [0%nat] "track"
                    sample_tables
                    (fresh_world (mkEnv (Some "acct") (Some "svc") (Some "secret") None
                                        (Some "my_schema") None (Some "MY_ROLE") None
                                        None None None None None None None)
                                 [[("a", JNum 1)]])
                    eq_refl)
                 "snowflake_database").
    reflexivity.
  - destruct (main_without_connection sample_rt
                (mkBackend (fun _ _ => false) (fun _ => true)
                           (fun _ _ _ => Rows (JArr []))
                           (fun _ _ => true) (fun _ _ _ => None)
                           (fun _ _ _ => None) (fun _ _ => None) (fun _ _ => "x"))
                [0%nat] "track" sample_tables
                (fresh_world (sample_env None None) [[("a", JNum 1)]]) eq_refl)
      as [_ H].
    rewrite H; reflexivity.
Defined.

(** ** Pipes *)

(** X16.  Pipes are created per table, each with the columns of its own
    record kind.  On a connected adapter whose warehouse has no pipe yet
    and accepts every statement, [verifyOrCreatePipe] resolves with
    [true] after six statements: for each key of [tableNames], in the
    order in which the caller wrote the keys, the lookup
    [SHOW PIPES LIKE '<pipe>_<table>'] followed by the statement
    [CREATE OR REPLACE PIPE <pipe>_<table> AUTO_INGEST = FALSE AS COPY
    INTO <table> FROM (SELECT ... FROM @<stage>) FILE_FORMAT = (TYPE =
    'JSON') ON_ERROR = 'CONTINUE';] whose select list is
    [$1:<lower-cased name> AS <name>] for each column of the schema of
    that key: the events schema for [eventTable], the users schema for
    [userTable], the groups schema for [groupTable]. *)
Theorem pipes_created_per_table (rt : Runtime) (B : Backend) (tableNames : TableNames)
        (w : World) :
  connection w = true ->
  (forall t sql, String.prefix "SHOW PIPES" sql = true ->
                 be_execute B t sql None = Rows (JArr [])) ->
  (forall t sql, exists rows, be_execute B t sql None = Rows rows) ->
  let pipe := tpl (snowflake_pipe (vars w)) in
  let stage := tpl (snowflake_stage (vars w)) in
  verifyOrCreatePipe rt B tableNames w
  = (Ok true,
     add_calls
       (concat
          (map (fun k =>
                  [CallExecute ("SHOW PIPES LIKE '" ++ pipe ++ "_"
                                  ++ table_named tableNames k ++ "'") None;
                   CallExecute
                     (nl ++ tabs 4 ++ "CREATE OR REPLACE PIPE " ++ pipe ++ "_"
                         ++ table_named tableNames k ++ " AUTO_INGEST = FALSE AS"
                         ++ nl ++ tabs 4 ++ "COPY INTO " ++ table_named tableNames k
                         ++ nl ++ tabs 4 ++ "FROM ("
                         ++ nl ++ tabs 5 ++ "SELECT "
                         ++ join ", " (map (fun col => "$1:" ++ toLowerCase (name col)
                                                        ++ " AS " ++ name col)
                                           (key_schema rt k))
                         ++ nl ++ tabs 5 ++ "FROM @" ++ stage
                         ++ nl ++ tabs 4 ++ ")"
                         ++ nl ++ tabs 4 ++ "FILE_FORMAT = (TYPE = 'JSON')"
                         ++ nl ++ tabs 4 ++ "ON_ERROR = 'CONTINUE';"
                         ++ nl ++ tabs 3)
                     None])
               (keys_in_order (keyOrder tableNames))))
       w).
Proof.
  intros Hc Hnone Hall pipe stage.
  assert (Hone : forall k rest w0,
             connection w0 = true -> vars w0 = vars w ->
             verifyOrCreatePipe_loop rt B
               ((key_name k, table_named tableNames k) :: rest) w0
             = verifyOrCreatePipe_loop rt B rest
                 (add_calls (pipe_calls pipe stage (table_named tableNames k)
                                        (key_schema rt k)) w0)).
  { intros k rest w0 Hc0 Hv.
    assert (Hschema : getSnowflakeSchema rt (split_shift "Table" (key_name k))
                      = ret (key_schema rt k)) by (destruct k; reflexivity).
    cbn [verifyOrCreatePipe_loop].
    unfold bind at 1. unfold get at 1. unfold bind at 1. unfold bind at 1.
    unfold exec at 1. rewrite executeSQL_connected by exact Hc0.
    rewrite Hv. fold pipe. fold stage.
    rewrite Hnone by reflexivity.
    cbv beta iota. rewrite Hschema. unfold bind at 1. unfold ret at 1.
    unfold bind at 1. unfold exec at 1.
    rewrite executeSQL_connected by exact Hc0.
    match goal with
    | |- context [be_execute B ?t ?sql None] =>
        destruct (Hall t sql) as [rows Hrows]; rewrite Hrows
    end.
    reflexivity. }
  assert (Hthree : forall k1 k2 k3,
             verifyOrCreatePipe_loop rt B
               (map (fun k => (key_name k, table_named tableNames k)) [k1; k2; k3]) w
             = (Ok tt,
                add_calls
                  (concat (map (fun k => pipe_calls pipe stage (table_named tableNames k)
                                                    (key_schema rt k))
                               [k1; k2; k3])) w)).
  { intros k1 k2 k3. cbn [map concat].
    rewrite Hone; [|exact Hc|reflexivity].
    rewrite Hone; [|now rewrite add_calls_connection|now rewrite add_calls_vars].
    rewrite Hone; [|now rewrite !add_calls_connection|now rewrite !add_calls_vars].
    cbn [verifyOrCreatePipe_loop]. unfold ret.
    now rewrite app_nil_r, !add_calls_app. }
  unfold verifyOrCreatePipe, entries. unfold bind at 1.
  destruct (keyOrder tableNames); cbn [keys_in_order]; now rewrite Hthree.
Qed.

Lemma pipes_created_per_table_witness :
  verifyOrCreatePipe sample_rt empty_backend
                     (mkTableNames "events" "users" "groups" UserGroupEvent)
                     (set_vars (sample_env (Some "my_stage") (Some "my_pipe"))
                               sample_ready_world)
  = (Ok true,
     add_calls (pipe_calls "my_pipe" "my_stage" "users" sample_users
                  ++ pipe_calls "my_pipe" "my_stage" "groups" sample_groups
                  ++ pipe_calls "my_pipe" "my_stage" "events" sample_events)%list
               (set_vars (sample_env (Some "my_stage") (Some "my_pipe"))
                         sample_ready_world)).
Proof.
  rewrite (pipes_created_per_table sample_rt empty_backend
             (mkTableNames "events" "users" "groups" UserGroupEvent)
             (set_vars (sample_env (Some "my_stage") (Some "my_pipe")) sample_ready_world)
             eq_refl).
  - reflexivity.
  - reflexivity.
  - intros t sql. eexists. reflexivity.
Defined.

(** ** What [dropTables] sends *)

Section DropCalls.
Context (B : Backend).

Lemma executeSQL_count (sql : string) (binds : option JSValue) (neverThrow : bool)
      (w : World) :
  (length (trace (snd (executeSQL B sql binds neverThrow w)))
   <= length (trace w) + 1)%nat.
Proof.
  unfold executeSQL, bind, get, outside, ret, throw.
  destruct (connection w); [|simpl; lia].
  destruct (be_execute B (trace w) sql _) as [rows|err]; simpl.
  - rewrite length_app. simpl. lia.
  - destruct neverThrow; [|destruct (is_table_locked err)]; simpl;
      rewrite length_app; simpl; lia.
Qed.

Lemma drop_statement_count (sql : string) (w : World) :
  (length (trace (snd (drop_statement B sql w))) <= length (trace w) + 1)%nat.
Proof.
  unfold drop_statement, exec, bind.
  pose proof (executeSQL_count sql None false w) as H.
  destruct (executeSQL B sql None false w) as [[[rows|err]|e] w1]; exact H.
Qed.

Lemma drop_round_count (mk : string -> string) :
  forall live results rejected w r w',
    drop_round B mk live results rejected w = (r, w') ->
    (length (trace w') <= length (trace w) + length live)%nat
    /\ forall live' results' rejected',
        r = Ok (live', results', rejected') -> (length live' <= length live)%nat.
Proof.
  induction live as [|table rest IH]; intros results rejected w r w' H.
  - inversion H; subst. split; [simpl; lia|].
    intros live' results' rejected' Heq. inversion Heq; subst. simpl. lia.
  - cbn [drop_round] in H. cbv beta iota delta [bind try_catch ret] in H.
    pose proof (drop_statement_count (mk table) w) as H1.
    destruct (drop_statement B (mk table) w) as [[s|e] w1]; simpl in H1.
    + destruct (drop_round B mk rest (results ++ [s])%list rejected w1)
        as [[[[l2 r2] j2]|e2] w2] eqn:E; apply IH in E as [Hn Hl];
        inversion H; subst; (split; [simpl; lia|]);
        intros live' results' rejected' Heq; inversion Heq; subst.
      specialize (Hl _ _ _ eq_refl). simpl. lia.
    + apply IH in H as [Hn Hl]. split; [simpl; lia|].
      intros live' results' rejected' Heq. specialize (Hl _ _ _ Heq). simpl. lia.
Qed.

Lemma drop_round_unconnected (mk : string -> string) :
  forall live results rejected w,
    connection w = false ->
    exists rejected',
      drop_round B mk live results rejected w = (Ok ([], results, rejected'), w)
      /\ (live <> [] -> rejected' <> None)
      /\ (rejected <> None -> rejected' <> None).
Proof.
  induction live as [|table rest IH]; intros results rejected w Hc.
  - exists rejected. split; [reflexivity|]. split; [congruence | auto].
  - cbn [drop_round].
    cbv beta iota delta [bind try_catch drop_statement exec executeSQL get throw ret].
    rewrite Hc. cbv beta iota.
    destruct (IH results
                 (match rejected with
                  | Some e0 => Some e0
                  | None => Some (TypeError "Cannot read properties of undefined (reading 'execute')")
                  end) w Hc)
      as (rejected' & Hrun & _ & Hkeep).
    exists rejected'. split; [exact Hrun|].
    assert (H : rejected' <> None) by (apply Hkeep; now destruct rejected).
    split; intros _; exact H.
Qed.

End DropCalls.

(** X17.  What [dropTables] sends is bounded.  Whatever the backend
    answers, every call it makes is a statement
    [DROP TABLE|PIPE|TASK|STAGE IF EXISTS ...], it makes at most ten of
    them, and it leaves the configuration, the flags, the transport and
    the records alone.  On an adapter that was never connected it throws
    without any call. *)
Theorem dropTables_only_drops (B : Backend) (tableNames : TableNames) (w : World) :
  steps drop_call w (snd (dropTables B tableNames w))
  /\ (length (trace (snd (dropTables B tableNames w))) <= length (trace w) + 10)%nat
  /\ (connection w = false ->
      exists e, dropTables B tableNames w = (Throw e, w)).
Proof.
  assert (Htable : forall table b,
             drop_call (CallExecute ("DROP TABLE IF EXISTS " ++ table) b)).
  { intros table b. exists "TABLE", table. split; [simpl; tauto | reflexivity]. }
  assert (Hpipe : forall pipe table b,
             drop_call (CallExecute ("DROP PIPE IF EXISTS " ++ pipe ++ "_" ++ table) b)).
  { intros pipe table b. exists "PIPE", (pipe ++ "_" ++ table).
    split; [simpl; tauto | reflexivity]. }
  assert (Htask : forall task table b,
             drop_call (CallExecute
                          ("DROP TASK IF EXISTS " ++ task ++ "_" ++ table ++ "_task") b)).
  { intros task table b. exists "TASK", (task ++ "_" ++ table ++ "_task").
    split; [simpl; tauto | reflexivity]. }
  assert (Hstage : forall stage b,
             drop_call (CallExecute ("DROP STAGE IF EXISTS " ++ stage) b)).
  { intros stage b. exists "STAGE", stage. split; [simpl; tauto | reflexivity]. }
  unfold dropTables. cbv beta iota delta [bind get].
  set (pipe := tpl (snowflake_pipe (vars w))).
  set (task := tpl (snowflake_task (vars w))).
  set (mk1 := fun table => "DROP TABLE IF EXISTS " ++ table).
  set (mk2 := fun table => "DROP PIPE IF EXISTS " ++ pipe ++ "_" ++ table).
  set (mk3 := fun table => "DROP TASK IF EXISTS " ++ task ++ "_" ++ table ++ "_task").
  destruct (drop_round_spec B drop_call mk1 Htable (values tableNames) [] None w)
    as (live1 & results1 & rejected1 & w1 & Hrun1 & S1 & _ & _).
  destruct (drop_round_count B mk1 _ _ _ _ _ _ Hrun1) as [N1 L1].
  rewrite Hrun1. cbv beta iota.
  specialize (L1 _ _ _ eq_refl). rewrite ?values_length in N1, L1. simpl in N1, L1.
  destruct (drop_round_spec B drop_call mk2 (Hpipe pipe) live1 results1 rejected1 w1)
    as (live2 & results2 & rejected2 & w2 & Hrun2 & S2 & _ & _).
  destruct (drop_round_count B mk2 _ _ _ _ _ _ Hrun2) as [N2 L2].
  rewrite Hrun2. cbv beta iota.
  specialize (L2 _ _ _ eq_refl).
  destruct (drop_round_spec B drop_call mk3 (Htask task) live2 results2 rejected2 w2)
    as (live3 & results3 & rejected3 & w3 & Hrun3 & S3 & _ & _).
  destruct (drop_round_count B mk3 _ _ _ _ _ _ Hrun3) as [N3 _].
  rewrite Hrun3. cbv beta iota.
  assert (S13 : steps drop_call w w3).
  { transitivity w1; [exact S1|]. transitivity w2; [exact S2 | exact S3]. }
  split; [|split].
  - destruct rejected3 as [e|]; [exact S13|].
    pose proof (executeSQL_steps B drop_call
                  ("DROP STAGE IF EXISTS " ++ tpl (snowflake_stage (vars w3))) None false
                  (Hstage _) w3) as S4.
    unfold drop_statement, exec, bind.
    destruct (executeSQL B _ None false w3) as [[[rows|err]|e] w4]; simpl in S4 |- *;
      now transitivity w3.
  - destruct rejected3 as [e|]; [simpl; lia|].
    pose proof (drop_statement_count B
                  ("DROP STAGE IF EXISTS " ++ tpl (snowflake_stage (vars w3))) w3) as N4.
    destruct (drop_statement B _ w3) as [[s|e] w4]; simpl in N4 |- *; lia.
  - intros Hc.
    destruct (drop_round_unconnected B mk1 (values tableNames) [] None w Hc)
      as (r1 & E1 & H1 & _).
    rewrite Hrun1 in E1. injection E1 as -> -> -> ->.
    destruct (drop_round_unconnected B mk2 [] [] r1 w Hc) as (r2 & E2 & _ & K2).
    rewrite Hrun2 in E2. injection E2 as -> -> -> ->.
    destruct (drop_round_unconnected B mk3 [] [] r2 w Hc) as (r3 & E3 & _ & K3).
    rewrite Hrun3 in E3. injection E3 as -> -> -> ->.
    assert (H3 : r3 <> None).
    { apply K3, K2, H1. intros Hv. apply (f_equal (@length string)) in Hv.
      rewrite values_length in Hv. discriminate. }
    destruct r3 as [e|]; [|contradiction]. now exists e.
Qed.

Lemma dropTables_only_drops_witness :
  exists e,
    dropTables (sample_backend 0) sample_tables
               (fresh_world (sample_env None None) [])
    = (Throw e, fresh_world (sample_env None None) []).
Proof.
  apply (dropTables_only_drops (sample_backend 0) sample_tables
           (fresh_world (sample_env None None) [])).
  reflexivity.
Defined.

(** ** The S3 adapter *)

Lemma slice_last_slash (p : string) :
  endsWith_slash (p ++ "/") = true /\ slice_last (p ++ "/") = p.
Proof.
  induction p as [|c r [IH1 IH2]]; [split; reflexivity|].
  change (String c r ++ "/") with (String c (r ++ "/")).
  destruct (r ++ "/") as [|c' r'] eqn:E.
  - destruct r; discriminate E.
  - change (endsWith_slash (String c (String c' r')))
      with (endsWith_slash (String c' r')).
    change (slice_last (String c (String c' r')))
      with (String c (slice_last (String c' r'))).
    split; [exact IH1 | now rewrite IH2].
Qed.

(** X18.  One trailing slash of the prefix is ignored: [insertData]
    does the same for [<prefix>/] as for [<prefix>], for every prefix
    that is not empty and does not itself end in a slash. *)
Theorem s3_trailing_slash_ignored (rt : Runtime) (B : S3.Backend)
        (uid : list S3.Call -> nat -> string) (batch : list Row) (p : string)
        (w : S3.World) :
  p <> "" -> endsWith_slash p = false ->
  S3Data.insertData rt B uid batch (p ++ "/") w = S3Data.insertData rt B uid batch p w.
Proof.
  intros Hp Hs. unfold S3Data.insertData.
  destruct (slice_last_slash p) as [H1 H2]. rewrite H1, H2, Hs.
  apply String.eqb_neq in Hp. rewrite Hp.
  destruct p; [discriminate|]. reflexivity.
Qed.

Lemma s3_trailing_slash_ignored_witness :
  S3Data.insertData sample_rt s3_ok s3_uid [[("a", JNum 1)]] "events/" s3_ready_world
  = S3Data.insertData sample_rt s3_ok s3_uid [[("a", JNum 1)]] "events" s3_ready_world.
Proof.
  apply (s3_trailing_slash_ignored sample_rt s3_ok s3_uid [[("a", JNum 1)]] "events"
           s3_ready_world); [discriminate | reflexivity].
Defined.

(** X19.  The outcomes of the S3 [insertData].  Without a prefix it
    throws before any call.  With a prefix, on a constructed client, it
    makes exactly one call: the upload, to the configured bucket, of the
    records serialized one per line and joined by newlines, under the
    key [<prefix>/<today>_<uid(42)>.json.gz] (the prefix without its
    trailing slash).  When the upload is accepted it resolves with a
    [success] for [s3] counting the whole batch as inserted and none as
    failed; when it is refused, the service's error is thrown.  It never
    resolves with an error result: whatever the adapter state, a result
    it returns is that [success], returned after that one upload was
    accepted. *)
Theorem s3_insertData_outcomes (rt : Runtime) (B : S3.Backend)
        (uid : list S3.Call -> nat -> string) (batch : list Row) (pre : string)
        (w : S3.World) :
  let key := (if endsWith_slash pre then slice_last pre else pre)
               ++ "/" ++ TODAY rt ++ "_" ++ uid (S3.trace w) 42%nat ++ ".json.gz" in
  let body := JStr (join nl (map (fun record => JSON_stringify rt (JObj record)) batch)) in
  let upload := S3.PutObject (S3.s3_bucket (S3.vars w)) key body in
  let success := mkInsertResult "success" (Some "s3") (Z.of_nat (length batch)) 0
                                None None None in
  S3Data.insertData rt B uid batch "" w = (Throw (Error "Prefix name not provided."), w)
  /\ (pre <> "" -> S3.s3 w = true ->
      S3Data.insertData rt B uid batch pre w
      = (match B (S3.trace w) upload with
         | S3.Resolved _ => Ok success
         | S3.Rejected msg => Throw (Error msg)
         end,
         S3.add_call upload w))
  /\ (forall r w',
         S3Data.insertData rt B uid batch pre w = (Ok r, w') ->
         r = success
         /\ w' = S3.add_call upload w
         /\ match B (S3.trace w) upload with
            | S3.Resolved _ => True
            | S3.Rejected _ => False
            end).
Proof.
  intros key body upload success.
  split; [reflexivity|]. split.
  - intros Hp Hs. unfold S3Data.insertData.
    apply String.eqb_neq in Hp. rewrite Hp.
    cbv beta iota zeta delta [bind get S3Data.send S3.call ret throw].
    rewrite Hs. unfold S3Data.fileName, S3Data.dataToUpload.
    fold key. fold body. fold upload.
    destruct (B (S3.trace w) upload); reflexivity.
  - intros r w'. unfold S3Data.insertData.
    destruct (String.eqb pre ""); [discriminate|].
    cbv beta iota zeta delta [bind get S3Data.send S3.call ret throw].
    destruct (S3.s3 w); [|discriminate].
    unfold S3Data.fileName, S3Data.dataToUpload.
    fold key. fold body. fold upload.
    destruct (B (S3.trace w) upload) as [v|msg]; [|discriminate].
    intros [= <- <-]. repeat split.
Qed.

Lemma s3_insertData_outcomes_witness :
  S3Data.insertData sample_rt s3_ok s3_uid [[("a", JNum 1)]; [("a", JNum 2)]]
                    "events/" s3_ready_world
  = (Ok (mkInsertResult "success" (Some "s3") 2 0 None None None),
     S3.add_call
       (S3.PutObject (Some "my_bucket")
          ("events/" ++ TODAY sample_rt ++ "_k3v9x2m7q1w8e5r4t6.json.gz")
          (JStr (JSON_stringify sample_rt (JObj [("a", JNum 1)]) ++ nl
                   ++ JSON_stringify sample_rt (JObj [("a", JNum 2)]))))
       s3_ready_world).
Proof.
  destruct (s3_insertData_outcomes sample_rt s3_ok s3_uid
              [[("a", JNum 1)]; [("a", JNum 2)]] "events/" s3_ready_world)
    as (_ & H & _).
  rewrite H; [reflexivity | discriminate | reflexivity].
Defined.

(** X20.  The S3 adapter initialises once.  When the client has been
    accepted and the write check has passed, [initializeS3] only re-reads
    the environment: it makes no call and resolves with the stored
    readiness value. *)
Theorem initializeS3_second_call_free (rt : Runtime) (B : S3.Backend)
        (tableNames : TableNames) (w : S3.World) :
  truthy (S3.isClientReady w) = true -> S3.canWriteToBucket w = true ->
  S3.initializeS3 rt B tableNames w
  = (Ok [S3.isClientReady w], S3.set_vars (S3.process_env w) w).
Proof.
  destruct w as [env v s ready writable t]. cbn [S3.isClientReady S3.canWriteToBucket].
  intros H1 ->. unfold S3.initializeS3.
  cbv beta iota delta [bind get modify ret S3.set_vars S3.isClientReady
                         S3.canWriteToBucket S3.process_env S3.s3 S3.trace].
  now rewrite H1.
Qed.

Lemma initializeS3_second_call_free_witness :
  S3.initializeS3 sample_rt s3_ok sample_tables s3_ready_world
  = (Ok [JBool true], s3_ready_world).
Proof.
  apply (initializeS3_second_call_free sample_rt s3_ok sample_tables s3_ready_world);
    reflexivity.
Defined.

(** X21.  The write check passes only after the whole round trip.
    Once the local dummy file is written, [verifyReadAndWritePermissions]
    never throws; and when it resolves with [true] it has made exactly
    ten calls, each of which succeeded: write and load the local file,
    upload it, download it, store and reload both copies, delete the
    object from the bucket and remove both local files. *)
Theorem write_check_round_trip (rt : Runtime) (B : S3.Backend) (w : S3.World)
        (v : JSValue) :
  B (S3.trace w) (S3.Touch (path_resolve rt (TEMP_DIR rt) "dummy.txt") (JStr "hello!"))
  = S3.Resolved v ->
  exists b w',
    S3.verifyReadAndWritePermissions rt B w = (Ok b, w')
    /\ (b = true ->
        exists body contents,
          S3.trace w'
          = (S3.trace w
               ++ write_check_calls rt (S3.s3_bucket (S3.vars w)) body contents)%list).
Proof.
  intros Htouch. unfold S3.verifyReadAndWritePermissions.
  cbv beta iota zeta delta [bind get try_catch ret].
  unfold S3.call at 1. rewrite Htouch.
  destruct (truthy v); [|eexists; eexists; split; [reflexivity | discriminate]].
  cbn [S3.vars S3.add_call].
  repeat (unfold S3.call at 1; cbn [S3.trace S3.add_call];
          match goal with
          | |- context [B ?t ?c] => destruct (B t c) as [?v|?msg]
          end;
          [|eexists; eexists; split; [reflexivity | discriminate]]);
    try (destruct (S3.strict_eq _ _);
         [|eexists; eexists; split; [reflexivity | discriminate]]);
    repeat (unfold S3.call at 1; cbn [S3.trace S3.add_call];
            match goal with
            | |- context [B ?t ?c] => destruct (B t c) as [?v|?msg]
            end;
            [|eexists; eexists; split; [reflexivity | discriminate]]).
  eexists. eexists. split; [reflexivity|]. intros _.
  eexists. eexists. cbn [S3.trace S3.add_call]. unfold write_check_calls.
  rewrite <- !app_assoc. reflexivity.
Qed.

Lemma write_check_round_trip_witness :
  exists body contents,
    S3.trace (snd (S3.verifyReadAndWritePermissions sample_rt s3_ok s3_ready_world))
    = write_check_calls sample_rt (Some "my_bucket") body contents.
Proof.
  destruct (write_check_round_trip sample_rt s3_ok s3_ready_world (JBool true) eq_refl)
    as (b & w' & Hrun & Htrace).
  assert (Hb : b = true).
  { vm_compute in Hrun. now injection Hrun as <- _. }
  destruct (Htrace Hb) as (body & contents & H).
  exists body, contents. rewrite Hrun. exact H.
Defined.

(** X22.  What [deleteAllFiles] deletes.  On a client that lists the
    bucket, with every listed object carrying its key among whatever
    other fields the listing gives, it sends a single deletion naming
    exactly the listed keys that contain one of the three table names,
    in listing order, and nothing else; when no key matches it still
    sends the deletion, with no key.  When the listing has no
    [Contents], it throws a [TypeError] and deletes nothing. *)
Theorem deleteAllFiles_selects (rt : Runtime) (B : S3.Backend) (tableNames : TableNames)
        (w : S3.World) (response : list (string * JSValue)) :
  S3.s3 w = true ->
  B (S3.trace w) (S3.ListObjectsV2 (S3.s3_bucket (S3.vars w)))
  = S3.Resolved (JObj response) ->
  let tables := [eventTable tableNames; userTable tableNames; groupTable tableNames] in
  let listed := S3.add_call (S3.ListObjectsV2 (S3.s3_bucket (S3.vars w))) w in
  (forall (files : list JSValue) (keys : list string),
      obj_get "Contents" response = JArr files ->
      Forall2 (fun f key => exists o, f = JObj o /\ obj_get "Key" o = JStr key)
              files keys ->
      snd (S3Data.deleteAllFiles B tableNames w)
      = S3.add_call
          (S3.DeleteObjects (S3.s3_bucket (S3.vars w))
             (List.filter (fun key => existsb (fun t => includes t key) tables) keys))
          listed)
  /\ (obj_get "Contents" response = JUndefined ->
      exists msg, S3Data.deleteAllFiles B tableNames w = (Throw (TypeError msg), listed)).
Proof.
  intros Hs Hlist tables listed.
  assert (Hsel : forall files keys,
             Forall2 (fun f key => exists o, f = JObj o /\ obj_get "Key" o = JStr key)
                     files keys ->
             S3Data.filesToDelete tables files
             = Some (List.filter (fun key => existsb (fun t => includes t key) tables)
                                 keys)).
  { intros files keys H. induction H as [|f key files keys (o & -> & Hkey) _ IH];
      [reflexivity|].
    cbn [S3Data.filesToDelete js_prop]. rewrite Hkey, IH. reflexivity. }
  split.
  - intros files keys Hc Hkeys. unfold S3Data.deleteAllFiles.
    cbv beta iota zeta delta [bind get S3Data.send ret throw].
    rewrite Hs. unfold S3.call at 1. rewrite Hlist.
    cbn [js_prop]. rewrite Hc. fold tables. rewrite (Hsel files keys Hkeys).
    cbn [S3.s3 S3.add_call]. rewrite Hs. unfold S3.call.
    cbn [S3.trace S3.add_call S3.vars]. fold listed.
    match goal with
    | |- context [B ?t ?c] => destruct (B t c)
    end; reflexivity.
  - intros Hc. unfold S3Data.deleteAllFiles.
    cbv beta iota zeta delta [bind get S3Data.send ret throw].
    rewrite Hs. unfold S3.call at 1. rewrite Hlist.
    cbn [js_prop]. rewrite Hc. eexists. reflexivity.
Qed.

Lemma deleteAllFiles_selects_witness :
  snd (S3Data.deleteAllFiles s3_ok sample_tables s3_ready_world)
  = S3.add_call
      (S3.DeleteObjects (Some "my_bucket")
         ["events/2024-01-01_a.json.gz"; "users/2024-01-01_b.json.gz"])
      (S3.add_call (S3.ListObjectsV2 (Some "my_bucket")) s3_ready_world).
Proof.
  destruct (deleteAllFiles_selects sample_rt s3_ok sample_tables s3_ready_world
              [("IsTruncated", JBool false);
               ("Contents",
                JArr [JObj [("Key", JStr "events/2024-01-01_a.json.gz");
                            ("LastModified", JStr "2024-01-01T00:00:00.000Z");
                            ("Size", JNum 1024);
                            ("StorageClass", JStr "STANDARD")];
                      JObj [("Key", JStr "other/readme.txt"); ("Size", JNum 12)];
                      JObj [("Size", JNum 2048);
                            ("Key", JStr "users/2024-01-01_b.json.gz")]]);
               ("Name", JStr "my_bucket");
               ("KeyCount", JNum 3)]
              eq_refl eq_refl) as [H _].
  apply (H _ ["events/2024-01-01_a.json.gz"; "other/readme.txt";
              "users/2024-01-01_b.json.gz"] eq_refl).
  repeat constructor; eexists; (split; [reflexivity | reflexivity]).
Defined.

Section S3Main.
Context (rt : Runtime) (B : S3.Backend).

Lemma verifyS3Credentials_returns (w : S3.World) :
  exists verified w1, S3.verifyS3Credentials B w = (Ok verified, w1)
                      /\ S3.canWriteToBucket w1 = S3.canWriteToBucket w.
Proof.
  unfold S3.verifyS3Credentials.
  cbv beta iota delta [bind modify get try_catch S3.call ret].
  match goal with
  | |- context [B ?t ?c] => destruct (B t c)
  end; eexists; eexists; split; reflexivity.
Qed.

(** A call of [initializeS3] that returns leaves the adapter ready. *)
Lemma initializeS3_post (tableNames : TableNames) (w w1 : S3.World) (l : list JSValue) :
  S3.initializeS3 rt B tableNames w = (Ok l, w1) ->
  truthy (S3.isClientReady w1) = true /\ S3.canWriteToBucket w1 = true.
Proof.
  unfold S3.initializeS3. unfold bind at 1. unfold modify at 1.
  set (w0 := S3.set_vars (S3.process_env w) w).
  unfold bind at 1. unfold get at 1. unfold bind at 1.
  assert (Hcheck : forall w2 : S3.World,
             truthy (S3.isClientReady w2) = true ->
             (w3 <- get ;;
              (if S3.canWriteToBucket w3 then ret tt
               else
                 writable <- S3.verifyReadAndWritePermissions rt B ;;
                 modify (S3.set_canWriteToBucket writable) ;;;
                 if writable : bool then ret tt
                 else throw (Error "Could not verify read/write bucket permissions."))
              ;;; w4 <- get ;; ret [S3.isClientReady w4]) w2 = (Ok l, w1) ->
             truthy (S3.isClientReady w1) = true /\ S3.canWriteToBucket w1 = true).
  { intros w2 Hready. unfold bind at 1. unfold get at 1. unfold bind at 1.
    destruct (S3.canWriteToBucket w2) eqn:Hw.
    - unfold ret at 1. unfold bind, get, ret. intros [= _ <-]. auto.
    - unfold bind at 1.
      pose proof (verifyReadAndWritePermissions_keeps rt B w2) as Hk.
      destruct (S3.verifyReadAndWritePermissions rt B w2) as [[writable|e] w3];
        [|discriminate].
      unfold keeps in Hk. simpl in Hk.
      unfold bind at 1. unfold modify at 1.
      destruct writable; [|discriminate].
      unfold ret at 1. unfold bind, get, ret. intros [= _ <-].
      cbn [S3.isClientReady S3.canWriteToBucket S3.set_canWriteToBucket].
      rewrite Hk. auto. }
  destruct (truthy (S3.isClientReady w0)) eqn:Hready.
  - unfold ret at 1. apply Hcheck. exact Hready.
  - unfold bind at 1.
    destruct (verifyS3Credentials_returns w0) as (verified & w2 & Hrun & _).
    rewrite Hrun. unfold bind at 1. unfold modify at 1.
    destruct (truthy verified) eqn:Hv; [|discriminate].
    unfold ret at 1. apply Hcheck. exact Hv.
Qed.

End S3Main.

(** X23.  The S3 [main] resolves only on a ready adapter.  A result it
    returns is a [success] for [s3] counting the whole batch as inserted;
    the record kind was one of the three known ones, the readiness value
    is truthy and the write check has passed. *)
Theorem s3_main_result (rt : Runtime) (B : S3.Backend)
        (uid : list S3.Call -> nat -> string) (data : list Row) (ty : string)
        (tableNames : TableNames) (w w' : S3.World) (r : InsertResult) :
  S3Data.main rt B uid data ty tableNames w = (Ok r, w') ->
  recognized ty
  /\ truthy (S3.isClientReady w') = true
  /\ S3.canWriteToBucket w' = true
  /\ status r = "success"
  /\ insertedRows r = Z.of_nat (length data) /\ failedRows r = 0.
Proof.
  unfold S3Data.main. unfold bind at 1.
  destruct (S3.initializeS3 rt B tableNames w) as [[l|e] w1] eqn:Hinit; [|discriminate].
  apply initializeS3_post in Hinit as [Hready Hwrite].
  unfold bind at 1.
  assert (Hrec : forall pre,
             S3Data.insertData rt B uid data pre w1 = (Ok r, w') ->
             truthy (S3.isClientReady w') = true
             /\ S3.canWriteToBucket w' = true
             /\ status r = "success"
             /\ insertedRows r = Z.of_nat (length data) /\ failedRows r = 0).
  { intros pre. unfold S3Data.insertData.
    destruct (String.eqb pre ""); [discriminate|].
    cbv beta iota zeta delta [bind get S3Data.send S3.call ret throw].
    destruct (S3.s3 w1); [|discriminate].
    match goal with
    | |- context [B ?t ?c] => destruct (B t c)
    end; [|discriminate].
    intros [= <- <-]. cbn. auto. }
  destruct (String.eqb_spec ty "track") as [->|_].
  { unfold ret at 1. intros H. split; [now left | eapply Hrec, H]. }
  destruct (String.eqb_spec ty "engage") as [->|_].
  { unfold ret at 1. intros H. split; [right; now left | eapply Hrec, H]. }
  destruct (String.eqb_spec ty "groups") as [->|_]; [|discriminate].
  unfold ret at 1. intros H. split; [right; now right | eapply Hrec, H].
Qed.

Lemma s3_main_result_witness :
  exists r w',
    S3Data.main sample_rt s3_ok s3_uid [[("a", JNum 1)]; [("a", JNum 2)]] "track"
                sample_tables (S3.fresh_world s3_env) = (Ok r, w')
    /\ S3.canWriteToBucket w' = true /\ insertedRows r = 2.
Proof.
  destruct (S3Data.main sample_rt s3_ok s3_uid [[("a", JNum 1)]; [("a", JNum 2)]] "track"
                        sample_tables (S3.fresh_world s3_env)) as [[r|e] w'] eqn:E.
  - exists r, w'. split; [reflexivity|].
    destruct (s3_main_result sample_rt s3_ok s3_uid _ _ _ _ _ _ E)
      as (_ & _ & Hw & _ & Hi & _).
    split; [exact Hw | exact Hi].
  - vm_compute in E. discriminate E.
Defined.

(** ** The logger *)

Section LoggerFacts.
Context (sink : Logger.Out -> option Exn).

Lemma logger_emit_buffer (o : Logger.Out) (s : Logger.State) :
  Logger.logBuffer (snd (Logger.emit sink o s)) = Logger.logBuffer s
  /\ Logger.verbose (snd (Logger.emit sink o s)) = Logger.verbose s
  /\ Logger.cli_mode (snd (Logger.emit sink o s)) = Logger.cli_mode s
  /\ Logger.logging (snd (Logger.emit sink o s)) = Logger.logging s.
Proof. unfold Logger.emit. destruct (sink o); repeat split; reflexivity. Qed.

(** [print] changes nothing but what has been printed. *)
Lemma logger_print_buffer (message : string) (data : option (list (string * JSValue)))
      (severity : string) (s : Logger.State) :
  Logger.logBuffer (snd (Logger.print sink message data severity s))
  = Logger.logBuffer s.
Proof.
  unfold Logger.print, bind, get, ret.
  destruct (Logger.verbose s); [|reflexivity].
  destruct (Logger.cli_mode s); simpl.
  - destruct (logger_emit_buffer (Logger.ConsoleLog message data) s) as (H & _).
    destruct (Logger.emit sink _ s) as [[[]|e] s1]; exact H.
  - destruct (logger_emit_buffer
                (Logger.SLog message (match data with Some d => d | None => [] end)
                             severity) s) as (H & _).
    destruct (Logger.emit sink _ s) as [[[]|e] s1]; exact H.
Qed.

Lemma logger_print_quiet (message : string) (data : option (list (string * JSValue)))
      (severity : string) (s : Logger.State) :
  Logger.verbose s = false ->
  Logger.print sink message data severity s = (Ok tt, s).
Proof. intros H. unfold Logger.print, bind, get, ret. now rewrite H. Qed.

End LoggerFacts.

(** X24.  The log buffer is bounded.  A call of [log] never leaves more
    than 1000 entries in a buffer that held at most 1000; and when a
    message is logged into a buffer of exactly 1000 entries, the oldest
    500 are dropped: 501 entries remain, the new one last. *)
Theorem log_buffer_bounded (sink : Logger.Out -> option Exn) (message : string)
        (data : list Logger.Item) (s : Logger.State) :
  (length (Logger.logBuffer s) <= 1000)%nat ->
  (length (Logger.logBuffer (snd (Logger.log sink message data s))) <= 1000)%nat
  /\ (length (Logger.logBuffer s) = 1000%nat ->
      Logger.logging s = true -> Logger.verbose s = false ->
      Logger.cli_mode s = true -> message <> "" ->
      exists entry,
        Logger.logBuffer (snd (Logger.log sink message data s))
        = (drop 500 (Logger.logBuffer s) ++ [entry])%list
        /\ fst entry = message
        /\ length (Logger.logBuffer (snd (Logger.log sink message data s))) = 501%nat).
Proof.
  intros Hlen. split.
  - unfold Logger.log. unfold bind at 1. unfold get at 1.
    destruct (Logger.logging s); [|exact Hlen]. cbn [negb].
    set (msg := if Logger.cli_mode s then message else trim message).
    set (props := fold_left Logger.absorb data []).
    set (pr := match data with
               | [] => Logger.print sink msg None "INFO"
               | _ :: _ => if existsb Logger.is_error data
                           then Logger.print sink msg (Some props) "ERROR"
                           else Logger.print sink msg (Some props) "DEBUG"
               end).
    assert (Hpr : Logger.logBuffer (snd (pr s)) = Logger.logBuffer s).
    { unfold pr. destruct data; [|destruct (existsb _ _)];
        apply logger_print_buffer. }
    unfold try_catch, bind. destruct (pr s) as [[[]|e] s1]; simpl in Hpr.
    + destruct (negb (String.eqb msg "")); unfold modify, ret; cbn [snd];
        match goal with
        | |- context [Nat.ltb ?a ?b] => destruct (Nat.ltb_spec a b) as [Hlt|Hge]
        end; cbn [Logger.logBuffer Logger.set_logBuffer] in *;
        rewrite ?length_drop, ?length_app in *; cbn [length] in *;
        unfold Logger.LOG_MAX_SIZE in *; try lia.
      all: rewrite Hpr in *; try lia.
      all: assert (length (Logger.logBuffer s) = 1000%nat) as -> by lia;
        apply Nat.leb_le; reflexivity.
    + simpl. now rewrite Hpr.
  - intros Hfull Hlog Hquiet Hcli Hmsg. apply String.eqb_neq in Hmsg.
    set (entry := (message, match data with
                            | [] => None
                            | _ :: _ => Some (fold_left Logger.absorb data [])
                            end) : Logger.Entry).
    assert (Hrun : Logger.log sink message data s
                   = (Ok tt, Logger.set_logBuffer
                               (drop 500 (Logger.logBuffer s ++ [entry])%list) s)).
    { unfold Logger.log. unfold bind at 1. unfold get at 1.
      rewrite Hlog, Hcli. cbn [negb]. rewrite Hmsg. cbn [negb].
      assert (Hpr : forall d sev, Logger.print sink message d sev s = (Ok tt, s))
        by (intros; now apply logger_print_quiet).
      unfold try_catch, bind.
      replace (match data with
               | [] => Logger.print sink message None "INFO"
               | _ :: _ => if existsb Logger.is_error data
                           then Logger.print sink message
                                  (Some (fold_left Logger.absorb data [])) "ERROR"
                           else Logger.print sink message
                                  (Some (fold_left Logger.absorb data [])) "DEBUG"
               end s) with (@Ok unit tt, s)
        by (destruct data; [|destruct (existsb _ _)]; now rewrite Hpr).
      unfold modify. cbn [snd Logger.logBuffer Logger.set_logBuffer].
      rewrite length_app, Hfull. cbn [length].
      change (Nat.ltb Logger.LOG_MAX_SIZE (1000 + 1)) with true.
      change (Nat.div (1000 + 1) 2) with 500%nat.
      reflexivity. }
    rewrite Hrun. cbn [snd Logger.logBuffer Logger.set_logBuffer].
    exists entry. split; [|split].
    + rewrite drop_app_le by lia. reflexivity.
    + reflexivity.
    + rewrite length_drop, length_app, Hfull. reflexivity.
Qed.

Lemma log_buffer_bounded_witness :
  length (Logger.logBuffer
            (snd (Logger.log quiet_sink "one more" []
                             (Logger.setVerbose false
                                (Logger.setCliMode true full_log)))))
  = 501%nat.
Proof.
  destruct (log_buffer_bounded quiet_sink "one more" []
              (Logger.setVerbose false (Logger.setCliMode true full_log)))
    as [_ H].
  { cbn [Logger.logBuffer Logger.setVerbose Logger.setCliMode full_log].
    rewrite repeat_length. lia. }
  destruct H as (entry & _ & _ & Hlen).
  - cbn [Logger.logBuffer Logger.setVerbose Logger.setCliMode full_log].
    apply repeat_length.
  - reflexivity.
  - reflexivity.
  - reflexivity.
  - discriminate.
  - exact Hlen.
Defined.

Section LoggerRuns.
Context (sink : Logger.Out -> option Exn).

(** With a sink that accepts it, [print] resolves and only prints. *)
Lemma logger_print_ok (message : string) (data : option (list (string * JSValue)))
      (severity : string) (s : Logger.State) :
  Logger.verbose s = false \/ (forall o, sink o = None) ->
  exists out,
    Logger.print sink message data severity s
    = (Ok tt, Logger.mkState (Logger.logBuffer s) (Logger.verbose s)
                             (Logger.cli_mode s) (Logger.logging s) out)
    /\ (Logger.verbose s = false -> out = Logger.printed s).
Proof.
  intros Hok. destruct s as [buf vb cl lg pr].
  cbn [Logger.verbose Logger.cli_mode Logger.logging Logger.logBuffer Logger.printed]
    in *.
  unfold Logger.print, bind, get, ret, Logger.emit, modify, Logger.add_out.
  cbn [Logger.verbose Logger.cli_mode Logger.logging Logger.logBuffer Logger.printed].
  destruct vb.
  - destruct Hok as [Hq|Hs]; [discriminate|]. rewrite !Hs.
    destruct cl; simpl; eexists; (split; [reflexivity | discriminate]).
  - eexists. split; reflexivity.
Qed.

(** What [log] does when printing goes through. *)
Lemma logger_log_ok (message : string) (data : list Logger.Item) (s : Logger.State) :
  Logger.verbose s = false \/ (forall o, sink o = None) ->
  exists out,
    Logger.log sink message data s
    = (Ok tt, Logger.mkState (buffered s message data) (Logger.verbose s)
                             (Logger.cli_mode s) (Logger.logging s) out)
    /\ (Logger.verbose s = false -> out = Logger.printed s).
Proof.
  intros Hok. unfold Logger.log, buffered, log_entry. unfold bind at 1. unfold get at 1.
  destruct (Logger.logging s) eqn:Hl; cbn [negb fst].
  2:{ exists (Logger.printed s). unfold ret. split; [|reflexivity].
      destruct s; simpl in *; now subst. }
  set (msg := if Logger.cli_mode s then message else trim message).
  set (props := fold_left Logger.absorb data []).
  assert (Hpr : exists out,
             (match data with
              | [] => Logger.print sink msg None "INFO"
              | _ :: _ => if existsb Logger.is_error data
                          then Logger.print sink msg (Some props) "ERROR"
                          else Logger.print sink msg (Some props) "DEBUG"
              end) s
             = (Ok tt, Logger.mkState (Logger.logBuffer s) (Logger.verbose s)
                                      (Logger.cli_mode s) (Logger.logging s) out)
             /\ (Logger.verbose s = false -> out = Logger.printed s)).
  { destruct data; [|destruct (existsb _ _)]; now apply logger_print_ok. }
  destruct Hpr as (out & Hrun & Hout).
  exists out. split; [|exact Hout].
  unfold try_catch, bind. rewrite Hrun. rewrite Hl.
  destruct (String.eqb msg ""); cbn [negb]; unfold modify, ret;
    cbn [Logger.logBuffer Logger.set_logBuffer Logger.verbose Logger.cli_mode
           Logger.logging Logger.printed];
    unfold Logger.LOG_MAX_SIZE;
    match goal with
    | |- context [Nat.ltb ?a ?b] => destruct (Nat.ltb a b)
    end; reflexivity.
Qed.

End LoggerRuns.

(** X25.  Turning CLI mode off silences the logger.  [setCliMode] sets
    the verbosity as well, so after [log.cli(false)] a call of [log]
    prints nothing, whatever the verbosity was before and whatever the
    sinks do; the message is still buffered, trimmed, unless it is
    blank or logging is off. *)
Theorem cli_off_silences (sink : Logger.Out -> option Exn) (message : string)
        (data : list Logger.Item) (s : Logger.State) :
  let s0 := Logger.setCliMode false s in
  Logger.printed (snd (Logger.log sink message data s0)) = Logger.printed s
  /\ (Logger.logging s = true -> (length (Logger.logBuffer s) < 1000)%nat ->
      Logger.logBuffer (snd (Logger.log sink message data s0))
      = if String.eqb (trim message) "" then Logger.logBuffer s
        else (Logger.logBuffer s
                ++ [(trim message,
                     match data with
                     | [] => None
                     | _ :: _ => Some (fold_left Logger.absorb data [])
                     end)])%list).
Proof.
  intros s0.
  destruct (logger_log_ok sink message data s0 (or_introl eq_refl))
    as (out & Hrun & Hout).
  rewrite Hrun. cbn [snd Logger.printed Logger.logBuffer].
  split; [now rewrite Hout|].
  intros Hl Hlen. unfold buffered, log_entry, s0.
  cbn [Logger.logging Logger.cli_mode Logger.setCliMode Logger.logBuffer fst].
  rewrite Hl.
  destruct (String.eqb (trim message) "").
  - destruct (Nat.ltb_spec 1000 (length (Logger.logBuffer s))); [lia | reflexivity].
  - match goal with
    | |- context [Nat.ltb ?a ?b] => destruct (Nat.ltb_spec a b) as [H|H]
    end; [|reflexivity].
    rewrite length_app in H. cbn [length] in H. lia.
Qed.

Lemma cli_off_silences_witness :
  Logger.logBuffer
    (snd (Logger.log broken_sink "  connected  " []
                     (Logger.setCliMode false (Logger.setVerbose true Logger.initial))))
  = [("connected", None)].
Proof.
  destruct (cli_off_silences broken_sink "  connected  " []
              (Logger.setVerbose true Logger.initial)) as [_ H].
  rewrite H; [reflexivity | reflexivity | simpl; lia].
Defined.

(** X26.  What is buffered does not depend on what is printed.  With
    sinks that do not throw, the buffer [log] leaves is the same whether
    the logger is verbose or not: the stored message (trimmed outside CLI
    mode, skipped when empty) followed by the halving of a buffer that
    grew beyond 1000 entries; the settings are left as they were. *)
Theorem buffer_independent_of_verbosity (sink : Logger.Out -> option Exn)
        (message : string) (data : list Logger.Item) (s : Logger.State) (v : bool) :
  (forall o, sink o = None) ->
  Logger.logBuffer (snd (Logger.log sink message data (Logger.setVerbose v s)))
  = buffered s message data
  /\ Logger.cli_mode (snd (Logger.log sink message data s)) = Logger.cli_mode s
  /\ Logger.verbose (snd (Logger.log sink message data s)) = Logger.verbose s
  /\ Logger.logging (snd (Logger.log sink message data s)) = Logger.logging s.
Proof.
  intros Hs.
  destruct (logger_log_ok sink message data (Logger.setVerbose v s) (or_intror Hs))
    as (out & Hrun & _).
  destruct (logger_log_ok sink message data s (or_intror Hs)) as (out' & Hrun' & _).
  rewrite Hrun, Hrun'. repeat split.
Qed.

Lemma buffer_independent_of_verbosity_witness :
  Logger.logBuffer
    (snd (Logger.log quiet_sink "copied" [Logger.DataItem (JObj [("rows", JNum 2)])]
                     (Logger.setVerbose true Logger.initial)))
  = [("copied", Some [("rows", JNum 2)])].
Proof.
  destruct (buffer_independent_of_verbosity quiet_sink "copied"
              [Logger.DataItem (JObj [("rows", JNum 2)])] Logger.initial true)
    as [H _]; [reflexivity|].
  rewrite H. reflexivity.
Defined.

(** X27.  A sink that throws loses the entry.  When the logger is
    verbose and the print of a message throws, [log] reports the
    exception on the console and returns without buffering the message:
    the buffer and the settings are as before. *)
Theorem failing_sink_loses_entry (sink : Logger.Out -> option Exn) (message : string)
        (s : Logger.State) (e : Exn) :
  Logger.logging s = true -> Logger.verbose s = true -> Logger.cli_mode s = false ->
  sink (Logger.SLog (trim message) [] "INFO") = Some e ->
  Logger.log sink message [] s = (Ok tt, Logger.add_out (Logger.ConsoleError e) s).
Proof.
  intros Hl Hv Hc He. unfold Logger.log. unfold bind at 1. unfold get at 1.
  rewrite Hl, Hc. cbn [negb].
  cbv beta iota delta [try_catch bind Logger.print get ret Logger.emit].
  rewrite Hv, Hc. cbn [negb]. rewrite He. reflexivity.
Qed.

Lemma failing_sink_loses_entry_witness :
  Logger.logBuffer
    (snd (Logger.log broken_sink "connected" [] (Logger.setVerbose true Logger.initial)))
  = [].
Proof.
  rewrite (failing_sink_loses_entry broken_sink "connected"
             (Logger.setVerbose true Logger.initial)
             (TypeError "Converting circular structure to JSON"));
    reflexivity.
Defined.
